(** * owl_cam: the capture / annotate / publish pipeline

    A shallow embedding of the three capture scripts of the repository
    ([capture_pi.py], [capture_pi4.py], [cap_pi6.py]) and the properties of
    their naming, remote-mirror, index-builder, annotator and session code.

    Conventions.
    - Python [str] values are [string]; [int] values are [Z] or [nat] where
      the program only ever counts upwards from zero.
    - Code that touches the outside world (clock, file system, [ssh]/[scp],
      Pillow, the console) runs in the monad [M]: explicit state passing over
      a [world], with Python exceptions as the [Raise] outcome.  What the
      outside world answers is given by an [env] of oracles.
    - Functions shared verbatim by [capture_pi4.py] and [cap_pi6.py] are
      embedded once; the ones that differ live in the modules [CapturePi],
      [CapturePi4] and [CapPi6]. *)

From Stdlib Require Import String Ascii List ZArith NArith Lia Bool Arith.
From Stdlib Require Import Sorting.Sorted Sorting.Permutation.
From Stdlib Require Import Decimal DecimalNat DecimalString.
Import ListNotations.
Open Scope string_scope.

(* ================================================================= *)
(** * Strings *)

(** [str(n)] for a non-negative [int]. *)
Definition str (n : nat) : string := NilEmpty.string_of_uint (Nat.to_uint n).

(** [str(z)] for an [int]. *)
Definition str_Z (z : Z) : string :=
  if (z <? 0)%Z then "-" ++ str (Z.abs_nat z) else str (Z.to_nat z).

Fixpoint zeros (k : nat) : string :=
  match k with
  | O => ""
  | S k' => String "0" (zeros k')
  end.

(** [s.zfill(w)] on a string of digits: the padding of [%02d], [%04d]. *)
Definition zfill (w : nat) (s : string) : string :=
  zeros (w - String.length s) ++ s.

(** [f"{n:0wd}"] for [n >= 0]; also the numeric fields of [strftime]. *)
Definition fmt_d (w n : nat) : string := zfill w (str n).

(** Reading a run of decimal digits back (used to state round trips). *)
Definition parse_decimal (s : string) : option nat :=
  option_map Nat.of_uint (NilEmpty.uint_of_string s).

(** [s[:-n]] *)
Definition drop_last (n : nat) (s : string) : string :=
  substring 0 (String.length s - n) s.

Definition is_slash (c : ascii) : bool := Ascii.eqb c "/".

(** [s.startswith("/")] *)
Definition startswith_slash (s : string) : bool :=
  match s with
  | String c _ => is_slash c
  | EmptyString => false
  end.

(** [s.endswith("/")] *)
Fixpoint endswith_slash (s : string) : bool :=
  match s with
  | EmptyString => false
  | String c EmptyString => is_slash c
  | String _ s' => endswith_slash s'
  end.

(** ['/' in s] *)
Fixpoint has_slash (s : string) : bool :=
  match s with
  | EmptyString => false
  | String c s' => is_slash c || has_slash s'
  end.

(** [os.path.join(a, b)] (posixpath, two arguments). *)
Definition os_path_join (a b : string) : string :=
  if startswith_slash b then b
  else if (a =? "") || endswith_slash a then a ++ b
  else a ++ "/" ++ b.

(** If [s] starts with [p], what follows [p]. *)
Fixpoint strip_prefix (p s : string) : option string :=
  match p, s with
  | EmptyString, _ => Some s
  | String a p', String b s' =>
      if Ascii.eqb a b then strip_prefix p' s' else None
  | String _ _, EmptyString => None
  end.

(** [lo <= c <= hi], for a byte [c]. *)
Definition between (lo hi : nat) (c : ascii) : bool :=
  Nat.leb lo (nat_of_ascii c) && Nat.leb (nat_of_ascii c) hi.

(** A continuation byte of UTF-8. *)
Definition continues (c : ascii) : bool := between 128 191 c.

(** Whether [b.decode("utf-8")] succeeds on the bytes [b]: the well-formed
    sequences of the Unicode standard (no overlong form, no surrogate,
    nothing above U+10FFFF). *)
Fixpoint utf8_valid (b : string) : bool :=
  match b with
  | EmptyString => true
  | String c0 b1 =>
      if between 0 127 c0 then utf8_valid b1
      else
        match b1 with
        | EmptyString => false
        | String c1 b2 =>
            if between 194 223 c0 then continues c1 && utf8_valid b2
            else
              match b2 with
              | EmptyString => false
              | String c2 b3 =>
                  if between 224 239 c0 then
                    (if Nat.eqb (nat_of_ascii c0) 224 then between 160 191 c1
                     else if Nat.eqb (nat_of_ascii c0) 237
                          then between 128 159 c1
                          else continues c1)
                    && continues c2 && utf8_valid b3
                  else
                    match b3 with
                    | EmptyString => false
                    | String c3 b4 =>
                        between 240 244 c0
                        && (if Nat.eqb (nat_of_ascii c0) 240
                            then between 144 191 c1
                            else if Nat.eqb (nat_of_ascii c0) 244
                                 then between 128 143 c1
                                 else continues c1)
                        && continues c2 && continues c3 && utf8_valid b4
                    end
              end
        end
  end.

(* ================================================================= *)
(** * The clock and the Naming Service *)

(** A [datetime] value as [datetime.now()] returns it. *)
Record datetime : Type := mkDatetime {
  year : nat; month : nat; day : nat;
  hour : nat; minute : nat; second : nat;
  microsecond : nat
}.

(** The ranges of the fields (the year is taken with four digits, which is
    what every platform's [%Y] prints for the years 1000 to 9999). *)
Definition valid_datetime (d : datetime) : Prop :=
  1000 <= year d < 10 * 1000 /\ 1 <= month d <= 12 /\ 1 <= day d <= 31 /\
  hour d <= 23 /\ minute d <= 59 /\ second d <= 59 /\
  microsecond d < 1000 * 1000.

(** The second on the clock: every field but the microseconds. *)
Definition clock_second (d : datetime) : nat * nat * nat * nat * nat * nat :=
  (year d, month d, day d, hour d, minute d, second d).

(** [d.strftime("%Y%m%d_%H%M%S")] *)
Definition strftime_compact (d : datetime) : string :=
  fmt_d 4 (year d) ++ fmt_d 2 (month d) ++ fmt_d 2 (day d) ++ "_" ++
  fmt_d 2 (hour d) ++ fmt_d 2 (minute d) ++ fmt_d 2 (second d).

(** [d.strftime("%Y%m%d_%H%M%S_%f")] *)
Definition strftime_compact_f (d : datetime) : string :=
  strftime_compact d ++ "_" ++ fmt_d 6 (microsecond d).

(** [d.strftime("%Y-%m-%d %H:%M:%S")] *)
Definition strftime_human (d : datetime) : string :=
  fmt_d 4 (year d) ++ "-" ++ fmt_d 2 (month d) ++ "-" ++ fmt_d 2 (day d) ++
  " " ++
  fmt_d 2 (hour d) ++ ":" ++ fmt_d 2 (minute d) ++ ":" ++ fmt_d 2 (second d).


(* ================================================================= *)
(** * More string functions of the Python library *)

Definition is_space (c : ascii) : bool :=
  match nat_of_ascii c with
  | 9 | 10 | 11 | 12 | 13 | 28 | 29 | 30 | 31 | 32 => true
  | _ => false
  end.

Fixpoint lstrip (s : string) : string :=
  match s with
  | String c s' => if is_space c then lstrip s' else s
  | EmptyString => s
  end.

Fixpoint rstrip (s : string) : string :=
  match s with
  | EmptyString => EmptyString
  | String c s' =>
      match rstrip s' with
      | EmptyString => if is_space c then EmptyString else String c EmptyString
      | r => String c r
      end
  end.

(** [s.strip()] *)
Definition strip (s : string) : string := lstrip (rstrip s).

(** [s.rstrip("/")] *)
Fixpoint rstrip_slash (s : string) : string :=
  match s with
  | EmptyString => EmptyString
  | String c s' =>
      match rstrip_slash s' with
      | EmptyString => if is_slash c then EmptyString else String c EmptyString
      | r => String c r
      end
  end.

(** [s.lstrip(".")] *)
Fixpoint lstrip_dots (s : string) : string :=
  match s with
  | String c s' => if Ascii.eqb c "." then lstrip_dots s' else s
  | EmptyString => s
  end.

Definition lower_ascii (c : ascii) : ascii :=
  let n := nat_of_ascii c in
  if Nat.leb 65 n && Nat.leb n 90 then ascii_of_nat (n + 32) else c.

(** [s.lower()], on the ASCII letters *)
Fixpoint lower (s : string) : string :=
  match s with
  | EmptyString => EmptyString
  | String c s' => String (lower_ascii c) (lower s')
  end.

(** The double-quote character. *)
Definition dquote : ascii := ascii_of_nat 34.

(** [html.escape(s)] with its default [quote=True]. *)
Fixpoint html_escape (s : string) : string :=
  match s with
  | EmptyString => EmptyString
  | String c s' =>
      (if Ascii.eqb c "&" then "&amp;"
       else if Ascii.eqb c "<" then "&lt;"
       else if Ascii.eqb c ">" then "&gt;"
       else if Ascii.eqb c dquote then "&quot;"
       else if Ascii.eqb c "'" then "&#x27;"
       else String c EmptyString) ++ html_escape s'
  end.

(* ================================================================= *)
(** * Exceptions *)

(** The exception classes the scripts meet.  [Exception] stands for any
    other subclass of [Exception] (Pillow's own errors, for instance);
    [KeyboardInterrupt] derives from [BaseException] only. *)
Inductive exn_class : Type :=
| Exception | OSError | FileNotFoundError | PermissionError
| NameError | UnboundLocalError | TypeError | ValueError
| CalledProcessError | KeyboardInterrupt
| FileExistsError | NotADirectoryError | UnicodeDecodeError
| OverflowError.

Definition exn_class_code (c : exn_class) : nat :=
  match c with
  | Exception => 0 | OSError => 1 | FileNotFoundError => 2
  | PermissionError => 3 | NameError => 4 | UnboundLocalError => 5
  | TypeError => 6 | ValueError => 7 | CalledProcessError => 8
  | KeyboardInterrupt => 9
  | FileExistsError => 10 | NotADirectoryError => 11
  | UnicodeDecodeError => 12 | OverflowError => 13
  end.

(** [issubclass(c, h)]: does [except h] catch an exception of class [c]? *)
Definition subclass (c h : exn_class) : bool :=
  match h, c with
  | Exception, KeyboardInterrupt => false
  | Exception, _ => true
  | OSError, (FileNotFoundError | PermissionError
              | FileExistsError | NotADirectoryError) => true
  | NameError, UnboundLocalError => true
  | ValueError, UnicodeDecodeError => true
  | _, _ => Nat.eqb (exn_class_code c) (exn_class_code h)
  end.

(** An exception object: its class, [str(e)], and the [stderr] attribute
    that a [CalledProcessError] carries. *)
Record exn : Type := mkExn {
  e_class : exn_class;
  e_msg : string;
  e_stderr : option string
}.

Definition error (c : exn_class) (msg : string) : exn := mkExn c msg None.

Inductive outcome (A : Type) : Type :=
| Return (a : A)
| Raise (e : exn).
Arguments Return {A} a.
Arguments Raise {A} e.

(* ================================================================= *)
(** * The world *)

(** A finite [float], as the fraction it denotes. *)
Definition pyfloat : Type := (Z * positive)%type.

(** The length of a pause in nanoseconds, rounded away from zero as
    [time.sleep] rounds it. *)
Definition sleep_ns (interval : pyfloat) : Z :=
  let n := (fst interval * 10 ^ 9)%Z in
  let d := Z.pos (snd interval) in
  if (0 <=? n)%Z then ((n + d - 1) / d)%Z else (- ((- n + d - 1) / d))%Z.

(** A directory the process knows of, under the path it is named by. *)
Record dir : Type := mkDir {
  d_path : string;
  d_readable : bool;
  d_writable : bool
}.

(** A directory entry under its full path; [f_stat] is [(st_mtime, st_size)],
    or [None] for an entry that [os.stat] cannot follow (a dangling link). *)
Record file : Type := mkFile {
  f_path : string;
  f_stat : option (Z * N)
}.

Inductive font : Type :=
| TrueType (path : string) (size : Z)
| DefaultFont.

Inductive draw_op : Type :=
| Rectangle (x0 y0 x1 y1 : Z)
| Text (x y : Z) (text : string) (f : font).

(** What the process does to the outside, most recent first in [w_trace]. *)
Inductive event : Type :=
| Print (line : string)
| Run (cmd : list string)
| Capture (path : string)
| WriteText (path content : string)
| SaveImage (path : string) (ops : list draw_op)
| Copy (src dst : string)
| Sleep (interval : pyfloat).

Record world : Type := mkWorld {
  w_dirs : list dir;
  w_files : list file;      (* in directory order *)
  w_trace : list event;
  w_tick : nat               (* how many times the outside was consulted *)
}.

(** What a call into Pillow answers: a value, or the message of the error
    it raises (some subclass of [Exception]).  For the calls that return
    nothing, [None] is success and [Some msg] the error. *)
Inductive answer (A : Type) : Type :=
| Ok (a : A)
| Fails (msg : string).
Arguments Ok {A} a.
Arguments Fails {A} msg.

(** What the outside answers.  The index [nat] is the [w_tick] at the call. *)
Record env : Type := mkEnv {
  env_now : nat -> datetime;                 (* datetime.now() *)
  env_mtime : nat -> Z;                      (* st_mtime of a file written then *)
  env_size : nat -> N;                       (* st_size of an image written then *)
  env_localtime : Z -> string;               (* strftime('%Y-%m-%d %H:%M:%S', localtime(t)) *)
  env_which : string -> bool;                (* shutil.which(name) is not None *)
  env_run : nat -> list string -> option (string * string);
                                             (* exit status 0, or str(e) and stderr *)
  env_interrupt : nat -> bool;               (* Ctrl-C during this sleep *)
  env_monotonic : nat -> Z;                  (* time.monotonic_ns() *)
  env_copy : nat -> string -> string -> option exn;   (* shutil.copy2 *)
  PIL_AVAILABLE : bool;
  pil_open : string -> answer (Z * Z);       (* Image.open(p).convert('RGB').size *)
  pil_truetype : string -> Z -> option string;   (* ImageFont.truetype *)
  pil_load_default : option string;          (* ImageFont.load_default *)
  pil_textbbox : string -> font -> answer (Z * Z * Z * Z);
  pil_textsize : string -> font -> answer (Z * Z);
  pil_draw : draw_op -> option string;       (* draw.rectangle, draw.text *)
  pil_save : string -> option string         (* img.save *)
}.

Definition tick (w : world) : world :=
  mkWorld (w_dirs w) (w_files w) (w_trace w) (S (w_tick w)).

Definition log (ev : event) (w : world) : world :=
  mkWorld (w_dirs w) (w_files w) (ev :: w_trace w) (w_tick w).

Definition set_files (fs : list file) (w : world) : world :=
  mkWorld (w_dirs w) fs (w_trace w) (w_tick w).

Definition set_dirs (ds : list dir) (w : world) : world :=
  mkWorld ds (w_files w) (w_trace w) (w_tick w).

(* ================================================================= *)
(** * The monad: state passing over the world, with exceptions *)

Definition M (A : Type) : Type := world -> outcome A * world.

Definition ret {A : Type} (a : A) : M A := fun w => (Return a, w).

Definition raise {A : Type} (e : exn) : M A := fun w => (Raise e, w).

Definition bind {A B : Type} (c : M A) (k : A -> M B) : M B :=
  fun w =>
    match c w with
    | (Return a, w') => k a w'
    | (Raise e, w') => (Raise e, w')
    end.

(** [try: c  except h as e: k e] *)
Definition try_except {A : Type} (c : M A) (h : exn_class) (k : exn -> M A)
  : M A :=
  fun w =>
    match c w with
    | (Return a, w') => (Return a, w')
    | (Raise e, w') =>
        if subclass (e_class e) h then k e w' else (Raise e, w')
    end.

(** [try: c  finally: f] *)
Definition try_finally {A : Type} (c : M A) (f : M unit) : M A :=
  fun w =>
    let (r, w') := c w in
    match f w' with
    | (Return _, w'') => (r, w'')
    | (Raise e, w'') => (Raise e, w'')
    end.

Declare Scope monad_scope.
Delimit Scope monad_scope with monad.
Notation "x <- c1 ;; c2" := (bind c1 (fun x => c2))
  (at level 61, c1 at next level, right associativity) : monad_scope.
Notation "c1 ;; c2" := (bind c1 (fun _ => c2))
  (at level 61, right associativity) : monad_scope.
Open Scope monad_scope.

Definition emit (ev : event) : M unit := fun w => (Return tt, log ev w).

(** [print(a)] and [print(a, b)] *)
Definition print (a : string) : M unit := emit (Print a).
Definition print2 (a b : string) : M unit := emit (Print (a ++ " " ++ b)).

(** [[f x for x in l]] *)
Fixpoint mapM {A B : Type} (f : A -> M B) (l : list A) : M (list B) :=
  match l with
  | [] => ret []
  | x :: l' => y <- f x ;; ys <- mapM f l' ;; ret (y :: ys)
  end.

(** Truthiness of an optional string: neither [None] nor empty. *)
Definition truthy (o : option string) : bool :=
  match o with
  | Some s => negb (s =? "")
  | None => false
  end.

(* ================================================================= *)
(** * The file system, the clock, subprocesses *)

(** A directory's path as a prefix of the paths of its entries. *)
Definition dir_prefix (d : string) : string :=
  if endswith_slash d then d else d ++ "/".

(** The name under which the file at path [p] is an entry of directory [d]. *)
Definition entry_name (d p : string) : option string :=
  match strip_prefix (dir_prefix d) p with
  | Some n => if has_slash n || (n =? "") then None else Some n
  | None => None
  end.

Definition is_entry (d p : string) : bool :=
  match entry_name d p with
  | Some _ => true
  | None => false
  end.

Definition find_dir (w : world) (d : string) : option dir :=
  find (fun x => dir_prefix (d_path x) =? dir_prefix d) (w_dirs w).

Definition find_file (w : world) (p : string) : option file :=
  find (fun f => f_path f =? p) (w_files w).

Fixpoint names_in (d : string) (fs : list file) : list string :=
  match fs with
  | [] => []
  | f :: fs' =>
      match entry_name d (f_path f) with
      | Some n => n :: names_in d fs'
      | None => names_in d fs'
      end
  end.

(** Does a regular file stand at [d]? *)
Definition file_at (w : world) (d : string) : bool :=
  existsb (fun f => negb (f_path f =? "")
                    && (dir_prefix (f_path f) =? dir_prefix d))
          (w_files w).

(** Does a regular file stand where the path [p] needs a directory: is the
    path of a file, followed by a slash, the beginning of [p]? *)
Definition blocked (w : world) (p : string) : bool :=
  existsb (fun f => negb (f_path f =? "")
                    && match strip_prefix (dir_prefix (f_path f)) p with
                       | Some _ => true
                       | None => false
                       end)
          (w_files w).

(** [os.listdir(d)] *)
Definition os_listdir (d : string) : M (list string) :=
  fun w =>
    if d =? "" then (Raise (error FileNotFoundError "No such file or directory"), w)
    else
      match find_dir w d with
      | None =>
          if blocked w (dir_prefix d)
          then (Raise (error NotADirectoryError "Not a directory"), w)
          else (Raise (error FileNotFoundError "No such file or directory"), w)
      | Some x =>
          if d_readable x then (Return (names_in d (w_files w)), w)
          else (Raise (error PermissionError "Permission denied"), w)
      end.

Definition stat (p : string) : M (Z * N) :=
  fun w =>
    match find_file w p with
    | Some (mkFile _ (Some st)) => (Return st, w)
    | _ => (Raise (error FileNotFoundError "No such file or directory"), w)
    end.

(** [os.path.getmtime(p)] *)
Definition os_path_getmtime (p : string) : M Z :=
  st <- stat p ;; ret (fst st).

(** [os.path.getsize(p)] *)
Definition os_path_getsize (p : string) : M N :=
  st <- stat p ;; ret (snd st).

(** Whether [open(p, 'w')] succeeds.  A file that is there is opened and
    truncated, whatever its directory allows (the files of the world are
    taken to be the process's own, and writable).  To create a file, its
    directory has to exist and be writable.  A path with no slash names an
    entry of the current directory, which is taken to be writable. *)
Definition can_create (w : world) (p : string) : outcome unit :=
  match find_file w p with
  | Some _ => Return tt
  | None =>
      if has_slash p then
        match find (fun x => is_entry (d_path x) p) (w_dirs w) with
        | None =>
            if blocked w p
            then Raise (error NotADirectoryError "Not a directory")
            else Raise (error FileNotFoundError "No such file or directory")
        | Some x =>
            if d_writable x then Return tt
            else Raise (error PermissionError "Permission denied")
        end
      else Return tt
  end.

(** Writing the file at [p]: in place when it exists, else as a new last
    entry. *)
Fixpoint put_file (p : string) (st : Z * N) (fs : list file) : list file :=
  match fs with
  | [] => [mkFile p (Some st)]
  | f :: fs' =>
      if f_path f =? p then mkFile p (Some st) :: fs'
      else f :: put_file p st fs'
  end.

(** [os.makedirs(path, exist_ok=True)].  A directory that is there is left
    alone.  A regular file at [path] is a [FileExistsError], one further up
    a [NotADirectoryError].  Otherwise the directory is made; the
    directories above it that the world does not list are taken to be there
    or to be made with it. *)
Definition ensure_outdir (path : string) : M unit :=
  fun w =>
    if path =? "" then
      (Raise (error FileNotFoundError "No such file or directory"), w)
    else
      match find_dir w path with
      | Some _ => (Return tt, w)
      | None =>
          if file_at w path then
            (Raise (error FileExistsError "File exists"), w)
          else if blocked w (dir_prefix path) then
            (Raise (error NotADirectoryError "Not a directory"), w)
          else
            (Return tt, set_dirs (w_dirs w ++ [mkDir path true true])%list w)
      end.

Section Outside.
Variable E : env.

(** [datetime.now()] *)
Definition now : M datetime :=
  fun w => (Return (env_now E (w_tick w)), tick w).

(** [with open(p, 'w', encoding='utf-8') as fh: fh.write(content)] *)
Definition write_text (p content : string) : M unit :=
  fun w =>
    match can_create w p with
    | Raise e => (Raise e, w)
    | Return _ =>
        let st := (env_mtime E (w_tick w), N.of_nat (String.length content)) in
        (Return tt,
         tick (log (WriteText p content) (set_files (put_file p st (w_files w)) w)))
    end.

(** [picam2.capture_file(p)]: the driver writes a frame to [p]. *)
Definition capture_file (p : string) : M unit :=
  fun w =>
    match can_create w p with
    | Raise e => (Raise e, w)
    | Return _ =>
        let st := (env_mtime E (w_tick w), env_size E (w_tick w)) in
        (Return tt,
         tick (log (Capture p) (set_files (put_file p st (w_files w)) w)))
    end.

(** What [time.sleep(interval)] refuses before it pauses: a length that in
    nanoseconds does not fit 64 bits is an [OverflowError], a negative one
    a [ValueError], and one that carries the monotonic clock past 64 bits
    is refused by the system. *)
Definition sleep_error (interval : pyfloat) (w : world) : option exn :=
  let ns := sleep_ns interval in
  if ((ns <? - 2 ^ 63) || (2 ^ 63 <=? ns))%Z then
    Some (error OverflowError "timestamp too large to convert to C _PyTime_t")
  else if (ns <? 0)%Z then
    Some (error ValueError "sleep length must be non-negative")
  else if (2 ^ 63 <=? env_monotonic E (w_tick w) + ns)%Z then
    Some (error OSError "[Errno 22] Invalid argument")
  else None.

(** [time.sleep(interval)]: a Ctrl-C raises [KeyboardInterrupt] out of the
    pause. *)
Definition sleep (interval : pyfloat) : M unit :=
  fun w =>
    match sleep_error interval w with
    | Some e => (Raise e, w)
    | None =>
        if env_interrupt E (w_tick w) then
          (Raise (error KeyboardInterrupt EmptyString), tick w)
        else (Return tt, tick (log (Sleep interval) w))
    end.

(** [subprocess.run(cmd, check=True, ...)] *)
Definition subprocess_run (cmd : list string) : M unit :=
  fun w =>
    let w' := tick (log (Run cmd) w) in
    match env_run E (w_tick w) cmd with
    | None => (Return tt, w')
    | Some (msg, err) => (Raise (mkExn CalledProcessError msg (Some err)), w')
    end.

(** [shutil.copy2(src, dst)] *)
Definition shutil_copy2 (src dst : string) : M unit :=
  fun w =>
    match env_copy E (w_tick w) src dst with
    | Some e => (Raise e, tick w)
    | None => (Return tt, tick (log (Copy src dst) w))
    end.

(* ================================================================= *)
(** * Remote Mirror *)

(** The keyword arguments built by [main] as [scp_config]. *)
Record scp_config : Type := mkScp {
  remote_user : string;
  remote_host : string;
  remote_path : string;
  ssh_key : option string;
  ssh_port : Z
}.

(** [if ssh_key: cmd.extend(['-i', ssh_key])] *)
Definition key_args (k : option string) : list string :=
  if truthy k then
    match k with
    | Some s => ["-i"; s]
    | None => []
    end
  else [].

(** [os.path.basename(p)] *)
Fixpoint basename (p : string) : string :=
  match p with
  | EmptyString => EmptyString
  | String c p' =>
      if has_slash p' then basename p'
      else if is_slash c then p' else p
  end.

(** [b.decode("utf-8")]: the text is kept as its bytes. *)
Definition decode_utf8 (b : string) : M string :=
  if utf8_valid b then ret b
  else raise (error UnicodeDecodeError
                "'utf-8' codec can't decode the bytes").

Definition _ensure_remote_dir (c : scp_config) : M bool :=
  if negb (env_which E "ssh") then
    print "ssh command not found; cannot ensure remote directory exists." ;;
    ret false
  else
    let cmd := (["ssh"; "-p"; str_Z (ssh_port c)] ++ key_args (ssh_key c))%list in
    let remote_cmd := "mkdir -p '" ++ remote_path c ++ "'" in
    let target := remote_user c ++ "@" ++ remote_host c in
    let cmd := (cmd ++ [target])%list in
    let cmd := (cmd ++ [remote_cmd])%list in
    try_except
      (subprocess_run cmd ;; ret true)
      CalledProcessError
      (fun e => print2 "Failed to ensure remote directory:" (e_msg e) ;;
                ret false).

Definition _scp_upload (local_path : string) (c : scp_config) : M bool :=
  if negb (env_which E "scp") then
    print "scp command not found; cannot upload file." ;;
    ret false
  else
    ok <- _ensure_remote_dir c ;;
    if negb ok then
      print "Skipping upload; could not ensure remote directory." ;;
      ret false
    else
      let remote_target :=
        remote_user c ++ "@" ++ remote_host c ++ ":" ++
        rstrip_slash (remote_path c) ++ "/" ++ basename local_path in
      let cmd := (["scp"; "-P"; str_Z (ssh_port c)] ++ key_args (ssh_key c))%list in
      let cmd := (cmd ++ [local_path; remote_target])%list in
      try_except
        (subprocess_run cmd ;;
         print ("Uploaded: " ++ local_path ++ " -> " ++
                remote_user c ++ "@" ++ remote_host c ++ ":" ++ remote_path c) ;;
         ret true)
        CalledProcessError
        (fun e =>
           stderr <- (match e_stderr e with
                      | Some b => decode_utf8 b
                      | None => ret "None"
                      end) ;;
           print2 "SCP upload failed:" (strip stderr) ;;
           ret false).

(** [_scp_upload(p, **scp_config)]: unpacking [None] is a [TypeError]. *)
Definition call_scp_upload (p : string) (cfg : option scp_config) : M bool :=
  match cfg with
  | Some c => _scp_upload p c
  | None =>
      raise (error TypeError
        "_scp_upload() argument after ** must be a mapping, not NoneType")
  end.

(** Truthiness of [scp_config]: a non-empty dict or [None]. *)
Definition configured (cfg : option scp_config) : bool :=
  match cfg with
  | Some _ => true
  | None => false
  end.

End Outside.

(* ================================================================= *)
(** * Index Builder: the parts both scripts share *)

Definition image_exts : list string :=
  ["jpg"; "jpeg"; "png"; "gif"; "webp"; "mp4"].

(** The text of [s] from its last dot on, if it has a dot. *)
Fixpoint from_last_dot (s : string) : option string :=
  match s with
  | EmptyString => None
  | String c s' =>
      match from_last_dot s' with
      | Some e => Some e
      | None => if Ascii.eqb c "." then Some s else None
      end
  end.

Fixpoint all_dots (s : string) : bool :=
  match s with
  | EmptyString => true
  | String c s' => Ascii.eqb c "." && all_dots s'
  end.

(** [os.path.splitext(f)[1]] for a name without slashes: the extension with
    its dot, empty when only leading dots come before the last dot. *)
Definition splitext_ext (f : string) : string :=
  match from_last_dot f with
  | None => EmptyString
  | Some e =>
      let root := substring 0 (String.length f - String.length e) f in
      if all_dots root then EmptyString else e
  end.

(** [os.path.splitext(f)[1].lstrip('.').lower() in image_exts] *)
Definition is_media (f : string) : bool :=
  existsb (String.eqb (lower (lstrip_dots (splitext_ext f)))) image_exts.

(** The scan, as both [build_index_html] and cap_pi6's [main] write it:
    [try: entries = [f for f in os.listdir(outdir) if ...]]
    [except FileNotFoundError: entries = []] *)
Definition scan_media (outdir : string) : M (list string) :=
  try_except
    (names <- os_listdir outdir ;; ret (filter is_media names))
    FileNotFoundError
    (fun _ => ret []).

(** [list.sort(key=..., reverse=True)] on the decorated list: a stable sort,
    largest key first, equal keys in their original order. *)
Fixpoint insert_desc (x : Z * string) (l : list (Z * string))
  : list (Z * string) :=
  match l with
  | [] => [x]
  | y :: l' =>
      if (fst x <? fst y)%Z then y :: insert_desc x l' else x :: l
  end.

Fixpoint sort_desc (l : list (Z * string)) : list (Z * string) :=
  match l with
  | [] => []
  | x :: l' => insert_desc x (sort_desc l')
  end.

(** [entries.sort(key=lambda fn: os.path.getmtime(os.path.join(outdir, fn)),
    reverse=True)]: the keys are computed first, one call per entry, and an
    error of [getmtime] leaves the sort. *)
Definition sort_newest_first (outdir : string) (entries : list string)
  : M (list string) :=
  keys <- mapM (fun fn => os_path_getmtime (os_path_join outdir fn)) entries ;;
  ret (map snd (sort_desc (combine keys entries))).

(** The two statements that open [build_index_html], and that cap_pi6's
    [main] repeats: the scan, then the sort. *)
Definition sorted_entries (outdir : string) : M (list string) :=
  entries <- scan_media outdir ;;
  sort_newest_first outdir entries.

Definition newline : string := String (ascii_of_nat 10) EmptyString.

Definition card_open : string := "    <div class='card'>".

(** The four lines of one tile. *)
Definition card_lines (path mtime size_kb : string) : list string :=
  [ card_open;
    "      <a href='" ++ path ++ "'><img src='" ++ path ++ "' alt='" ++ path
      ++ "'></a>";
    "      <div class='meta'>" ++ path ++ " &middot; " ++ mtime
      ++ " &middot; " ++ size_kb ++ " KB</div>";
    "    </div>" ].

Definition html_foot : list string := [ "  </div>"; "</body>"; "</html>" ].

Section IndexBuilder.
Variable E : env.

(** The body of [for fn in entries:]: the lines one entry adds. *)
Definition card (outdir fn : string) : M (list string) :=
  let path := html_escape fn in
  let full_path := os_path_join outdir fn in
  meta <- try_except
            (m <- os_path_getmtime full_path ;;
             s <- os_path_getsize full_path ;;
             ret (env_localtime E m, str (N.to_nat (s / 1024))))
            Exception
            (fun _ => ret (EmptyString, EmptyString)) ;;
  ret (card_lines path (fst meta) (snd meta)).

Fixpoint cards (outdir : string) (entries : list string) : M (list string) :=
  match entries with
  | [] => ret []
  | fn :: rest =>
      c <- card outdir fn ;;
      cs <- cards outdir rest ;;
      ret (c ++ cs)%list
  end.

(** [build_index_html], given the lines up to the opening of the grid
    ([head], a function of the escaped title) and the tiles the script puts
    in front of the entries' ([fixed]). *)
Definition build_index (head : string -> list string) (fixed : list string)
    (outdir title : string) : M (option string) :=
  entries <- sorted_entries outdir ;;
  let safe_title := html_escape title in
  tiles <- cards outdir entries ;;
  let html_lines := (head safe_title ++ fixed ++ tiles ++ html_foot)%list in
  let index_path := os_path_join outdir "index.html" in
  try_except
    (write_text E index_path (String.concat newline html_lines) ;;
     print2 "Built index:" index_path ;;
     ret (Some index_path))
    Exception
    (fun e => print2 "Failed to write index.html:" (e_msg e) ;; ret None).

(** [if idx and scp_config: _scp_upload(idx, **scp_config)] *)
Definition publish_index (idx : option string) (cfg : option scp_config)
  : M unit :=
  if truthy idx && configured cfg then
    match idx with
    | Some p => _ <- call_scp_upload E p cfg ;; ret tt
    | None => ret tt
    end
  else ret tt.

(** [idx = build_index_html(outdir, title=...)] followed by
    [if idx and scp_config: _scp_upload(idx, **scp_config)], as
    [single_capture] and the [finally:] block of [main] have it. *)
Definition build_and_publish (build : string -> string -> M (option string))
    (outdir title : string) (cfg : option scp_config) : M unit :=
  idx <- build outdir title ;;
  publish_index idx cfg.

End IndexBuilder.

(* ================================================================= *)
(** * Annotator: the drawing both scripts share *)

Section Annotator.
Variable E : env.

Definition lift {A : Type} (o : answer A) : M A :=
  match o with
  | Ok a => ret a
  | Fails msg => raise (error Exception msg)
  end.

Definition check (o : option string) : M unit :=
  match o with
  | Some msg => raise (error Exception msg)
  | None => ret tt
  end.

(** [Image.open(p).convert('RGB')], then [img.size] *)
Definition image_open (p : string) : M (Z * Z) :=
  _ <- stat p ;; lift (pil_open E p).

(** [ImageFont.truetype(p, size)] inside [try: ... except Exception: font = None] *)
Definition try_truetype (p : string) (size : Z) : M (option font) :=
  try_except
    (check (pil_truetype E p size) ;; ret (Some (TrueType p size)))
    Exception
    (fun _ => ret None).

Definition common_font : string :=
  "/usr/share/fonts/truetype/dejavu/DejaVuSans-Bold.ttf".

(** The font: the caller's, else DejaVu Sans Bold, else the built-in one. *)
Definition choose_font (font_path : option string) (font_size : Z) : M font :=
  font <- (if truthy font_path then
             match font_path with
             | Some p => try_truetype p font_size
             | None => ret None
             end
           else ret None) ;;
  font <- (match font with
           | None => try_truetype common_font font_size
           | Some f => ret (Some f)
           end) ;;
  match font with
  | None => check (pil_load_default E) ;; ret DefaultFont
  | Some f => ret f
  end.

(** [img.save(p, quality=85)].  Pillow opens the file for writing, which
    truncates it, and then encodes into it.  When the encoder fails, a file
    that was there before is left with whatever was written (a new time and
    size), and a file made by the call is removed again. *)
Definition image_save (p : string) (ops : list draw_op) : M unit :=
  fun w =>
    match can_create w p with
    | Raise e => (Raise e, w)
    | Return _ =>
        let st := (env_mtime E (w_tick w), env_size E (w_tick w)) in
        match pil_save E p with
        | None =>
            (Return tt,
             tick (log (SaveImage p ops)
                    (set_files (put_file p st (w_files w)) w)))
        | Some msg =>
            (Raise (error Exception msg),
             match find_file w p with
             | Some _ => tick (set_files (put_file p st (w_files w)) w)
             | None => tick w
             end)
        end
    end.

(** The body of the [try:] of [_annotate_image_with_timestamp]. *)
Definition annotate_draw (image_path text : string) (font_path : option string)
  : M bool :=
  size <- image_open image_path ;;
  let width := fst size in
  let height := snd size in
  let font_size := Z.max 14 (width / 40) in
  font <- choose_font font_path font_size ;;
  text_size <- try_except
                 (bb <- lift (pil_textbbox E text font) ;;
                  let '(x0, y0, x1, y1) := bb in
                  ret (x1 - x0, y1 - y0)%Z)
                 Exception
                 (fun _ => lift (pil_textsize E text font)) ;;
  let text_w := fst text_size in
  let text_h := snd text_size in
  let margin := Z.max 8 (width / 200) in
  let x := (width - text_w - margin)%Z in
  let y := (height - text_h - margin)%Z in
  let rect_pad := Z.max 4 (margin / 2) in
  let rect := Rectangle (x - rect_pad) (y - rect_pad)
                        (x + text_w + rect_pad) (y + text_h + rect_pad) in
  check (pil_draw E rect) ;;
  check (pil_draw E (Text x y text font)) ;;
  image_save image_path [rect; Text x y text font] ;;
  ret true.

(** [try: <drawing>  except Exception as e: print(...); return False] *)
Definition annotate_guarded (image_path text : string)
    (font_path : option string) : M bool :=
  try_except
    (annotate_draw image_path text font_path)
    Exception
    (fun e => print2 "Failed to annotate image:" (e_msg e) ;; ret false).

End Annotator.

(* ================================================================= *)
(** * capture_pi.py *)

Module CapturePi.

(** [ts = datetime.now().strftime('%Y%m%d_%H%M%S_%f')[:-3]]: the slice turns
    the microseconds into milliseconds. *)
Definition timestamped_filename
    (outdir prefix ext : string) (now : datetime) : string :=
  let ts := drop_last 3 (strftime_compact_f now) in
  os_path_join outdir (prefix ++ "_" ++ ts ++ "." ++ ext).

Section WithEnv.
Variable E : env.

Definition single_capture (outdir : string) : M unit :=
  ensure_outdir outdir ;;
  d <- now E ;;
  let fname := timestamped_filename outdir "image" "jpg" d in
  capture_file E fname ;;
  print2 "Saved:" fname.

(** One turn of the [while] loop of [timelapse_capture]. *)
Definition timelapse_step (outdir : string) (interval : pyfloat) (i : nat)
  : M unit :=
  d <- now E ;;
  let fname := timestamped_filename outdir ("img" ++ fmt_d 4 i) "jpg" d in
  capture_file E fname ;;
  print ("[" ++ str (i + 1) ++ "] Saved: " ++ fname) ;;
  sleep E interval.

Fixpoint timelapse_loop (fuel : nat) (outdir : string) (interval : pyfloat)
    (count : option Z) (i : nat) (w : world)
  : option (outcome unit * world) :=
  let continue :=
    match count with
    | None => true
    | Some n => (Z.of_nat i <? n)%Z
    end in
  if continue then
    match fuel with
    | O => None
    | S fuel' =>
        match timelapse_step outdir interval i w with
        | (Return _, w') =>
            timelapse_loop fuel' outdir interval count (S i) w'
        | (Raise e, w') => Some (Raise e, w')
        end
    end
  else Some (Return tt, w).

Definition timelapse_capture (fuel : nat) (outdir : string)
    (interval : pyfloat) (count : option Z) (w : world)
  : option (outcome unit * world) :=
  match ensure_outdir outdir w with
  | (Raise e, w') => Some (Raise e, w')
  | (Return _, w') =>
      match timelapse_loop fuel outdir interval count 0 w' with
      | None => None
      | Some (Raise e, w'') =>
          if subclass (e_class e) KeyboardInterrupt then
            Some (print "Timelapse interrupted by user." w'')
          else Some (Raise e, w'')
      | Some (Return _, w'') => Some (Return tt, w'')
      end
  end.

End WithEnv.

End CapturePi.

(* ================================================================= *)
(** * capture_pi4.py *)

Module CapturePi4.

(** [ts = datetime.now().strftime('%Y%m%d_%H%M%S')[:-3]]: the format has no
    [_%f] any more, the slice is still there. *)
Definition timestamped_filename
    (outdir prefix ext : string) (now : datetime) : string :=
  let ts := drop_last 3 (strftime_compact now) in
  os_path_join outdir (prefix ++ "_" ++ ts ++ "." ++ ext).

(** [html_lines] as first assigned. *)
Definition html_head (safe_title : string) : list string :=
  [ "<!doctype html>";
    "<html>";
    "<head>";
    "  <meta charset='utf-8'>";
    "  <title>" ++ safe_title ++ "</title>";
    "  <meta name='viewport' content='width=device-width,initial-scale=1'>";
    "  <style>";
    "    body { font-family: Arial, sans-serif; margin: 0; padding: 1rem; }";
    "    .grid { display: grid; grid-template-columns: repeat(auto-fill,minmax(200px,1fr)); grid-gap: 10px; }";
    "    .card { border: 1px solid #ddd; padding: 6px; background: #fff; }";
    "    img { max-width: 100%; height: auto; display: block; }";
    "    .meta { font-size: 0.85rem; color: #555; margin-top: 6px; }";
    "  </style>";
    "</head>";
    "<body>";
    "  <h1>" ++ safe_title ++ "</h1>";
    "  <div class='grid'>" ].

Section WithEnv.
Variable E : env.

Definition build_index_html (outdir title : string) : M (option string) :=
  build_index E html_head [] outdir title.

Definition _annotate_image_with_timestamp
    (image_path : string) (text font_path : option string) : M bool :=
  if negb (PIL_AVAILABLE E) then
    print "Pillow (PIL) not available; skipping image annotation." ;;
    ret false
  else
    text <- (match text with
             | None => d <- now E ;; ret (strftime_human d)
             | Some t => ret t
             end) ;;
    annotate_guarded E image_path text font_path.

Definition single_capture (outdir : string) (cfg : option scp_config)
    (build_index : bool) (index_title : string) : M unit :=
  ensure_outdir outdir ;;
  d <- now E ;;
  let fname := timestamped_filename outdir "image" "jpg" d in
  capture_file E fname ;;
  d <- now E ;;
  let ts_text := strftime_human d in
  annotated <- _annotate_image_with_timestamp fname (Some ts_text) None ;;
  (if annotated then print2 "Annotated with timestamp:" ts_text else ret tt) ;;
  print2 "Saved:" fname ;;
  (if configured cfg then _ <- call_scp_upload E fname cfg ;; ret tt
   else ret tt) ;;
  if build_index then
    build_and_publish E build_index_html outdir index_title cfg
  else ret tt.

(** One turn of the [while] loop of [timelapse_capture]. *)
Definition timelapse_step (outdir : string) (interval : pyfloat)
    (build_index : bool) (index_title : string) (i : nat) : M unit :=
  d <- now E ;;
  let fname := timestamped_filename outdir ("img" ++ fmt_d 4 i) "jpg" d in
  capture_file E fname ;;
  d <- now E ;;
  let ts_text := strftime_human d in
  annotated <- _annotate_image_with_timestamp fname (Some ts_text) None ;;
  (if annotated then
     print ("[" ++ str (i + 1) ++ "] Annotated with timestamp: " ++ ts_text)
   else ret tt) ;;
  print ("[" ++ str (i + 1) ++ "] Saved: " ++ fname) ;;
  (if build_index then _ <- build_index_html outdir index_title ;; ret tt
   else ret tt) ;;
  sleep E interval.

(** [while count is None or i < count: <step>; i += 1], cut off after [fuel]
    turns: [None] when the loop is still running then. *)
Fixpoint timelapse_loop (fuel : nat) (outdir : string) (interval : pyfloat)
    (count : option Z) (build_index : bool) (index_title : string) (i : nat)
    (w : world) : option (outcome unit * world) :=
  let continue :=
    match count with
    | None => true
    | Some n => (Z.of_nat i <? n)%Z
    end in
  if continue then
    match fuel with
    | O => None
    | S fuel' =>
        match timelapse_step outdir interval build_index index_title i w with
        | (Return _, w') =>
            timelapse_loop fuel' outdir interval count build_index index_title
                           (S i) w'
        | (Raise e, w') => Some (Raise e, w')
        end
    end
  else Some (Return tt, w).

Definition timelapse_capture (fuel : nat) (outdir : string)
    (interval : pyfloat) (count : option Z) (cfg : option scp_config)
    (build_index : bool) (index_title : string) (w : world)
  : option (outcome unit * world) :=
  match ensure_outdir outdir w with
  | (Raise e, w') => Some (Raise e, w')
  | (Return _, w') =>
      match timelapse_loop fuel outdir interval count build_index index_title
                           0 w' with
      | None => None
      | Some (Raise e, w'') =>
          if subclass (e_class e) KeyboardInterrupt then
            Some (print "Timelapse interrupted by user." w'')
          else Some (Raise e, w'')
      | Some (Return _, w'') => Some (Return tt, w'')
      end
  end.

(** The [finally:] block of [main]. *)
Definition finalizing (outdir : string) (cfg : option scp_config) : M unit :=
  build_and_publish E build_index_html outdir
                    "Owl Box Timelapse Image Index" cfg.

End WithEnv.
End CapturePi4.

(* ================================================================= *)
(** * cap_pi6.py

    The file as committed writes [args.rotate] where a parameter name and
    where a positional argument after keyword arguments would stand, which
    Python does not accept.  The functions are embedded from the statements
    of their bodies; [args] is what it is everywhere else in the file, a
    local variable of [main]. *)

Module CapPi6.

(** [ts = datetime.now().strftime('%Y%m%d_%H%M%S')] *)
Definition timestamped_filename
    (outdir prefix ext : string) (now : datetime) : string :=
  let ts := strftime_compact now in
  os_path_join outdir (prefix ++ "_" ++ ts ++ "." ++ ext).

(** [html_lines] as first assigned: capture_pi4's, with a favicon link. *)
Definition html_head (safe_title : string) : list string :=
  [ "<!doctype html>";
    "<html>";
    "<head>";
    "  <meta charset='utf-8'>";
    "  <title>" ++ safe_title ++ "</title>";
    "  <meta name='viewport' content='width=device-width,initial-scale=1'>";
    "  <style>";
    "    body { font-family: Arial, sans-serif; margin: 0; padding: 1rem; }";
    "    .grid { display: grid; grid-template-columns: repeat(auto-fill,minmax(200px,1fr)); grid-gap: 10px; }";
    "    .card { border: 1px solid #ddd; padding: 6px; background: #fff; }";
    "    img { max-width: 100%; height: auto; display: block; }";
    "    .meta { font-size: 0.85rem; color: #555; margin-top: 6px; }";
    "  </style>";
    "  <!-- Standard Favicon link -->";
    "  <link rel='icon' href='favicon.ico' type='image/x-icon'>";
    "</head>";
    "<body>";
    "  <h1>" ++ safe_title ++ "</h1>";
    "  <div class='grid'>" ].

(** The tile added in front of the entries': the thumbnail, linked to the
    time-lapse video. *)
Definition timelapse_card : list string :=
  [ card_open;
    "      <a href='timelapse.mp4'><img src='thumbnail.jpg' alt='timelapse.mp4'></a>";
    "      <div class='meta'>Time Lapse video.</div>";
    "    </div>" ].

Section WithEnv.
Variable E : env.

Definition build_index_html (outdir title : string) : M (option string) :=
  build_index E html_head timelapse_card outdir title.

(** Reading [args.debug] outside [main]: [args] is a local of [main], the
    module has no global of that name. *)
Definition args_debug : M bool :=
  raise (error NameError "name 'args' is not defined").

Definition _annotate_image_with_timestamp
    (image_path : string) (text font_path : option string) : M bool :=
  print "Starting Annotate and manipulate subroutine" ;;
  if negb (PIL_AVAILABLE E) then
    print "Pillow (PIL) not available; skipping image annotation." ;;
    ret false
  else
    text <- (match text with
             | None =>
                 d <- now E ;;
                 debug <- args_debug ;;
                 (if debug then print "inside annotation - txt = none"
                  else ret tt) ;;
                 ret (strftime_human d)
             | Some t => ret t
             end) ;;
    annotate_guarded E image_path text font_path.

(** One turn of the [while] loop of [timelapse_capture]. *)
Definition timelapse_step (outdir : string) (interval : pyfloat) (i : nat)
  : M unit :=
  d <- now E ;;
  let fname := timestamped_filename outdir ("img" ++ fmt_d 4 i) "jpg" d in
  capture_file E fname ;;
  d <- now E ;;
  let ts_text := strftime_human d in
  annotated <- _annotate_image_with_timestamp fname (Some ts_text) None ;;
  (if annotated then
     print ("[" ++ str (i + 1) ++ "] Annotated with timestamp: " ++ ts_text)
   else ret tt) ;;
  print ("[" ++ str (i + 1) ++ "] Saved: " ++ fname) ;;
  sleep E interval.

Fixpoint timelapse_loop (fuel : nat) (outdir : string) (interval : pyfloat)
    (count : option Z) (i : nat) (w : world)
  : option (outcome unit * world) :=
  let continue :=
    match count with
    | None => true
    | Some n => (Z.of_nat i <? n)%Z
    end in
  if continue then
    match fuel with
    | O => None
    | S fuel' =>
        match timelapse_step outdir interval i w with
        | (Return _, w') =>
            timelapse_loop fuel' outdir interval count (S i) w'
        | (Raise e, w') => Some (Raise e, w')
        end
    end
  else Some (Return tt, w).

Definition timelapse_capture (fuel : nat) (outdir : string)
    (interval : pyfloat) (count : option Z) (w : world)
  : option (outcome unit * world) :=
  match ensure_outdir outdir w with
  | (Raise e, w') => Some (Raise e, w')
  | (Return _, w') =>
      match timelapse_loop fuel outdir interval count 0 w' with
      | None => None
      | Some (Raise e, w'') =>
          if subclass (e_class e) KeyboardInterrupt then
            Some (print "Timelapse interrupted by user." w'')
          else Some (Raise e, w'')
      | Some (Return _, w'') => Some (Return tt, w'')
      end
  end.

(** [for fn in entries: fn = args.outdir + '/' + fn; _scp_upload(fn, ...)].
    [fn] is what the name [fn] is bound to, [None] while it is unbound; the
    loop returns the binding it leaves behind. *)
Fixpoint republish (outdir : string) (cfg : option scp_config)
    (entries : list string) (fn : option string) : M (option string) :=
  match entries with
  | [] => ret fn
  | entry :: rest =>
      let fn := outdir ++ "/" ++ entry in
      _ <- call_scp_upload E fn cfg ;;
      republish outdir cfg rest (Some fn)
  end.

(** The [finally:] block of [main]. *)
Definition finalizing (outdir : string) (cfg : option scp_config) : M unit :=
  build_and_publish E build_index_html outdir
                    "Owl Box Timelapse Image Index" cfg ;;
  entries <- sorted_entries outdir ;;
  fn <- republish outdir cfg entries None ;;
  match fn with
  | None =>
      raise (error UnboundLocalError
               "local variable 'fn' referenced before assignment")
  | Some fn =>
      shutil_copy2 E fn "thumbnail.jpg" ;;
      _ <- call_scp_upload E "thumbnail.jpg" cfg ;;
      ret tt
  end.

(** [try: <capturing>  finally: <finalizing>], for any capture phase. *)
Definition session (capturing : M unit) (outdir : string)
    (cfg : option scp_config) : M unit :=
  try_finally capturing (finalizing outdir cfg).

(** Reading [output_path] in [image_rotate]: the name is bound nowhere in
    the file. *)
Definition output_path : M string :=
  raise (error NameError "name 'output_path' is not defined").

(** Reading [args.rotate] outside [main], as [args_debug]. *)
Definition args_rotate : M Z :=
  raise (error NameError "name 'args' is not defined").

(** [image_rotate].  Pillow's part beyond what [env] answers for is given
    by two more answers: [opens p], the failure of [Image.open(p)] for a
    file that is there, and [transposes p degrees], the failure of
    [img.transpose(...)], each [None] for success.  Without Pillow the name
    [Image] is unbound.  The rotation itself is not part of the trace; the
    file is saved with nothing drawn on it. *)
Definition image_rotate (opens : string -> option string)
    (transposes : string -> Z -> option string)
    (input_path : string) (degrees : Z) : M unit :=
  try_except
    (try_except
       ((if PIL_AVAILABLE E then ret tt
         else raise (error NameError "name 'Image' is not defined")) ;;
        _ <- stat input_path ;;
        check (opens input_path) ;;
        (if (degrees =? 90)%Z || (degrees =? 180)%Z || (degrees =? 270)%Z
         then check (transposes input_path degrees)
         else raise (error ValueError
                       "Invalid rotation amount. Use '90', '180', or '270'")) ;;
        image_save E input_path [] ;;
        p <- output_path ;;
        print ("Image rotated using transpose and saved to " ++ p))
       FileNotFoundError
       (fun _ => print ("Error: " ++ input_path ++
                        " not found. Please provide a valid image path.")))
    Exception
    (fun e => print ("An error occurred: " ++ e_msg e)).

Definition single_capture (opens : string -> option string)
    (transposes : string -> Z -> option string)
    (outdir : string) (cfg : option scp_config)
    (build_index : bool) (index_title : string) : M unit :=
  ensure_outdir outdir ;;
  d <- now E ;;
  let fname := timestamped_filename outdir "image" "jpg" d in
  capture_file E fname ;;
  d <- now E ;;
  let ts_text := strftime_human d in
  debug <- args_debug ;;
  (if debug then
     rotate <- args_rotate ;;
     print2 "Args.rotate value is: " (str_Z rotate)
   else ret tt) ;;
  rotate <- args_rotate ;;
  image_rotate opens transposes fname rotate ;;
  annotated <- _annotate_image_with_timestamp fname (Some ts_text) None ;;
  (if annotated then print2 "Annotated with timestamp:" ts_text else ret tt) ;;
  print2 "Saved:" fname ;;
  (if configured cfg then _ <- call_scp_upload E fname cfg ;; ret tt
   else ret tt) ;;
  if build_index then
    build_and_publish E build_index_html outdir index_title cfg
  else ret tt.

End WithEnv.
End CapPi6.

(** The exit status of the interpreter: zero unless an exception reaches the
    top level. *)
Definition exit_code {A : Type} (r : outcome A) : Z :=
  match r with
  | Return _ => 0
  | Raise e =>
      match e_class e with
      | KeyboardInterrupt => 130
      | _ => 1
      end
  end.

(* ================================================================= *)
(** * Observations on a trace *)

(** A run of the [scp] program: a file-transfer attempt. *)
Definition is_scp (ev : event) : bool :=
  match ev with
  | Run (prog :: _) => prog =? "scp"
  | _ => false
  end.

(** The local path of a transfer: the last but one word of the command. *)
Definition scp_source (ev : event) : option string :=
  match ev with
  | Run cmd =>
      match List.rev cmd with
      | _ :: src :: _ => if is_scp ev then Some src else None
      | _ => None
      end
  | _ => None
  end.

(** The two stores of the world that outlive the process. *)
Definition same_fs (w w' : world) : Prop :=
  w_dirs w' = w_dirs w /\ w_files w' = w_files w.

(** A computation that only looks at the world. *)
Definition reads {A : Type} (c : M A) : Prop :=
  forall w, snd (c w) = w.

(** A computation whose result depends on the directories and files only. *)
Definition fs_only {A : Type} (c : M A) : Prop :=
  forall w w', same_fs w w' -> fst (c w') = fst (c w).

(* ================================================================= *)
(** * What the index page is expected to show *)

(** What [os.stat] gives for the entry [fn] of [outdir]. *)
Definition stat_of (w : world) (outdir fn : string) : option (Z * N) :=
  match find_file w (os_path_join outdir fn) with
  | Some f => f_stat f
  | None => None
  end.

(** The sort key of an entry: its modification time. *)
Definition mtime_key (w : world) (outdir fn : string) : Z :=
  match stat_of w outdir fn with
  | Some (m, _) => m
  | None => 0
  end.

(** Newest first. *)
Definition newer_or_same (w : world) (outdir : string) (a b : string) : Prop :=
  (mtime_key w outdir b <= mtime_key w outdir a)%Z.

(** The entries of a list that were last modified at [t], in list order. *)
Definition modified_at (w : world) (outdir : string) (t : Z)
    (l : list string) : list string :=
  filter (fun fn => (mtime_key w outdir fn =? t)%Z) l.

(** The tile of an entry: the media inline, then the name, the modification
    time and the size in KB, rounded down. *)
Definition tile (E : env) (w : world) (outdir fn : string) : list string :=
  match stat_of w outdir fn with
  | Some (m, s) =>
      card_lines (html_escape fn) (env_localtime E m)
                 (str (N.to_nat (s / 1024)))
  | None => card_lines (html_escape fn) EmptyString EmptyString
  end.

(** The tiles of a page: the lines that open a card. *)
Definition count_cards (lines : list string) : nat :=
  List.length (filter (String.eqb card_open) lines).

(** The page for a list of entries. *)
Definition page_lines (E : env) (w : world) (head : string -> list string)
    (fixed : list string) (outdir title : string) (entries : list string)
  : list string :=
  (head (html_escape title) ++ fixed
   ++ flat_map (tile E w outdir) entries ++ html_foot)%list.

(** The world after [content] was written to the file at [p]. *)
Definition written (E : env) (p content : string) (w : world) : world :=
  tick (log (WriteText p content)
         (set_files
            (put_file p (env_mtime E (w_tick w),
                         N.of_nat (String.length content)) (w_files w)) w)).

(** The order of the decorated list after the sort: largest key first. *)
Definition desc (p q : Z * string) : Prop := (fst q <= fst p)%Z.

(** [entries] with the sort key in front of each. *)
Definition decorate (w : world) (outdir : string) (entries : list string)
  : list (Z * string) :=
  map (fun fn => (mtime_key w outdir fn, fn)) entries.

Definition has_stat (w : world) (outdir fn : string) : bool :=
  match stat_of w outdir fn with
  | Some _ => true
  | None => false
  end.

(* ================================================================= *)
(** * What a capture series leaves behind *)

(** The paths handed to the camera, oldest first. *)
Fixpoint captures (tr : list event) : list string :=
  match tr with
  | [] => []
  | Capture p :: tr' => (captures tr' ++ [p])%list
  | _ :: tr' => captures tr'
  end.

(** Every entry on disk can be followed by [os.stat]. *)
Definition healthy (w : world) : bool :=
  forallb (fun f => match f_stat f with Some _ => true | None => false end)
          (w_files w).

Definition has_file (w : world) (p : string) : bool :=
  match find_file w p with
  | Some _ => true
  | None => false
  end.

(** From [w] to [w']: the same directories, files written but none removed
    or broken, and no capture. *)
Definition quiet_step (w w' : world) : Prop :=
  w_dirs w' = w_dirs w /\
  (healthy w = true -> healthy w' = true) /\
  (forall q, has_file w q = true -> has_file w' q = true) /\
  exists new, w_trace w' = (new ++ w_trace w)%list /\ captures new = [].

Definition quiet {A : Type} (c : M A) : Prop :=
  forall w, quiet_step w (snd (c w)).

(** The output directory is there, as a directory and not as a file, and
    can be listed and written to. *)
Definition usable (w : world) (outdir : string) : Prop :=
  outdir <> EmptyString /\
  file_at w outdir = false /\
  exists x, find_dir w outdir = Some x /\
            d_readable x = true /\ d_writable x = true.

(** A pause [time.sleep] takes: its length is not negative and, added to
    any reading of the monotonic clock, fits 64 bits in nanoseconds. *)
Definition sleepable (E : env) (interval : pyfloat) : Prop :=
  (0 <= fst interval)%Z /\
  (sleep_ns interval < 2 ^ 63)%Z /\
  forall k, (env_monotonic E k + sleep_ns interval < 2 ^ 63)%Z.

(** What a failing program wrote to its standard error can be decoded as
    UTF-8. *)
Definition decodes (E : env) : Prop :=
  forall k cmd msg err,
    env_run E k cmd = Some (msg, err) -> utf8_valid err = true.

Fixpoint is_digits (s : string) : bool :=
  match s with
  | EmptyString => true
  | String c s' =>
      Nat.leb 48 (nat_of_ascii c) && Nat.leb (nat_of_ascii c) 57
      && is_digits s'
  end.

(* ================================================================= *)
(** * What Finalizing leaves behind *)

(** The copies made, as (source, destination), most recent first. *)
Fixpoint copied (tr : list event) : list (string * string) :=
  match tr with
  | [] => []
  | Copy src dst :: tr' => (src, dst) :: copied tr'
  | _ :: tr' => copied tr'
  end.

(** The local paths handed to [scp], most recent first. *)
Fixpoint uploaded (tr : list event) : list string :=
  match tr with
  | [] => []
  | ev :: tr' =>
      match scp_source ev with
      | Some src => src :: uploaded tr'
      | None => uploaded tr'
      end
  end.

(** From [w] to [w']: nothing written on disk and nothing copied. *)
Definition mirror_step (w w' : world) : Prop :=
  same_fs w w' /\ copied (w_trace w') = copied (w_trace w).

Definition mirrors {A : Type} (c : M A) : Prop :=
  forall w, mirror_step w (snd (c w)).

(* ================================================================= *)
(** * Worlds and an outside to run the scripts in *)

(** An outside where everything works: a clock that advances by a second
    per reading, every program installed and exiting with status 0, Pillow
    present, 640x480 frames. *)
Definition env_ok : env :=
  mkEnv (fun n => mkDatetime 2024 1 1 12 34 (Nat.modulo n 60) 0)
        (fun n => 1000 + Z.of_nat n)%Z
        (fun _ => 2048%N)
        str_Z
        (fun _ => true)
        (fun _ _ => None)
        (fun _ => false)
        (fun n => Z.min (Z.of_nat n * 10 ^ 9) (2 ^ 62))%Z
        (fun _ _ _ => None)
        true
        (fun _ => Ok (640, 480)%Z)
        (fun _ _ => None)
        None
        (fun _ _ => Ok (0, 0, 100, 20)%Z)
        (fun _ _ => Ok (100, 20)%Z)
        (fun _ => None)
        (fun _ => None).

(** The same outside, with a remote host that refuses every [ssh]. *)
Definition env_no_remote : env :=
  mkEnv (env_now env_ok) (env_mtime env_ok) (env_size env_ok)
        (env_localtime env_ok) (env_which env_ok)
        (fun _ cmd =>
           match cmd with
           | prog :: _ =>
               if prog =? "ssh"
               then Some ("Command returned non-zero exit status 255.",
                          "ssh: connect to host example.org: Connection refused")
               else None
           | [] => None
           end)
        (env_interrupt env_ok) (env_monotonic env_ok) (env_copy env_ok)
        (PIL_AVAILABLE env_ok)
        (pil_open env_ok) (pil_truetype env_ok) (pil_load_default env_ok)
        (pil_textbbox env_ok) (pil_textsize env_ok) (pil_draw env_ok)
        (pil_save env_ok).

Definition remote : scp_config :=
  mkScp "pi" "example.org" "/srv/owl/" None 22.

(** Nothing on disk. *)
Definition w_nothing : world := mkWorld [] [] [] 0.

(** An output directory with no entry. *)
Definition w_empty : world :=
  mkWorld [mkDir "./images" true true] [] [] 0.

(** An output directory that exists and cannot be written to. *)
Definition w_readonly : world :=
  mkWorld [mkDir "./images" true false]
          [mkFile "./images/a.jpg" (Some (100%Z, 4096%N))] [] 0.

(** An output directory that cannot be listed. *)
Definition w_unreadable : world :=
  mkWorld [mkDir "./images" false true] [] [] 0.

(** A regular file standing where the output directory should be. *)
Definition w_file_in_place : world :=
  mkWorld [] [mkFile "./images" (Some (50%Z, 10%N))] [] 0.

(** Two media files: [a.jpg], and [b.jpg] captured after it. *)
Definition w_two : world :=
  mkWorld [mkDir "./images" true true]
          [mkFile "./images/a.jpg" (Some (100%Z, 4096%N));
           mkFile "./images/b.jpg" (Some (200%Z, 1500%N))]
          [] 0.

(** Three media files, two of them of the same age, and one text file. *)
Definition w_three : world :=
  mkWorld [mkDir "./images" true true]
          [mkFile "./images/a.jpg" (Some (100%Z, 4096%N));
           mkFile "./images/b.jpg" (Some (200%Z, 1500%N));
           mkFile "./images/notes.txt" (Some (300%Z, 10%N));
           mkFile "./images/c.png" (Some (100%Z, 0%N))]
          [] 0.

(** A computation that raises nothing but subclasses of [Exception]. *)
Definition tame {A : Type} (c : M A) : Prop :=
  forall w e, fst (c w) = Raise e -> subclass (e_class e) Exception = true.

(** The output directory is there, can be listed and written to, and every
    entry on disk has a [stat]. *)
Definition ready (w : world) (outdir : string) : Prop :=
  outdir <> EmptyString /\
  healthy w = true /\
  exists x, find_dir w outdir = Some x /\
            d_readable x = true /\ d_writable x = true.

(** A computation that returns in every world where [P] holds. *)
Definition returns_on {A : Type} (P : world -> Prop) (c : M A) : Prop :=
  forall w, P w -> exists a, fst (c w) = Return a.

(** The path of a frame: [timestamped_filename] with the extension [jpg],
    the stamp being some function of the clock reading. *)
Definition frame_path (outdir : string) (stamp : datetime -> string)
    (prefix : string) (d : datetime) : string :=
  os_path_join outdir (prefix ++ "_" ++ stamp d ++ ".jpg").

(** The names of a series that starts with frame [first], given the clock
    readings of the frames: [name] maps the prefix and the reading to the
    path. *)
Definition series (name : string -> datetime -> string) (first : nat)
    (stamps : list datetime) : list string :=
  map (fun p => name ("img" ++ fmt_d 4 (fst p)) (snd p))
      (combine (seq first (List.length stamps)) stamps).

(** What a run of [timelapse_capture] captured, when it returned. *)
Definition final_captures (r : option (outcome unit * world))
  : option (list string) :=
  match r with
  | Some (Return _, w) => Some (captures (w_trace w))
  | _ => None
  end.

(** The interval of the scenario: five seconds. *)
Definition five_seconds : pyfloat := (5%Z, 1%positive).

(* ================================================================= *)
(** * Further observations *)

(** The ten minutes a clock reading falls into. *)
Definition ten_minutes (d : datetime) : nat * nat * nat * nat * nat :=
  (year d, month d, day d, hour d, minute d / 10).

(** [c in s] *)
Fixpoint has_char (c : ascii) (s : string) : bool :=
  match s with
  | EmptyString => false
  | String c' s' => Ascii.eqb c c' || has_char c s'
  end.

(** The commands handed to [subprocess.run], most recent first. *)
Fixpoint runs (tr : list event) : list (list string) :=
  match tr with
  | [] => []
  | Run cmd :: tr' => cmd :: runs tr'
  | _ :: tr' => runs tr'
  end.

(** The command [_ensure_remote_dir] builds. *)
Definition ssh_target (c : scp_config) : string :=
  remote_user c ++ "@" ++ remote_host c.

Definition ssh_command (c : scp_config) : list string :=
  List.app (List.app ["ssh"; "-p"; str_Z (ssh_port c)] (key_args (ssh_key c)))
      [ssh_target c; "mkdir -p '" ++ remote_path c ++ "'"].

(** The command [_scp_upload] builds: the file goes into the remote
    directory under its base name. *)
Definition scp_target (local_path : string) (c : scp_config) : string :=
  remote_user c ++ "@" ++ remote_host c ++ ":" ++
  rstrip_slash (remote_path c) ++ "/" ++ basename local_path.

Definition scp_command (local_path : string) (c : scp_config) : list string :=
  List.app (List.app ["scp"; "-P"; str_Z (ssh_port c)] (key_args (ssh_key c)))
      [local_path; scp_target local_path c].

(** The two scripts that build an index page. *)
Inductive script : Type := Pi4 | Pi6.

Definition build_index_html_of (s : script) (E : env)
    (outdir title : string) : M (option string) :=
  match s with
  | Pi4 => CapturePi4.build_index_html E outdir title
  | Pi6 => CapPi6.build_index_html E outdir title
  end.

Definition annotate_of (s : script) (E : env) (image_path : string)
    (text font_path : option string) : M bool :=
  match s with
  | Pi4 => CapturePi4._annotate_image_with_timestamp E image_path text font_path
  | Pi6 => CapPi6._annotate_image_with_timestamp E image_path text font_path
  end.

(** The world after the image at [p] was saved with [ops] drawn on it. *)
Definition saved (E : env) (p : string) (ops : list draw_op) (w : world)
  : world :=
  tick (log (SaveImage p ops)
         (set_files
            (put_file p (env_mtime E (w_tick w), env_size E (w_tick w))
                      (w_files w)) w)).

(** The world after a save of [p] that failed once the file was open: the
    file is rewritten, with what the encoder got to write. *)
Definition spoiled (E : env) (p : string) (w : world) : world :=
  tick (set_files
          (put_file p (env_mtime E (w_tick w), env_size E (w_tick w))
                    (w_files w)) w).

(** Where a save of [p] that did not succeed leaves the world: as it was,
    or, for an image that was on disk, with the file rewritten. *)
Definition unsaved (E : env) (p : string) (w w' : world) : Prop :=
  w' = w \/ w' = tick w \/ (has_file w p = true /\ w' = spoiled E p w).

(** The label sits inside the frame: a box from [(x0, y0)] to [(x1, y1)]
    that ends at least four pixels before the right and the lower edge of a
    [width] by [height] image, with the text at [(x, y)] at least four
    pixels inside the box. *)
Definition label_inside (width height x0 y0 x1 y1 x y : Z) : Prop :=
  (x1 + 4 <= width /\ y1 + 4 <= height /\ x0 + 4 <= x /\ y0 + 4 <= y /\
   width - x1 = height - y1 /\ x - x0 = y - y0)%Z.

(** From [w] to [w']: the same directories, every file but the one at [p]
    as it was, and in between no program run, no picture taken, no file
    copied. *)
Definition only_rewrites (p : string) (w w' : world) : Prop :=
  w_dirs w' = w_dirs w /\
  (forall q, q <> p -> find_file w' q = find_file w q) /\
  exists new, w_trace w' = (new ++ w_trace w)%list /\
              runs new = [] /\ captures new = [] /\ copied new = [].

(** What a step keeps: it rewrites [p] at most, and an image that was on
    disk still is. *)
Definition keeps_image (p : string) (w w' : world) : Prop :=
  only_rewrites p w w' /\ (has_file w p = true -> has_file w' p = true).

(** From [w] to [w']: whatever happened, no program was run and no file
    copied. *)
Definition calm_step (w w' : world) : Prop :=
  exists new, w_trace w' = (new ++ w_trace w)%list /\
              runs new = [] /\ copied new = [].

Definition calm {A : Type} (c : M A) : Prop :=
  forall w, calm_step w (snd (c w)).

Definition timelapse_capture_of (s : script) (E : env) (fuel : nat)
    (outdir : string) (interval : pyfloat) (count : option Z)
    (cfg : option scp_config) (build_index : bool) (index_title : string)
  : world -> option (outcome unit * world) :=
  match s with
  | Pi4 => CapturePi4.timelapse_capture E fuel outdir interval count cfg
             build_index index_title
  | Pi6 => CapPi6.timelapse_capture E fuel outdir interval count
  end.

(** The stamp in the file names of a script. *)
Definition stamp_of (s : script) (d : datetime) : string :=
  match s with
  | Pi4 => drop_last 3 (strftime_compact d)
  | Pi6 => strftime_compact d
  end.

Definition timestamped_filename_of (s : script)
    (outdir prefix ext : string) (now : datetime) : string :=
  match s with
  | Pi4 => CapturePi4.timestamped_filename outdir prefix ext now
  | Pi6 => CapPi6.timestamped_filename outdir prefix ext now
  end.

(** A computation that is cut short by Ctrl-C in every world where [P]
    holds. *)
Definition interrupted_on {A : Type} (P : world -> Prop) (c : M A) : Prop :=
  forall w, P w ->
    exists w', c w = (Raise (error KeyboardInterrupt EmptyString), w').

(** The outside of [env_ok], with Ctrl-C pressed during every pause. *)
Definition env_ctrl_c : env :=
  mkEnv (env_now env_ok) (env_mtime env_ok) (env_size env_ok)
        (env_localtime env_ok) (env_which env_ok) (env_run env_ok)
        (fun _ => true) (env_monotonic env_ok) (env_copy env_ok)
        (PIL_AVAILABLE env_ok)
        (pil_open env_ok) (pil_truetype env_ok) (pil_load_default env_ok)
        (pil_textbbox env_ok) (pil_textsize env_ok) (pil_draw env_ok)
        (pil_save env_ok).

(* ================================================================= *)
(** * [main]: the remote target from the command line *)

(** The options of [main] that the remote target is made from, as
    [parse_args] returns them: [None] for an option that was not given. *)
Record args : Type := mkArgs {
  args_scp : bool;
  args_remote_host : option string;
  args_remote_user : option string;
  args_remote_path : option string;
  args_ssh_key : option string;
  args_ssh_port : Z
}.

Definition given (o : option string) : string :=
  match o with
  | Some s => s
  | None => EmptyString
  end.

(** [missing], as the three [if not args.<option>] fill it. *)
Definition missing (a : args) : list string :=
  List.app (if truthy (args_remote_host a) then [] else ["--remote-host"])
    (List.app (if truthy (args_remote_user a) then [] else ["--remote-user"])
              (if truthy (args_remote_path a) then [] else ["--remote-path"])).

(** [scp_config] after the validation in [main]; [inl msg] stands for
    [parser.error(msg)], which ends the process with status 2. *)
Definition scp_config_of (a : args) : string + option scp_config :=
  if args_scp a then
    match missing a with
    | [] =>
        inr (Some (mkScp (given (args_remote_user a))
                         (given (args_remote_host a))
                         (given (args_remote_path a))
                         (args_ssh_key a) (args_ssh_port a)))
    | _ =>
        inl ("SCP enabled but missing required options: "
             ++ String.concat ", " (missing a))
    end
  else inr None.

(* ================================================================= *)
(** * Facts about strings *)

Lemma append_assoc (a b c : string) : (a ++ b) ++ c = a ++ (b ++ c).
Proof. induction a as [|x a IH]; simpl; [reflexivity | now rewrite IH]. Qed.

Lemma append_nil_r (a : string) : a ++ EmptyString = a.
Proof. induction a as [|x a IH]; simpl; [reflexivity | now rewrite IH]. Qed.

Lemma length_append (a b : string) :
  String.length (a ++ b) = String.length a + String.length b.
Proof. induction a as [|x a IH]; simpl; [reflexivity | now rewrite IH]. Qed.

(** Two splits of one string at the same position are the same split. *)
Lemma append_inj_l (a b c d : string) :
  String.length a = String.length c -> a ++ b = c ++ d -> a = c /\ b = d.
Proof.
  revert c; induction a as [|x a IH]; intros [|y c] Hlen H;
    simpl in *; try discriminate.
  - now split.
  - injection H as -> H. injection Hlen as Hlen.
    destruct (IH c Hlen H) as [-> ->]. now split.
Qed.

Lemma append_inj_r (a b c d : string) :
  String.length b = String.length d -> a ++ b = c ++ d -> a = c /\ b = d.
Proof.
  intros Hlen H. apply append_inj_l; [|exact H].
  apply (f_equal String.length) in H. rewrite !length_append in H. lia.
Qed.

Lemma append_inv_head (a b c : string) : a ++ b = a ++ c -> b = c.
Proof. intros H. now apply append_inj_l in H. Qed.

(** [os.path.join] never touches its second argument. *)
Lemma os_path_join_suffix (a b : string) :
  exists pre, os_path_join a b = pre ++ b.
Proof.
  unfold os_path_join. destruct (startswith_slash b).
  - now exists EmptyString.
  - destruct ((a =? "") || endswith_slash a).
    + now exists a.
    + exists (a ++ "/"). now rewrite append_assoc.
Qed.

(** ** Decimal rendering *)

Lemma uint_of_string_zeros (k : nat) (s : string) :
  NilEmpty.uint_of_string (zeros k ++ s)
  = option_map (Nat.iter k D0) (NilEmpty.uint_of_string s).
Proof.
  induction k as [|k IH]; simpl.
  - now destruct (NilEmpty.uint_of_string s).
  - rewrite IH. now destruct (NilEmpty.uint_of_string s).
Qed.

Lemma of_uint_leading_zeros (k : nat) (d : uint) :
  Nat.of_uint (Nat.iter k D0 d) = Nat.of_uint d.
Proof.
  induction k as [|k IH]; simpl; [reflexivity|].
  unfold Nat.of_uint in *. simpl. exact IH.
Qed.

(** Round trip: a zero-padded decimal reads back as the number printed. *)
Lemma parse_fmt_d (w n : nat) : parse_decimal (fmt_d w n) = Some n.
Proof.
  unfold parse_decimal, fmt_d, zfill, str.
  rewrite uint_of_string_zeros, NilEmpty.usu. simpl.
  now rewrite of_uint_leading_zeros, Unsigned.of_to.
Qed.

Lemma fmt_d_inj (w n m : nat) : fmt_d w n = fmt_d w m -> n = m.
Proof.
  intros H. apply (f_equal parse_decimal) in H.
  rewrite !parse_fmt_d in H. now injection H.
Qed.

Lemma length_fmt_d_2 (n : nat) : n < 100 -> String.length (fmt_d 2 n) = 2.
Proof.
  intros H.
  assert (A : forallb (fun k => Nat.eqb (String.length (fmt_d 2 k)) 2)
                      (seq 0 100) = true) by (vm_compute; reflexivity).
  rewrite forallb_forall in A. apply Nat.eqb_eq, A, in_seq. lia.
Qed.

Lemma length_fmt_d_4 (n : nat) :
  n < 10 * 1000 -> String.length (fmt_d 4 n) = 4.
Proof.
  intros H.
  assert (A : forallb (fun k => Nat.eqb (String.length (fmt_d 4 k)) 4)
                      (seq 0 (10 * 1000)) = true) by (vm_compute; reflexivity).
  rewrite forallb_forall in A. apply Nat.eqb_eq, A, in_seq. lia.
Qed.

Lemma length_strftime_compact (d : datetime) :
  valid_datetime d -> String.length (strftime_compact d) = 15.
Proof.
  intros (Hy & Hm & Hd & HH & HM & HS & _). unfold strftime_compact.
  rewrite !length_append, length_fmt_d_4, !length_fmt_d_2 by lia.
  reflexivity.
Qed.

(** The compact stamp determines the second it was taken at. *)
Lemma strftime_compact_inj (d1 d2 : datetime) :
  valid_datetime d1 -> valid_datetime d2 ->
  strftime_compact d1 = strftime_compact d2 ->
  clock_second d1 = clock_second d2.
Proof.
  intros (Hy1 & Hm1 & Hd1 & HH1 & HM1 & HS1 & _)
         (Hy2 & Hm2 & Hd2 & HH2 & HM2 & HS2 & _) H.
  unfold strftime_compact in H.
  apply append_inj_l in H; [|rewrite !length_fmt_d_4 by lia; reflexivity].
  destruct H as [Ey H].
  apply append_inj_l in H; [|rewrite !length_fmt_d_2 by lia; reflexivity].
  destruct H as [Em H].
  apply append_inj_l in H; [|rewrite !length_fmt_d_2 by lia; reflexivity].
  destruct H as [Ed H].
  apply append_inv_head in H.
  apply append_inj_l in H; [|rewrite !length_fmt_d_2 by lia; reflexivity].
  destruct H as [EH H].
  apply append_inj_l in H; [|rewrite !length_fmt_d_2 by lia; reflexivity].
  destruct H as [EM ES].
  apply fmt_d_inj in Ey, Em, Ed, EH, EM, ES.
  unfold clock_second. congruence.
Qed.

(* ================================================================= *)
(** * Naming Service *)

Ltac solve_valid_datetime :=
  unfold valid_datetime;
  cbn [year month day hour minute second microsecond];
  repeat split; apply Nat.leb_le; vm_compute; reflexivity.

Ltac solve_other_second :=
  let H := fresh in
  intros H; apply (f_equal snd) in H; cbn in H; discriminate H.

(** cap_pi6.py: two names made at different seconds differ, whatever the
    directories and the prefixes. *)
Theorem timestamped_filename_pi6_unique
    (outdir1 outdir2 prefix1 prefix2 ext : string) (t1 t2 : datetime) :
  valid_datetime t1 -> valid_datetime t2 ->
  clock_second t1 <> clock_second t2 ->
  CapPi6.timestamped_filename outdir1 prefix1 ext t1
  <> CapPi6.timestamped_filename outdir2 prefix2 ext t2.
Proof.
  intros V1 V2 Hne Heq. apply Hne. unfold CapPi6.timestamped_filename in Heq.
  destruct (os_path_join_suffix outdir1
              (prefix1 ++ "_" ++ strftime_compact t1 ++ "." ++ ext)) as [p1 E1].
  destruct (os_path_join_suffix outdir2
              (prefix2 ++ "_" ++ strftime_compact t2 ++ "." ++ ext)) as [p2 E2].
  cbv zeta in Heq. rewrite E1, E2 in Heq.
  rewrite <- !(append_assoc _ "_"), <- !(append_assoc _ (_ ++ "_")) in Heq.
  apply append_inj_r in Heq.
  - destruct Heq as [_ Heq].
    apply append_inj_l in Heq;
      [|now rewrite !length_strftime_compact].
    now apply strftime_compact_inj.
  - rewrite !length_append, !length_strftime_compact by assumption.
    reflexivity.
Qed.

Lemma timestamped_filename_pi6_unique_witness :
  (CapPi6.timestamped_filename "./images" "image" "jpg"
     (mkDatetime 2024 1 1 12 34 56 0)
   =? CapPi6.timestamped_filename "./images" "image" "jpg"
        (mkDatetime 2024 1 1 12 34 57 0)) = false.
Proof.
  apply String.eqb_neq.
  apply timestamped_filename_pi6_unique;
    [solve_valid_datetime | solve_valid_datetime | solve_other_second].
Defined.

(** C1 (defect).  capture_pi4.py cuts the last three characters off a stamp
    that ends in the seconds: two button presses one second apart, at
    12:34:56 and 12:34:57, are given one and the same file name, so the
    second capture replaces the first. *)
Theorem timestamped_filename_pi4_collision :
  let t1 := mkDatetime 2024 1 1 12 34 56 0 in
  let t2 := mkDatetime 2024 1 1 12 34 57 0 in
  valid_datetime t1 /\ valid_datetime t2 /\
  clock_second t1 <> clock_second t2 /\
  CapturePi4.timestamped_filename "./images" "btn" "jpg" t1
    = "./images/btn_20240101_123.jpg" /\
  CapturePi4.timestamped_filename "./images" "btn" "jpg" t2
    = "./images/btn_20240101_123.jpg".
Proof.
  cbv zeta. split; [solve_valid_datetime|].
  split; [solve_valid_datetime|].
  split; [solve_other_second|].
  split; vm_compute; reflexivity.
Qed.

(* ================================================================= *)
(** * Remote Mirror *)

(** Running the monad's combinators on a given world. *)
Tactic Notation "msimpl" :=
  cbn [fst snd w_trace w_dirs w_files w_tick log tick set_files set_dirs
       print print2 emit ret raise bind try_except lift check
       e_class e_msg e_stderr error subclass exn_class_code Nat.eqb
       negb andb orb].
Tactic Notation "msimpl" "in" hyp(H) :=
  cbn [fst snd w_trace w_dirs w_files w_tick log tick set_files set_dirs
       print print2 emit ret raise bind try_except lift check
       e_class e_msg e_stderr error subclass exn_class_code Nat.eqb
       negb andb orb] in H.

Lemma same_fs_refl (w : world) : same_fs w w.
Proof. now split. Qed.

Lemma same_fs_trans (w1 w2 w3 : world) :
  same_fs w1 w2 -> same_fs w2 w3 -> same_fs w1 w3.
Proof. intros [A B] [C D]. split; congruence. Qed.

(** The directory-ensure step returns a boolean, leaves the local files
    alone and never runs [scp]. *)
Lemma ensure_remote_dir_spec (E : env) (c : scp_config) (w : world) :
  exists (b : bool) (w' : world) (new : list event),
    _ensure_remote_dir E c w = (Return b, w') /\
    w_trace w' = (new ++ w_trace w)%list /\
    existsb is_scp new = false /\
    same_fs w w'.
Proof.
  unfold _ensure_remote_dir.
  destruct (env_which E "ssh"); cbn [negb].
  - unfold try_except, bind, subprocess_run.
    destruct (env_run E (w_tick w) _) as [[msg err]|] eqn:R.
    + eexists false, _, [_; _]. cbn. repeat split.
    + eexists true, _, [_]. cbn. repeat split.
  - eexists false, _, [_]. cbn. repeat split.
Qed.

(** C2.  In every call of [_scp_upload]: when [_ensure_remote_dir] fails
    (returns [False]) the call returns [False] and runs no [scp]; and
    whenever the call does run [scp], [_ensure_remote_dir] had returned
    [True]. *)
Theorem scp_upload_only_after_remote_dir
    (E : env) (local_path : string) (c : scp_config) (w : world) :
  exists new : list event,
    w_trace (snd (_scp_upload E local_path c w)) = (new ++ w_trace w)%list /\
    (fst (_ensure_remote_dir E c w) = Return false ->
       fst (_scp_upload E local_path c w) = Return false /\
       existsb is_scp new = false) /\
    (existsb is_scp new = true ->
       fst (_ensure_remote_dir E c w) = Return true).
Proof.
  destruct (ensure_remote_dir_spec E c w) as (b & w1 & new1 & R & T & N & _).
  rewrite R. remember (_scp_upload E local_path c w) as r eqn:Hr.
  unfold _scp_upload in Hr. destruct (env_which E "scp"); cbn [negb] in Hr.
  - unfold bind at 1 in Hr. rewrite R in Hr. destruct b; cbn [negb] in Hr.
    + unfold try_except, bind, subprocess_run, decode_utf8 in Hr.
      destruct (env_run E (w_tick w1) _) as [[msg err]|];
        msimpl in Hr; subst r;
        [destruct (utf8_valid err)|];
        msimpl; rewrite T;
        [eexists (_ :: _ :: new1)%list | eexists (_ :: new1)%list
         | eexists (_ :: _ :: new1)%list];
        (split; [reflexivity|]); (split; [discriminate | reflexivity]).
    + subst r. msimpl. rewrite T.
      exists (Print "Skipping upload; could not ensure remote directory."
              :: new1)%list.
      split; [reflexivity|]. cbn [existsb is_scp orb]. rewrite N.
      split; [intros _; now split | discriminate].
  - subst r. msimpl.
    exists [Print "scp command not found; cannot upload file."].
    split; [reflexivity|].
    split; [intros _; now split | discriminate].
Qed.

(** A remote host that refuses [ssh]: the directory-ensure step fails, the
    upload returns [False], and [scp] is not run. *)
Lemma scp_upload_only_after_remote_dir_witness :
  fst (_ensure_remote_dir env_no_remote remote w_two) = Return false /\
  fst (_scp_upload env_no_remote "./images/a.jpg" remote w_two)
    = Return false /\
  uploaded (w_trace (snd (_scp_upload env_no_remote "./images/a.jpg" remote
                            w_two))) = [].
Proof.
  assert (F : fst (_ensure_remote_dir env_no_remote remote w_two)
              = Return false) by (vm_compute; reflexivity).
  destruct (scp_upload_only_after_remote_dir env_no_remote "./images/a.jpg"
              remote w_two) as (new & _ & H & _).
  split; [exact F|]. split; [exact (proj1 (H F))|].
  vm_compute; reflexivity.
Defined.

(* ================================================================= *)
(** * The stable sort *)

Lemma insert_desc_perm (x : Z * string) (l : list (Z * string)) :
  Permutation (insert_desc x l) (x :: l).
Proof.
  induction l as [|y l IH]; simpl; [reflexivity|].
  destruct (fst x <? fst y)%Z; [|reflexivity].
  rewrite IH. apply perm_swap.
Qed.

Lemma sort_desc_perm (l : list (Z * string)) : Permutation (sort_desc l) l.
Proof.
  induction l as [|x l IH]; simpl; [reflexivity|].
  rewrite insert_desc_perm. now constructor.
Qed.

Lemma insert_desc_sorted (x : Z * string) (l : list (Z * string)) :
  StronglySorted desc l -> StronglySorted desc (insert_desc x l).
Proof.
  induction l as [|y l IH]; intros S; simpl.
  - repeat constructor.
  - apply StronglySorted_inv in S. destruct S as [S F].
    destruct (fst x <? fst y)%Z eqn:C.
    + apply Z.ltb_lt in C. constructor; [now apply IH|].
      apply (Permutation_Forall (Permutation_sym (insert_desc_perm x l))).
      constructor; [unfold desc; lia | exact F].
    + apply Z.ltb_ge in C. constructor; [now constructor|].
      constructor; [exact C|].
      revert F. apply Forall_impl. unfold desc. intros z. lia.
Qed.

Lemma sort_desc_sorted (l : list (Z * string)) :
  StronglySorted desc (sort_desc l).
Proof.
  induction l as [|x l IH]; simpl; [constructor|].
  now apply insert_desc_sorted.
Qed.

(** Stability: the elements with a given key keep their order. *)
Lemma insert_desc_filter (t : Z) (x : Z * string) (l : list (Z * string)) :
  filter (fun p => (fst p =? t)%Z) (insert_desc x l)
  = filter (fun p => (fst p =? t)%Z) (x :: l).
Proof.
  induction l as [|y l IH]; [reflexivity|].
  cbn [insert_desc]. destruct (fst x <? fst y)%Z eqn:C; [|reflexivity].
  apply Z.ltb_lt in C. cbn [filter] in *. rewrite IH.
  destruct (fst x =? t)%Z eqn:X, (fst y =? t)%Z eqn:Y; try reflexivity.
  apply Z.eqb_eq in X, Y. lia.
Qed.

Lemma sort_desc_stable (t : Z) (l : list (Z * string)) :
  filter (fun p => (fst p =? t)%Z) (sort_desc l)
  = filter (fun p => (fst p =? t)%Z) l.
Proof.
  induction l as [|x l IH]; [reflexivity|].
  cbn [sort_desc]. rewrite insert_desc_filter. cbn [filter].
  now rewrite IH.
Qed.

(** The three facts, on a list of names sorted through its keys. *)
Lemma decorated_keys (w : world) (outdir : string) (l : list string) :
  Forall (fun p => fst p = mtime_key w outdir (snd p)) (decorate w outdir l).
Proof.
  unfold decorate. induction l; simpl; constructor; auto.
Qed.

Lemma sorted_keys (w : world) (outdir : string) (l : list string) :
  Forall (fun p => fst p = mtime_key w outdir (snd p))
         (sort_desc (decorate w outdir l)).
Proof.
  apply (Permutation_Forall (Permutation_sym (sort_desc_perm _))).
  apply decorated_keys.
Qed.

Lemma map_snd_decorate (w : world) (outdir : string) (l : list string) :
  map snd (decorate w outdir l) = l.
Proof.
  unfold decorate. rewrite map_map. simpl. apply map_id.
Qed.

Lemma sort_names_perm (w : world) (outdir : string) (l : list string) :
  Permutation (map snd (sort_desc (decorate w outdir l))) l.
Proof.
  rewrite <- (map_snd_decorate w outdir l) at 2.
  apply Permutation_map, sort_desc_perm.
Qed.

Lemma sort_names_sorted (w : world) (outdir : string) (l : list string) :
  StronglySorted (newer_or_same w outdir)
                 (map snd (sort_desc (decorate w outdir l))).
Proof.
  generalize (sort_desc_sorted (decorate w outdir l)), (sorted_keys w outdir l).
  induction (sort_desc (decorate w outdir l)) as [|p s IH]; intros S K.
  - constructor.
  - apply StronglySorted_inv in S. destruct S as [S F].
    apply Forall_cons_iff in K. destruct K as [Kp K].
    simpl. constructor; [now apply IH|].
    rewrite Forall_map. rewrite Forall_forall in *.
    intros q Hq. unfold newer_or_same.
    rewrite <- Kp, <- (K q Hq). now apply F.
Qed.

Lemma sort_names_stable (w : world) (outdir : string) (t : Z)
    (l : list string) :
  modified_at w outdir t (map snd (sort_desc (decorate w outdir l)))
  = modified_at w outdir t l.
Proof.
  assert (G : forall s,
             Forall (fun p => fst p = mtime_key w outdir (snd p)) s ->
             modified_at w outdir t (map snd s)
             = map snd (filter (fun p => (fst p =? t)%Z) s)).
  { induction s as [|p s IH]; intros K; [reflexivity|].
    apply Forall_cons_iff in K. destruct K as [Kp K].
    unfold modified_at in *. simpl. rewrite <- Kp.
    destruct (fst p =? t)%Z; simpl; now rewrite IH. }
  rewrite G by apply sorted_keys.
  rewrite sort_desc_stable, <- G by apply decorated_keys.
  now rewrite map_snd_decorate.
Qed.

(* ================================================================= *)
(** * Computations that only read the world *)

Lemma run_reads {A : Type} (c : M A) (w : world) :
  reads c -> c w = (fst (c w), w).
Proof. intros R. rewrite <- (R w) at 3. now destruct (c w). Qed.

Lemma reads_ret {A : Type} (a : A) : reads (ret a).
Proof. now intros w. Qed.

Lemma reads_bind {A B : Type} (c : M A) (k : A -> M B) :
  reads c -> (forall a, reads (k a)) -> reads (bind c k).
Proof.
  intros Rc Rk w. unfold bind. rewrite (run_reads c w Rc).
  destruct (fst (c w)); [apply Rk | reflexivity].
Qed.

Lemma reads_try_except {A : Type} (c : M A) (h : exn_class)
    (k : exn -> M A) :
  reads c -> (forall e, reads (k e)) -> reads (try_except c h k).
Proof.
  intros Rc Rk w. unfold try_except. rewrite (run_reads c w Rc).
  destruct (fst (c w)) as [a|e]; [reflexivity|].
  destruct (subclass (e_class e) h); [apply Rk | reflexivity].
Qed.

Lemma reads_mapM {A B : Type} (f : A -> M B) (l : list A) :
  (forall a, reads (f a)) -> reads (mapM f l).
Proof.
  intros Rf. induction l as [|x l IH]; simpl; [apply reads_ret|].
  apply reads_bind; [apply Rf|]. intros y.
  apply reads_bind; [exact IH|]. intros ys. apply reads_ret.
Qed.

Lemma fs_only_ret {A : Type} (a : A) : fs_only (ret a).
Proof. now intros w w' _. Qed.

Lemma fs_only_bind {A B : Type} (c : M A) (k : A -> M B) :
  reads c -> fs_only c -> (forall a, fs_only (k a)) -> fs_only (bind c k).
Proof.
  intros Rc Fc Fk w w' S. unfold bind.
  rewrite (run_reads c w Rc), (run_reads c w' Rc), (Fc w w' S).
  destruct (fst (c w)); [now apply Fk | reflexivity].
Qed.

Lemma fs_only_try_except {A : Type} (c : M A) (h : exn_class)
    (k : exn -> M A) :
  reads c -> fs_only c -> (forall e, fs_only (k e)) ->
  fs_only (try_except c h k).
Proof.
  intros Rc Fc Fk w w' S. unfold try_except.
  rewrite (run_reads c w Rc), (run_reads c w' Rc), (Fc w w' S).
  destruct (fst (c w)) as [a|e]; [reflexivity|].
  destruct (subclass (e_class e) h); [now apply Fk | reflexivity].
Qed.

Lemma reads_os_listdir (d : string) : reads (os_listdir d).
Proof.
  intros w. unfold os_listdir. destruct (d =? ""); [reflexivity|].
  destruct (find_dir w d) as [x|].
  - now destruct (d_readable x).
  - now destruct (blocked w (dir_prefix d)).
Qed.

Lemma fs_only_os_listdir (d : string) : fs_only (os_listdir d).
Proof.
  intros w w' [Hd Hf]. unfold os_listdir, find_dir, blocked.
  rewrite Hd, Hf.
  destruct (d =? ""); [reflexivity|].
  destruct (find _ (w_dirs w)) as [x|].
  - now destruct (d_readable x).
  - now destruct (existsb _ (w_files w)).
Qed.

Lemma stat_run (p : string) (w : world) :
  stat p w =
  (match find_file w p with
   | Some (mkFile _ (Some st)) => Return st
   | _ => Raise (error FileNotFoundError "No such file or directory")
   end, w).
Proof.
  unfold stat. destruct (find_file w p) as [[q [st|]]|]; reflexivity.
Qed.

Lemma reads_scan_media (outdir : string) : reads (scan_media outdir).
Proof.
  apply reads_try_except.
  - apply reads_bind; [apply reads_os_listdir | intros; apply reads_ret].
  - intros; apply reads_ret.
Qed.

Lemma fs_only_scan_media (outdir : string) : fs_only (scan_media outdir).
Proof.
  apply fs_only_try_except.
  - apply reads_bind; [apply reads_os_listdir | intros; apply reads_ret].
  - apply fs_only_bind;
      [apply reads_os_listdir | apply fs_only_os_listdir
       | intros; apply fs_only_ret].
  - intros; apply fs_only_ret.
Qed.

Lemma getmtime_run (outdir fn : string) (w : world) :
  os_path_getmtime (os_path_join outdir fn) w =
  (if has_stat w outdir fn then Return (mtime_key w outdir fn)
   else Raise (error FileNotFoundError "No such file or directory"), w).
Proof.
  unfold os_path_getmtime, bind, has_stat, mtime_key, stat_of.
  rewrite stat_run.
  destruct (find_file w (os_path_join outdir fn)) as [[q [[m s]|]]|];
    reflexivity.
Qed.

Lemma combine_keys (w : world) (outdir : string) (l : list string) :
  combine (map (mtime_key w outdir) l) l = decorate w outdir l.
Proof.
  unfold decorate. induction l as [|x l IH]; simpl; [reflexivity|].
  now rewrite IH.
Qed.

Lemma keys_run (outdir : string) (entries : list string) (w : world) :
  mapM (fun fn => os_path_getmtime (os_path_join outdir fn)) entries w =
  (if forallb (has_stat w outdir) entries
   then Return (map (mtime_key w outdir) entries)
   else Raise (error FileNotFoundError "No such file or directory"), w).
Proof.
  induction entries as [|fn l IH]; [reflexivity|].
  cbn [mapM forallb map]. unfold bind at 1. rewrite getmtime_run.
  destruct (has_stat w outdir fn); [|reflexivity].
  unfold bind. rewrite IH. cbn [andb].
  now destruct (forallb (has_stat w outdir) l).
Qed.

(** The sort on a given world: an error when some entry has no [stat],
    else the names, newest first. *)
Lemma sort_newest_first_run (outdir : string) (entries : list string)
    (w : world) :
  sort_newest_first outdir entries w =
  (if forallb (has_stat w outdir) entries
   then Return (map snd (sort_desc (decorate w outdir entries)))
   else Raise (error FileNotFoundError "No such file or directory"), w).
Proof.
  unfold sort_newest_first, bind. rewrite keys_run.
  destruct (forallb (has_stat w outdir) entries); [|reflexivity].
  unfold ret. now rewrite combine_keys.
Qed.

Lemma reads_sorted_entries (outdir : string) : reads (sorted_entries outdir).
Proof.
  apply reads_bind; [apply reads_scan_media|].
  intros l w. now rewrite sort_newest_first_run.
Qed.

Lemma same_fs_stat_of (w w' : world) (outdir fn : string) :
  same_fs w w' -> stat_of w' outdir fn = stat_of w outdir fn.
Proof. intros [_ Hf]. unfold stat_of, find_file. now rewrite Hf. Qed.

Lemma same_fs_decorate (w w' : world) (outdir : string) (l : list string) :
  same_fs w w' -> decorate w' outdir l = decorate w outdir l.
Proof.
  intros S. unfold decorate. apply map_ext. intros fn.
  unfold mtime_key. now rewrite (same_fs_stat_of w w').
Qed.

Lemma fs_only_sorted_entries (outdir : string) :
  fs_only (sorted_entries outdir).
Proof.
  apply fs_only_bind;
    [apply reads_scan_media | apply fs_only_scan_media |].
  intros l w w' S. rewrite !sort_newest_first_run. cbn [fst].
  rewrite (same_fs_decorate w w') by assumption.
  replace (forallb (has_stat w' outdir) l)
    with (forallb (has_stat w outdir) l); [reflexivity|].
  induction l as [|fn l IH]; [reflexivity|]. cbn [forallb].
  rewrite IH. unfold has_stat. now rewrite (same_fs_stat_of w w').
Qed.

(** What the builder's first two statements give, from the result of the
    scan. *)
Lemma sorted_entries_run (outdir : string) (w : world) :
  sorted_entries outdir w =
  (match fst (scan_media outdir w) with
   | Raise e => Raise e
   | Return entries =>
       if forallb (has_stat w outdir) entries
       then Return (map snd (sort_desc (decorate w outdir entries)))
       else Raise (error FileNotFoundError "No such file or directory")
   end, w).
Proof.
  unfold sorted_entries, bind.
  rewrite (run_reads _ w (reads_scan_media outdir)).
  destruct (fst (scan_media outdir w)); [|reflexivity].
  apply sort_newest_first_run.
Qed.

(* ================================================================= *)
(** * Index Builder *)

Lemma getsize_run (outdir fn : string) (w : world) :
  os_path_getsize (os_path_join outdir fn) w =
  (match stat_of w outdir fn with
   | Some (_, s) => Return s
   | None => Raise (error FileNotFoundError "No such file or directory")
   end, w).
Proof.
  unfold os_path_getsize, bind, stat_of. rewrite stat_run.
  destruct (find_file w (os_path_join outdir fn)) as [[q [[m s]|]]|];
    reflexivity.
Qed.

Lemma card_run (E : env) (outdir fn : string) (w : world) :
  card E outdir fn w = (Return (tile E w outdir fn), w).
Proof.
  unfold card, bind, try_except.
  rewrite getmtime_run. unfold has_stat, mtime_key, tile.
  destruct (stat_of w outdir fn) as [[m s]|] eqn:F; [|reflexivity].
  rewrite getsize_run, F. reflexivity.
Qed.

Lemma cards_run (E : env) (outdir : string) (entries : list string)
    (w : world) :
  cards E outdir entries w = (Return (flat_map (tile E w outdir) entries), w).
Proof.
  induction entries as [|fn l IH]; [reflexivity|].
  cbn [cards flat_map]. unfold bind. now rewrite card_run, IH.
Qed.

(** A file that cannot be created fails with an [OSError]. *)
Lemma can_create_error (w : world) (p : string) (e : exn) :
  can_create w p = Raise e -> subclass (e_class e) Exception = true.
Proof.
  unfold can_create. destruct (find_file w p); [discriminate|].
  destruct (has_slash p); [|discriminate].
  destruct (find _ (w_dirs w)) as [x|].
  - destruct (d_writable x); [discriminate|].
    intros H; injection H as <-; reflexivity.
  - destruct (blocked w p); intros H; injection H as <-; reflexivity.
Qed.

(** The whole of [build_index_html] on a given world: the error of the scan
    or the sort; else the page for the sorted entries, written when the
    index file can be created, and [None] when it cannot. *)
Lemma build_index_run (E : env) (head : string -> list string)
    (fixed : list string) (outdir title : string) (w : world) :
  build_index E head fixed outdir title w =
  match fst (sorted_entries outdir w) with
  | Raise e => (Raise e, w)
  | Return entries =>
      let index_path := os_path_join outdir "index.html" in
      let page := String.concat newline
                    (page_lines E w head fixed outdir title entries) in
      match can_create w index_path with
      | Return _ =>
          (Return (Some index_path),
           log (Print ("Built index: " ++ index_path))
               (written E index_path page w))
      | Raise e =>
          (Return None,
           log (Print ("Failed to write index.html: " ++ e_msg e)) w)
      end
  end.
Proof.
  unfold build_index. unfold bind at 1.
  rewrite (run_reads _ w (reads_sorted_entries outdir)).
  destruct (fst (sorted_entries outdir w)) as [entries|e]; [|reflexivity].
  unfold bind at 1. rewrite cards_run. cbv zeta.
  unfold try_except, bind, write_text, page_lines.
  destruct (can_create w (os_path_join outdir "index.html")) as [[]|e] eqn:C.
  - reflexivity.
  - now rewrite (can_create_error _ _ _ C).
Qed.

(* ================================================================= *)
(** * Paths and directory entries *)

Lemma strip_prefix_app (p s : string) : strip_prefix p (p ++ s) = Some s.
Proof.
  induction p as [|a p IH]; simpl; [now destruct s|].
  now rewrite Ascii.eqb_refl.
Qed.

Lemma strip_prefix_sound (p s n : string) :
  strip_prefix p s = Some n -> s = p ++ n.
Proof.
  revert s; induction p as [|a p IH]; intros s H; simpl in *.
  - now injection H.
  - destruct s as [|b s]; [discriminate|].
    destruct (Ascii.eqb_spec a b) as [->|]; [|discriminate].
    now rewrite (IH s H).
Qed.

(** Joining a directory and a relative name. *)
Lemma os_path_join_relative (d b : string) :
  startswith_slash b = false ->
  os_path_join d b = if d =? "" then b else dir_prefix d ++ b.
Proof.
  intros Hb. unfold os_path_join, dir_prefix. rewrite Hb.
  destruct (d =? "") eqn:D.
  - apply String.eqb_eq in D. now subst d.
  - cbn [orb]. destruct (endswith_slash d); [reflexivity|].
    now rewrite append_assoc.
Qed.

Lemma no_slash_relative (n : string) :
  has_slash n = false -> startswith_slash n = false.
Proof.
  destruct n as [|c n]; [reflexivity|]. simpl.
  now destruct (is_slash c).
Qed.

Lemma os_path_join_inj (d a b : string) :
  startswith_slash a = false -> startswith_slash b = false ->
  os_path_join d a = os_path_join d b -> a = b.
Proof.
  intros Ha Hb. rewrite !os_path_join_relative by assumption.
  destruct (d =? ""); [easy | apply append_inv_head].
Qed.

Lemma entry_name_no_slash (d p n : string) :
  entry_name d p = Some n -> has_slash n = false.
Proof.
  unfold entry_name. destruct (strip_prefix (dir_prefix d) p) as [m|];
    [|discriminate].
  destruct (has_slash m) eqn:S; cbn [orb]; [discriminate|].
  destruct (m =? ""); [discriminate|]. now intros [= <-].
Qed.

Lemma names_in_no_slash (d : string) (fs : list file) (n : string) :
  In n (names_in d fs) -> has_slash n = false.
Proof.
  induction fs as [|f fs IH]; simpl; [easy|].
  destruct (entry_name d (f_path f)) as [m|] eqn:Em; [|exact IH].
  intros [<-|H]; [now apply (entry_name_no_slash d (f_path f)) | now apply IH].
Qed.

(** The index file is an entry of [outdir] under the name [index.html], when
    it is one at all. *)
Lemma entry_name_index (outdir n : string) :
  entry_name outdir (os_path_join outdir "index.html") = Some n ->
  n = "index.html".
Proof.
  rewrite os_path_join_relative by reflexivity.
  destruct (outdir =? "") eqn:D.
  - apply String.eqb_eq in D. subst outdir. discriminate.
  - unfold entry_name. rewrite strip_prefix_app. cbn. now intros [= <-].
Qed.

(** ** Writing a file that is not a media file *)

Lemma put_file_listing (d p : string) (st : Z * N) (fs : list file) :
  (forall n, entry_name d p = Some n -> is_media n = false) ->
  filter is_media (names_in d (put_file p st fs))
  = filter is_media (names_in d fs).
Proof.
  intros Hp. induction fs as [|f fs IH]; cbn [put_file names_in].
  - cbn [f_path]. destruct (entry_name d p) as [n|] eqn:En; [|reflexivity].
    cbn [filter]. now rewrite (Hp n eq_refl).
  - destruct (String.eqb_spec (f_path f) p) as [->|Hne].
    + reflexivity.
    + cbn [names_in]. destruct (entry_name d (f_path f)); [|exact IH].
      cbn [filter]. now rewrite IH.
Qed.

Lemma find_put_file_other (p q : string) (st : Z * N) (fs : list file) :
  q <> p ->
  find (fun f => f_path f =? q) (put_file p st fs)
  = find (fun f => f_path f =? q) fs.
Proof.
  intros Hne. induction fs as [|f fs IH]; cbn [put_file find].
  - cbn [f_path]. destruct (String.eqb_spec p q); [congruence | reflexivity].
  - destruct (String.eqb_spec (f_path f) p) as [Hp|Hp].
    + cbn [find f_path]. rewrite Hp.
      destruct (String.eqb_spec p q); [congruence | reflexivity].
    + cbn [find]. now rewrite IH.
Qed.

(** A media entry of [outdir] is another file than the index. *)
Lemma media_is_not_index (outdir fn : string) :
  has_slash fn = false -> is_media fn = true ->
  os_path_join outdir fn <> os_path_join outdir "index.html".
Proof.
  intros Hs Hm Heq.
  apply os_path_join_inj in Heq;
    [| now apply no_slash_relative | reflexivity].
  subst fn. discriminate Hm.
Qed.

Lemma scan_media_run (outdir : string) (w : world) :
  fst (scan_media outdir w) =
  match fst (os_listdir outdir w) with
  | Return names => Return (filter is_media names)
  | Raise e =>
      if subclass (e_class e) FileNotFoundError then Return [] else Raise e
  end.
Proof.
  unfold scan_media, try_except, bind.
  rewrite (run_reads _ w (reads_os_listdir outdir)).
  destruct (fst (os_listdir outdir w)) as [names|e]; [reflexivity|].
  cbn [fst]. now destruct (subclass (e_class e) FileNotFoundError).
Qed.

(** What the scan returns are media names without a slash. *)
Lemma scan_media_entries (outdir : string) (w : world) (l : list string) :
  fst (scan_media outdir w) = Return l ->
  forall fn, In fn l -> has_slash fn = false /\ is_media fn = true.
Proof.
  rewrite scan_media_run. unfold os_listdir.
  destruct (outdir =? "").
  { cbn. intros [= <-] fn []. }
  destruct (find_dir w outdir) as [x|].
  2:{ destruct (blocked w (dir_prefix outdir)); cbn;
        [discriminate | intros [= <-] fn []]. }
  destruct (d_readable x).
  2:{ cbn. discriminate. }
  cbn [fst]. intros [= <-] fn Hin. apply filter_In in Hin.
  destruct Hin as [Hin Hm]. split; [|exact Hm].
  now apply (names_in_no_slash outdir (w_files w)).
Qed.

(** ** Files that stand in the way of a directory *)

Lemma existsb_put_file (g : string -> bool) (p : string) (st : Z * N)
    (fs : list file) :
  existsb (fun f => g (f_path f)) (put_file p st fs)
  = existsb (fun f => g (f_path f)) fs || g p.
Proof.
  induction fs as [|f fs IH]; cbn [put_file existsb f_path].
  - now rewrite orb_false_r.
  - destruct (String.eqb_spec (f_path f) p) as [->|Hne];
      cbn [existsb f_path].
    + destruct (g p); [now rewrite orb_true_r | now rewrite orb_false_r].
    + now rewrite IH, orb_assoc.
Qed.

Lemma blocked_put_file (p q : string) (st : Z * N) (w : world) :
  blocked (set_files (put_file p st (w_files w)) w) q
  = blocked w q
    || (negb (p =? "")
        && match strip_prefix (dir_prefix p) q with
           | Some _ => true
           | None => false
           end).
Proof.
  unfold blocked. cbn [w_files set_files].
  exact (existsb_put_file
           (fun path => negb (path =? "")
                        && match strip_prefix (dir_prefix path) q with
                           | Some _ => true
                           | None => false
                           end) p st (w_files w)).
Qed.

Lemma strip_prefix_longer (a b : string) :
  b <> EmptyString -> strip_prefix (a ++ b) a = None.
Proof.
  intros Hb. induction a as [|c a IH]; cbn [append strip_prefix].
  - destruct b; [contradiction | reflexivity].
  - now rewrite Ascii.eqb_refl.
Qed.

Lemma endswith_slash_app_name (a n : string) :
  n <> EmptyString -> endswith_slash n = false ->
  endswith_slash (a ++ n) = false.
Proof.
  intros Hn He. induction a as [|c a IH]; [exact He|].
  cbn [append endswith_slash].
  destruct (a ++ n) eqn:An; [|exact IH].
  destruct a; [contradiction | discriminate].
Qed.

(** A file of [outdir] does not stand in the way of [outdir]. *)
Lemma entry_not_blocking (outdir n : string) :
  outdir <> EmptyString ->
  startswith_slash n = false -> endswith_slash n = false ->
  n <> EmptyString ->
  strip_prefix (dir_prefix (os_path_join outdir n)) (dir_prefix outdir)
  = None.
Proof.
  intros Ho Hs He Hn.
  rewrite os_path_join_relative by exact Hs.
  destruct (String.eqb_spec outdir ""); [contradiction|].
  unfold dir_prefix at 1.
  rewrite (endswith_slash_app_name (dir_prefix outdir) n Hn He).
  rewrite append_assoc. apply strip_prefix_longer.
  destruct n; discriminate.
Qed.

Lemma blocked_after_write (outdir n : string) (st : Z * N) (w : world) :
  outdir <> EmptyString ->
  startswith_slash n = false -> endswith_slash n = false ->
  n <> EmptyString ->
  blocked (set_files (put_file (os_path_join outdir n) st (w_files w)) w)
          (dir_prefix outdir)
  = blocked w (dir_prefix outdir).
Proof.
  intros Ho Hs He Hn.
  now rewrite blocked_put_file, (entry_not_blocking outdir n Ho Hs He Hn),
    andb_false_r, orb_false_r.
Qed.

(** Writing the index page changes neither the scan nor the sort. *)
Lemma scan_media_after_write (E : env) (outdir content : string) (w : world) :
  fst (scan_media outdir
         (written E (os_path_join outdir "index.html") content w))
  = fst (scan_media outdir w).
Proof.
  rewrite !scan_media_run. unfold os_listdir, find_dir, written.
  cbn [w_dirs w_files tick log set_files].
  destruct (String.eqb_spec outdir "") as [|Hne]; [reflexivity|].
  destruct (find _ (w_dirs w)) as [x|].
  2:{ change (blocked (tick (log (WriteText (os_path_join outdir "index.html")
                                            content)
                               (set_files
                                  (put_file (os_path_join outdir "index.html")
                                     (env_mtime E (w_tick w),
                                      N.of_nat (String.length content))
                                     (w_files w)) w)))
                      (dir_prefix outdir))
        with (blocked (set_files
                         (put_file (os_path_join outdir "index.html")
                            (env_mtime E (w_tick w),
                             N.of_nat (String.length content))
                            (w_files w)) w)
                      (dir_prefix outdir)).
      rewrite blocked_after_write;
        [| assumption | reflexivity | reflexivity | discriminate].
      now destruct (blocked w (dir_prefix outdir)). }
  destruct (d_readable x); [|reflexivity]. cbn [fst].
  rewrite put_file_listing; [reflexivity|].
  intros n Hn. now rewrite (entry_name_index outdir n Hn).
Qed.

Lemma stat_of_after_write (E : env) (outdir content fn : string)
    (w : world) :
  has_slash fn = false -> is_media fn = true ->
  stat_of (written E (os_path_join outdir "index.html") content w) outdir fn
  = stat_of w outdir fn.
Proof.
  intros Hs Hm. unfold stat_of, find_file, written.
  cbn [w_files tick log set_files].
  now rewrite find_put_file_other by now apply media_is_not_index.
Qed.

Lemma sorted_entries_after_write (E : env) (outdir content : string)
    (w : world) :
  fst (sorted_entries outdir
         (written E (os_path_join outdir "index.html") content w))
  = fst (sorted_entries outdir w).
Proof.
  rewrite !sorted_entries_run. cbn [fst]. rewrite scan_media_after_write.
  destruct (fst (scan_media outdir w)) as [l|e] eqn:Sc; [|reflexivity].
  pose proof (scan_media_entries outdir w l Sc) as Hl.
  set (w' := written E (os_path_join outdir "index.html") content w).
  assert (St : forall fn, In fn l ->
                stat_of w' outdir fn = stat_of w outdir fn).
  { intros fn Hin. destruct (Hl fn Hin). now apply stat_of_after_write. }
  assert (Hs : forallb (has_stat w' outdir) l = forallb (has_stat w outdir) l).
  { clear Sc Hl. induction l as [|fn l IH]; [reflexivity|]. cbn [forallb].
    rewrite IH by (intros; apply St; now right).
    unfold has_stat. now rewrite St by now left. }
  assert (Hd : decorate w' outdir l = decorate w outdir l).
  { unfold decorate. apply map_ext_in. intros fn Hin.
    unfold mtime_key. now rewrite St. }
  now rewrite Hs, Hd.
Qed.

Lemma same_fs_log (ev : event) (w : world) : same_fs w (log ev w).
Proof. now split. Qed.

(** The builder leaves the sorted entry list as it found it. *)
Lemma build_index_keeps_entries (E : env) (head : string -> list string)
    (fixed : list string) (outdir title : string) (w : world) :
  fst (sorted_entries outdir (snd (build_index E head fixed outdir title w)))
  = fst (sorted_entries outdir w).
Proof.
  rewrite build_index_run.
  destruct (fst (sorted_entries outdir w)) as [l|e] eqn:S;
    [|cbn [snd]; exact S].
  cbv zeta. destruct (can_create w _) as [[]|e]; cbn [snd].
  - rewrite (fs_only_sorted_entries outdir _ _ (same_fs_log _ _)).
    rewrite sorted_entries_after_write. exact S.
  - rewrite (fs_only_sorted_entries outdir _ _ (same_fs_log _ _)). exact S.
Qed.

(** What the scan and the sort return is sorted newest first. *)
Lemma sorted_entries_sorted (outdir : string) (w : world) (l : list string) :
  fst (sorted_entries outdir w) = Return l ->
  StronglySorted (newer_or_same w outdir) l.
Proof.
  rewrite sorted_entries_run. cbn [fst].
  destruct (fst (scan_media outdir w)) as [entries|e]; [|discriminate].
  destruct (forallb (has_stat w outdir) entries); [|discriminate].
  intros [= <-]. apply sort_names_sorted.
Qed.

(** C5.  When the scan and the sort of [build_index_html] go through, the
    list [l] they give holds the scanned media entries (a permutation of
    them), newest first by modification time, entries of one and the same
    modification time in the order of the directory listing; and a second
    run, in the world the first run leaves behind, sorts the entries into
    the same list. *)
Theorem index_entries_newest_first_stable
    (E : env) (outdir title : string) (w : world) (l : list string) :
  fst (sorted_entries outdir w) = Return l ->
  exists entries : list string,
    fst (scan_media outdir w) = Return entries /\
    Permutation l entries /\
    forallb (has_stat w outdir) l = true /\
    StronglySorted (newer_or_same w outdir) l /\
    (forall t, modified_at w outdir t l = modified_at w outdir t entries) /\
    fst (sorted_entries outdir
           (snd (CapturePi4.build_index_html E outdir title w))) = Return l /\
    fst (sorted_entries outdir
           (snd (CapPi6.build_index_html E outdir title w))) = Return l.
Proof.
  intros H. pose proof H as H0. rewrite sorted_entries_run in H. cbn [fst] in H.
  destruct (fst (scan_media outdir w)) as [entries|e]; [|discriminate].
  destruct (forallb (has_stat w outdir) entries) eqn:St; [|discriminate].
  injection H as <-. exists entries.
  split; [reflexivity|].
  split; [apply sort_names_perm|].
  split.
  { rewrite forallb_forall in *. intros fn Hin. apply St.
    now apply (Permutation_in _ (sort_names_perm w outdir entries)). }
  split; [apply sort_names_sorted|].
  split; [intros t; apply sort_names_stable|].
  unfold CapturePi4.build_index_html, CapPi6.build_index_html.
  now rewrite !build_index_keeps_entries.
Qed.

Lemma index_entries_newest_first_stable_witness :
  fst (sorted_entries "./images" w_three)
    = Return ["b.jpg"; "a.jpg"; "c.png"] /\
  exists entries : list string,
    fst (scan_media "./images" w_three) = Return entries /\
    Permutation ["b.jpg"; "a.jpg"; "c.png"] entries /\
    forallb (has_stat w_three "./images") ["b.jpg"; "a.jpg"; "c.png"] = true /\
    StronglySorted (newer_or_same w_three "./images")
                   ["b.jpg"; "a.jpg"; "c.png"] /\
    (forall t, modified_at w_three "./images" t ["b.jpg"; "a.jpg"; "c.png"]
               = modified_at w_three "./images" t entries) /\
    fst (sorted_entries "./images"
           (snd (CapturePi4.build_index_html env_ok "./images" "Owls" w_three)))
      = Return ["b.jpg"; "a.jpg"; "c.png"] /\
    fst (sorted_entries "./images"
           (snd (CapPi6.build_index_html env_ok "./images" "Owls" w_three)))
      = Return ["b.jpg"; "a.jpg"; "c.png"].
Proof.
  split; [vm_compute; reflexivity|].
  apply (index_entries_newest_first_stable env_ok "./images" "Owls" w_three).
  vm_compute; reflexivity.
Defined.

(* ================================================================= *)
(** * The tiles of the page *)

Lemma count_cards_app (a b : list string) :
  count_cards (a ++ b) = count_cards a + count_cards b.
Proof. unfold count_cards. now rewrite filter_app, length_app. Qed.

Lemma count_cards_card_lines (path mtime size_kb : string) :
  count_cards (card_lines path mtime size_kb) = 1.
Proof. vm_compute. reflexivity. Qed.

Lemma count_cards_tile (E : env) (w : world) (outdir fn : string) :
  count_cards (tile E w outdir fn) = 1.
Proof.
  unfold tile. destruct (stat_of w outdir fn) as [[m s]|];
    apply count_cards_card_lines.
Qed.

Lemma count_cards_tiles (E : env) (w : world) (outdir : string)
    (entries : list string) :
  count_cards (flat_map (tile E w outdir) entries) = List.length entries.
Proof.
  induction entries as [|fn l IH]; [reflexivity|].
  cbn [flat_map List.length].
  now rewrite count_cards_app, count_cards_tile, IH.
Qed.

Lemma count_cards_pi4_head (t : string) :
  count_cards (CapturePi4.html_head t) = 0.
Proof. vm_compute. reflexivity. Qed.

Lemma count_cards_pi6_head (t : string) :
  count_cards (CapPi6.html_head t) = 0.
Proof. vm_compute. reflexivity. Qed.

(** The number of tiles of a page. *)
Lemma count_cards_page (E : env) (w : world) (head : string -> list string)
    (fixed : list string) (outdir title : string) (entries : list string) :
  count_cards (head (html_escape title)) = 0 ->
  count_cards (page_lines E w head fixed outdir title entries)
  = count_cards fixed + List.length entries.
Proof.
  intros H. unfold page_lines.
  rewrite !count_cards_app, H, count_cards_tiles.
  change (count_cards html_foot) with 0. lia.
Qed.

(** When the scan and the sort went through, every entry has a [stat], and
    its tile shows the figures of it. *)
Lemma sorted_entries_have_stat (outdir : string) (w : world)
    (l : list string) :
  fst (sorted_entries outdir w) = Return l ->
  forallb (has_stat w outdir) l = true.
Proof.
  rewrite sorted_entries_run. cbn [fst].
  destruct (fst (scan_media outdir w)) as [entries|e]; [|discriminate].
  destruct (forallb (has_stat w outdir) entries) eqn:St; [|discriminate].
  intros [= <-]. rewrite forallb_forall in *. intros fn Hin. apply St.
  now apply (Permutation_in _ (sort_names_perm w outdir entries)).
Qed.

Lemma tile_of_entry (E : env) (w : world) (outdir fn : string) :
  has_stat w outdir fn = true ->
  exists (m : Z) (s : N),
    stat_of w outdir fn = Some (m, s) /\
    tile E w outdir fn
    = card_lines (html_escape fn) (env_localtime E m)
                 (str (N.to_nat (s / 1024))).
Proof.
  unfold has_stat, tile.
  destruct (stat_of w outdir fn) as [[m s]|]; [|discriminate].
  intros _. now exists m, s.
Qed.




(* ================================================================= *)
(** * When the directory cannot be read or the page cannot be written *)

Lemma has_slash_app (a b : string) :
  has_slash (a ++ b) = has_slash a || has_slash b.
Proof.
  induction a as [|c a IH]; simpl; [reflexivity|].
  now rewrite IH, orb_assoc.
Qed.

Lemma endswith_has_slash (a : string) :
  endswith_slash a = true -> has_slash a = true.
Proof.
  induction a as [|c a IH]; simpl; [discriminate|].
  destruct a as [|c' a'].
  - intros ->. reflexivity.
  - intros H. rewrite (IH H). apply orb_true_r.
Qed.

Lemma endswith_slash_snoc (a : string) : endswith_slash (a ++ "/") = true.
Proof.
  induction a as [|c a IH]; [reflexivity|].
  simpl. destruct (a ++ "/") eqn:A; [|exact IH].
  destruct a; discriminate.
Qed.

Lemma endswith_dir_prefix (d : string) : endswith_slash (dir_prefix d) = true.
Proof.
  unfold dir_prefix. destruct (endswith_slash d) eqn:D; [exact D|].
  apply endswith_slash_snoc.
Qed.

(** A path splits in one way only into a prefix that ends with a slash and
    a name without a slash. *)
Lemma split_at_last_slash (a b n m : string) :
  endswith_slash a = true -> endswith_slash b = true ->
  has_slash n = false -> has_slash m = false ->
  a ++ n = b ++ m -> a = b /\ n = m.
Proof.
  revert b. induction a as [|c a IH]; intros b Ha Hb Hn Hm H;
    [discriminate|].
  destruct b as [|c' b]; [discriminate|].
  simpl in H. injection H as -> H.
  destruct a as [|c1 a], b as [|c2 b].
  - simpl in H. now subst.
  - exfalso. change (EmptyString ++ n) with n in H. subst n.
    rewrite has_slash_app in Hn. apply orb_false_elim in Hn.
    destruct Hn as [Hn _].
    rewrite (endswith_has_slash (String c2 b)) in Hn; [discriminate|].
    exact Hb.
  - exfalso. change (EmptyString ++ m) with m in H. subst m.
    rewrite has_slash_app in Hm. apply orb_false_elim in Hm.
    destruct Hm as [Hm _].
    rewrite (endswith_has_slash (String c1 a)) in Hm; [discriminate|].
    exact Ha.
  - destruct (IH (String c2 b)) as [E1 E2]; try assumption.
    now rewrite E1.
Qed.

(** The directory the index file is an entry of is [outdir]. *)
Lemma is_entry_index (d outdir : string) :
  outdir <> EmptyString ->
  is_entry d (os_path_join outdir "index.html")
  = (dir_prefix d =? dir_prefix outdir).
Proof.
  intros Hne. rewrite os_path_join_relative by reflexivity.
  destruct (String.eqb_spec outdir ""); [contradiction|].
  unfold is_entry, entry_name.
  destruct (String.eqb_spec (dir_prefix d) (dir_prefix outdir)) as [->|Hd].
  - now rewrite strip_prefix_app.
  - destruct (strip_prefix (dir_prefix d) (dir_prefix outdir ++ "index.html"))
      as [m|] eqn:P; [|reflexivity].
    destruct (has_slash m) eqn:Sm; [reflexivity|]. cbn [orb].
    apply strip_prefix_sound in P. symmetry in P.
    apply split_at_last_slash in P;
      try apply endswith_dir_prefix; try assumption; try reflexivity.
    destruct P as [P _]. congruence.
Qed.

Lemma find_ext {A : Type} (f g : A -> bool) (l : list A) :
  (forall x, f x = g x) -> find f l = find g l.
Proof.
  intros H. induction l as [|x l IH]; simpl; [reflexivity|].
  now rewrite H, IH.
Qed.

Lemma has_slash_index (outdir : string) :
  outdir <> EmptyString ->
  has_slash (os_path_join outdir "index.html") = true.
Proof.
  intros Hne. rewrite os_path_join_relative by reflexivity.
  destruct (String.eqb_spec outdir ""); [contradiction|].
  rewrite has_slash_app, (endswith_has_slash _ (endswith_dir_prefix outdir)).
  reflexivity.
Qed.

(** Whether the index file can be created, from the state of [outdir]. *)
Lemma can_create_index (w : world) (outdir : string) :
  outdir <> EmptyString ->
  can_create w (os_path_join outdir "index.html") =
  match find_file w (os_path_join outdir "index.html") with
  | Some _ => Return tt
  | None =>
      match find_dir w outdir with
      | None =>
          if blocked w (os_path_join outdir "index.html")
          then Raise (error NotADirectoryError "Not a directory")
          else Raise (error FileNotFoundError "No such file or directory")
      | Some x =>
          if d_writable x then Return tt
          else Raise (error PermissionError "Permission denied")
      end
  end.
Proof.
  intros Hne. unfold can_create, find_dir.
  rewrite (has_slash_index outdir Hne).
  rewrite (find_ext _ (fun x => dir_prefix (d_path x) =? dir_prefix outdir));
    [reflexivity|].
  intros x. now apply is_entry_index.
Qed.

(** In a directory that can be written to, the index file can be written. *)
Lemma can_create_index_writable (w : world) (outdir : string) (x : dir) :
  outdir <> EmptyString -> find_dir w outdir = Some x ->
  d_writable x = true ->
  can_create w (os_path_join outdir "index.html") = Return tt.
Proof.
  intros Hne Hx Hw. rewrite (can_create_index w outdir Hne), Hx, Hw.
  now destruct (find_file w _).
Qed.

Lemma publish_index_none (E : env) (cfg : option scp_config) (w : world) :
  publish_index E None cfg w = (Return tt, w).
Proof. reflexivity. Qed.


(** An error of the listing other than [FileNotFoundError] leaves
    [build_index_html]. *)
Lemma listing_error_propagates (E : env) (head : string -> list string)
    (fixed : list string) (outdir title : string) (w : world) (e : exn) :
  fst (os_listdir outdir w) = Raise e ->
  subclass (e_class e) FileNotFoundError = false ->
  build_index E head fixed outdir title w = (Raise e, w).
Proof.
  intros L C.
  now rewrite build_index_run, sorted_entries_run, scan_media_run, L, C.
Qed.

Lemma strip_prefix_app_r (a d n r : string) :
  strip_prefix a d = Some r -> strip_prefix a (d ++ n) = Some (r ++ n).
Proof.
  revert d. induction a as [|c a IH]; intros d; cbn [strip_prefix].
  - now intros [= <-].
  - destruct d as [|c' d]; [discriminate|]. cbn [append].
    destruct (Ascii.eqb c c'); [apply IH | discriminate].
Qed.

(** A file in the way of [outdir] is in the way of the index file. *)
Lemma blocked_index (w : world) (outdir : string) :
  outdir <> EmptyString ->
  blocked w (os_path_join outdir "index.html") = false ->
  blocked w (dir_prefix outdir) = false.
Proof.
  intros Hne. rewrite os_path_join_relative by reflexivity.
  destruct (String.eqb_spec outdir ""); [contradiction|].
  unfold blocked. induction (w_files w) as [|f fs IH]; [reflexivity|].
  cbn [existsb]. intros H. apply orb_false_elim in H. destruct H as [Hf Hfs].
  rewrite (IH Hfs), orb_false_r.
  destruct (negb (f_path f =? "")); [|reflexivity]. cbn [andb] in *.
  destruct (strip_prefix (dir_prefix (f_path f)) (dir_prefix outdir))
    as [r|] eqn:S; [|reflexivity].
  now rewrite (strip_prefix_app_r _ _ "index.html" _ S) in Hf.
Qed.



(** A directory that cannot be listed: the error leaves the builder. *)
Example index_of_unreadable_directory :
  CapturePi4.build_index_html env_ok "./images" "Owls" w_unreadable
    = (Raise (error PermissionError "Permission denied"), w_unreadable).
Proof. vm_compute; reflexivity. Qed.

(* ================================================================= *)
(** * Steps that capture nothing *)

Lemma captures_app (new old : list event) :
  captures (new ++ old) = (captures old ++ captures new)%list.
Proof.
  induction new as [|ev new IH]; simpl; [now rewrite app_nil_r|].
  destruct ev; try exact IH. now rewrite IH, app_assoc.
Qed.

Lemma quiet_step_refl (w : world) : quiet_step w w.
Proof. repeat split; auto. now exists []. Qed.

Lemma quiet_step_trans (w1 w2 w3 : world) :
  quiet_step w1 w2 -> quiet_step w2 w3 -> quiet_step w1 w3.
Proof.
  intros (D1 & H1 & F1 & n1 & T1 & C1) (D2 & H2 & F2 & n2 & T2 & C2).
  split; [congruence|]. split; [auto|]. split; [auto|].
  exists (n2 ++ n1)%list. split.
  - now rewrite T2, T1, app_assoc.
  - now rewrite captures_app, C1, C2.
Qed.

Lemma quiet_step_log (ev : event) (w : world) :
  captures [ev] = [] -> quiet_step w (log ev w).
Proof. intros C. repeat split; auto. now exists [ev]. Qed.

Lemma quiet_step_tick (w : world) : quiet_step w (tick w).
Proof. repeat split; auto. now exists []. Qed.

Lemma healthy_put_file (p : string) (st : Z * N) (fs : list file) :
  forallb (fun f => match f_stat f with Some _ => true | None => false end) fs
    = true ->
  forallb (fun f => match f_stat f with Some _ => true | None => false end)
          (put_file p st fs) = true.
Proof.
  induction fs as [|f fs IH]; simpl; [reflexivity|].
  intros H. apply andb_prop in H. destruct H as [Hf Hfs].
  destruct (f_path f =? p); simpl.
  - exact Hfs.
  - now rewrite Hf, IH.
Qed.

Lemma find_put_file_same (p : string) (st : Z * N) (fs : list file) :
  find (fun f => f_path f =? p) (put_file p st fs) = Some (mkFile p (Some st)).
Proof.
  induction fs as [|f fs IH]; simpl.
  - now rewrite String.eqb_refl.
  - destruct (f_path f =? p) eqn:F; simpl.
    + now rewrite String.eqb_refl.
    + now rewrite F.
Qed.

Lemma has_file_put_file (p q : string) (st : Z * N) (w : world) :
  has_file w q = true ->
  has_file (set_files (put_file p st (w_files w)) w) q = true.
Proof.
  unfold has_file, find_file. cbn [w_files set_files].
  destruct (String.eqb_spec q p) as [->|Hne].
  - now rewrite find_put_file_same.
  - now rewrite find_put_file_other.
Qed.

(** Writing a file, with any event that is not a capture. *)
Lemma quiet_step_put (ev : event) (p : string) (st : Z * N) (w : world) :
  captures [ev] = [] ->
  quiet_step w (tick (log ev (set_files (put_file p st (w_files w)) w))).
Proof.
  intros C. split; [reflexivity|]. split; [|split].
  - unfold healthy. cbn [w_files tick log set_files]. apply healthy_put_file.
  - intros q. apply has_file_put_file.
  - now exists [ev].
Qed.

(** Rewriting a file without an event of its own. *)
Lemma quiet_step_put_silent (p : string) (st : Z * N) (w : world) :
  quiet_step w (tick (set_files (put_file p st (w_files w)) w)).
Proof.
  split; [reflexivity|]. split; [|split].
  - unfold healthy. cbn [w_files tick set_files]. apply healthy_put_file.
  - intros q. apply has_file_put_file.
  - now exists [].
Qed.

Lemma quiet_reads {A : Type} (c : M A) : reads c -> quiet c.
Proof. intros R w. rewrite R. apply quiet_step_refl. Qed.

Lemma quiet_ret {A : Type} (a : A) : quiet (ret a).
Proof. intros w. apply quiet_step_refl. Qed.

Lemma quiet_raise {A : Type} (e : exn) : quiet (@raise A e).
Proof. intros w. apply quiet_step_refl. Qed.

Lemma quiet_bind {A B : Type} (c : M A) (k : A -> M B) :
  quiet c -> (forall a, quiet (k a)) -> quiet (bind c k).
Proof.
  intros Qc Qk w. unfold bind. specialize (Qc w).
  destruct (c w) as [[a|e] w']; cbn [snd] in *; [|exact Qc].
  exact (quiet_step_trans _ _ _ Qc (Qk a w')).
Qed.

Lemma quiet_try_except {A : Type} (c : M A) (h : exn_class)
    (k : exn -> M A) :
  quiet c -> (forall e, quiet (k e)) -> quiet (try_except c h k).
Proof.
  intros Qc Qk w. unfold try_except. specialize (Qc w).
  destruct (c w) as [[a|e] w']; cbn [snd] in *; [exact Qc|].
  destruct (subclass (e_class e) h); [|exact Qc].
  exact (quiet_step_trans _ _ _ Qc (Qk e w')).
Qed.

Lemma quiet_print (s : string) : quiet (print s).
Proof. intros w. now apply quiet_step_log. Qed.

Lemma quiet_print2 (a b : string) : quiet (print2 a b).
Proof. intros w. now apply quiet_step_log. Qed.

Lemma quiet_now (E : env) : quiet (now E).
Proof. intros w. apply quiet_step_tick. Qed.

Lemma quiet_sleep (E : env) (i : pyfloat) : quiet (sleep E i).
Proof.
  intros w. unfold sleep. destruct (sleep_error E i w); cbn [snd].
  { apply quiet_step_refl. }
  destruct (env_interrupt E (w_tick w)); cbn [snd].
  - apply quiet_step_tick.
  - exact (quiet_step_trans _ _ _ (quiet_step_log (Sleep i) w eq_refl)
             (quiet_step_tick _)).
Qed.

Lemma quiet_subprocess_run (E : env) (cmd : list string) :
  quiet (subprocess_run E cmd).
Proof.
  intros w. unfold subprocess_run.
  assert (Q : quiet_step w (tick (log (Run cmd) w))).
  { exact (quiet_step_trans _ _ _ (quiet_step_log (Run cmd) w eq_refl)
             (quiet_step_tick _)). }
  now destruct (env_run E (w_tick w) cmd) as [[msg err]|].
Qed.

Lemma quiet_write_text (E : env) (p content : string) :
  quiet (write_text E p content).
Proof.
  intros w. unfold write_text. destruct (can_create w p); cbn [snd].
  - now apply quiet_step_put.
  - apply quiet_step_refl.
Qed.

Lemma quiet_lift {A : Type} (o : answer A) : quiet (lift o).
Proof. destruct o; [apply quiet_ret | apply quiet_raise]. Qed.

Lemma quiet_check (o : option string) : quiet (check o).
Proof. destruct o; [apply quiet_raise | apply quiet_ret]. Qed.

Lemma reads_stat (p : string) : reads (stat p).
Proof. intros w. now rewrite stat_run. Qed.

Lemma quiet_image_save (E : env) (p : string) (ops : list draw_op) :
  quiet (image_save E p ops).
Proof.
  intros w. unfold image_save.
  destruct (can_create w p); cbn [snd]; [|apply quiet_step_refl].
  destruct (pil_save E p); cbn [snd]; [|now apply quiet_step_put].
  destruct (find_file w p); [apply quiet_step_put_silent|].
  apply quiet_step_tick.
Qed.

Lemma quiet_scp_upload (E : env) (p : string) (c : scp_config) :
  quiet (_scp_upload E p c).
Proof.
  unfold _scp_upload.
  destruct (negb (env_which E "scp")).
  { apply quiet_bind; [apply quiet_print | intros; apply quiet_ret]. }
  apply quiet_bind.
  { unfold _ensure_remote_dir. destruct (negb (env_which E "ssh")).
    - apply quiet_bind; [apply quiet_print | intros; apply quiet_ret].
    - apply quiet_try_except.
      + apply quiet_bind; [apply quiet_subprocess_run|].
        intros; apply quiet_ret.
      + intros e. apply quiet_bind; [apply quiet_print2|].
        intros; apply quiet_ret. }
  intros ok. destruct (negb ok).
  { apply quiet_bind; [apply quiet_print | intros; apply quiet_ret]. }
  apply quiet_try_except.
  - apply quiet_bind; [apply quiet_subprocess_run|]. intros _.
    apply quiet_bind; [apply quiet_print | intros; apply quiet_ret].
  - intros e. apply quiet_bind.
    { destruct (e_stderr e); [|apply quiet_ret]. unfold decode_utf8.
      destruct (utf8_valid s); [apply quiet_ret | apply quiet_raise]. }
    intros stderr. apply quiet_bind; [apply quiet_print2|].
    intros; apply quiet_ret.
Qed.

Lemma quiet_call_scp_upload (E : env) (p : string)
    (cfg : option scp_config) :
  quiet (call_scp_upload E p cfg).
Proof.
  destruct cfg; [apply quiet_scp_upload | apply quiet_raise].
Qed.

Lemma quiet_publish_index (E : env) (idx : option string)
    (cfg : option scp_config) :
  quiet (publish_index E idx cfg).
Proof.
  unfold publish_index. destruct (truthy idx && configured cfg);
    [|apply quiet_ret].
  destruct idx; [|apply quiet_ret].
  apply quiet_bind; [apply quiet_call_scp_upload | intros; apply quiet_ret].
Qed.

Lemma quiet_build_index (E : env) (head : string -> list string)
    (fixed : list string) (outdir title : string) :
  quiet (build_index E head fixed outdir title).
Proof.
  unfold build_index.
  apply quiet_bind; [apply quiet_reads, reads_sorted_entries|]. intros l.
  apply quiet_bind.
  { intros w. rewrite cards_run. apply quiet_step_refl. }
  intros tiles. apply quiet_try_except.
  - apply quiet_bind; [apply quiet_write_text|]. intros _.
    apply quiet_bind; [apply quiet_print2 | intros; apply quiet_ret].
  - intros e. apply quiet_bind; [apply quiet_print2 | intros; apply quiet_ret].
Qed.

(* ================================================================= *)
(** * Annotator *)

Lemma quiet_try_truetype (E : env) (p : string) (size : Z) :
  quiet (try_truetype E p size).
Proof.
  apply quiet_try_except.
  - apply quiet_bind; [apply quiet_check | intros; apply quiet_ret].
  - intros; apply quiet_ret.
Qed.

Lemma quiet_choose_font (E : env) (font_path : option string) (size : Z) :
  quiet (choose_font E font_path size).
Proof.
  unfold choose_font. apply quiet_bind.
  { destruct (truthy font_path); [|apply quiet_ret].
    destruct font_path; [apply quiet_try_truetype | apply quiet_ret]. }
  intros f1. apply quiet_bind.
  { destruct f1; [apply quiet_ret | apply quiet_try_truetype]. }
  intros f2. destruct f2; [apply quiet_ret|].
  apply quiet_bind; [apply quiet_check | intros; apply quiet_ret].
Qed.

Lemma quiet_annotate_draw (E : env) (image_path text : string)
    (font_path : option string) :
  quiet (annotate_draw E image_path text font_path).
Proof.
  unfold annotate_draw, image_open.
  apply quiet_bind.
  { apply quiet_bind; [apply quiet_reads, reads_stat|].
    intros; apply quiet_lift. }
  intros size. apply quiet_bind; [apply quiet_choose_font|]. intros font.
  apply quiet_bind.
  { apply quiet_try_except.
    - apply quiet_bind; [apply quiet_lift|].
      intros [[[x0 y0] x1] y1]. apply quiet_ret.
    - intros; apply quiet_lift. }
  intros ts. apply quiet_bind; [apply quiet_check|]. intros _.
  apply quiet_bind; [apply quiet_check|]. intros _.
  apply quiet_bind; [apply quiet_image_save | intros; apply quiet_ret].
Qed.

Lemma quiet_annotate_guarded (E : env) (image_path text : string)
    (font_path : option string) :
  quiet (annotate_guarded E image_path text font_path).
Proof.
  apply quiet_try_except; [apply quiet_annotate_draw|].
  intros e. apply quiet_bind; [apply quiet_print2 | intros; apply quiet_ret].
Qed.

Lemma tame_ret {A : Type} (a : A) : tame (ret a).
Proof. intros w e H. discriminate H. Qed.

Lemma tame_bind {A B : Type} (c : M A) (k : A -> M B) :
  tame c -> (forall a, tame (k a)) -> tame (bind c k).
Proof.
  intros Tc Tk w e. unfold bind. specialize (Tc w).
  destruct (c w) as [[a|e'] w']; cbn [fst] in *; [apply Tk|].
  intros [= <-]. now apply Tc.
Qed.

Lemma tame_try_except {A : Type} (c : M A) (h : exn_class)
    (k : exn -> M A) :
  tame c -> (forall e, tame (k e)) -> tame (try_except c h k).
Proof.
  intros Tc Tk w e. unfold try_except. specialize (Tc w).
  destruct (c w) as [[a|e'] w']; cbn [fst] in *; [discriminate|].
  destruct (subclass (e_class e') h); [apply Tk|].
  intros [= <-]. now apply Tc.
Qed.

Lemma tame_lift {A : Type} (o : answer A) : tame (lift o).
Proof. destruct o; intros w e [= <-]. reflexivity. Qed.

Lemma tame_check (o : option string) : tame (check o).
Proof. destruct o; intros w e [= <-]. reflexivity. Qed.

Lemma tame_stat (p : string) : tame (stat p).
Proof.
  intros w e. rewrite stat_run. cbn [fst].
  destruct (find_file w p) as [[q [st|]]|]; intros [= <-]; reflexivity.
Qed.

Lemma tame_image_save (E : env) (p : string) (ops : list draw_op) :
  tame (image_save E p ops).
Proof.
  intros w e. unfold image_save.
  destruct (can_create w p) eqn:C; cbn [fst].
  - destruct (pil_save E p); cbn [fst]; [|discriminate].
    intros [= <-]. reflexivity.
  - intros [= <-]. exact (can_create_error _ _ _ C).
Qed.

Lemma tame_try_truetype (E : env) (p : string) (size : Z) :
  tame (try_truetype E p size).
Proof.
  apply tame_try_except.
  - apply tame_bind; [apply tame_check | intros; apply tame_ret].
  - intros; apply tame_ret.
Qed.

Lemma tame_choose_font (E : env) (font_path : option string) (size : Z) :
  tame (choose_font E font_path size).
Proof.
  unfold choose_font. apply tame_bind.
  { destruct (truthy font_path); [|apply tame_ret].
    destruct font_path; [apply tame_try_truetype | apply tame_ret]. }
  intros f1. apply tame_bind.
  { destruct f1; [apply tame_ret | apply tame_try_truetype]. }
  intros f2. destruct f2; [apply tame_ret|].
  apply tame_bind; [apply tame_check | intros; apply tame_ret].
Qed.

Lemma tame_annotate_draw (E : env) (image_path text : string)
    (font_path : option string) :
  tame (annotate_draw E image_path text font_path).
Proof.
  unfold annotate_draw, image_open.
  apply tame_bind.
  { apply tame_bind; [apply tame_stat | intros; apply tame_lift]. }
  intros size. apply tame_bind; [apply tame_choose_font|]. intros font.
  apply tame_bind.
  { apply tame_try_except.
    - apply tame_bind; [apply tame_lift|].
      intros [[[x0 y0] x1] y1]. apply tame_ret.
    - intros; apply tame_lift. }
  intros ts. apply tame_bind; [apply tame_check|]. intros _.
  apply tame_bind; [apply tame_check|]. intros _.
  apply tame_bind; [apply tame_image_save | intros; apply tame_ret].
Qed.

(** Missing fonts alone never fail the choice of a font: with the built-in
    font at hand, [choose_font] returns one whatever [truetype] does. *)
Lemma choose_font_falls_back (E : env) (font_path : option string)
    (size : Z) (w : world) :
  pil_load_default E = None ->
  exists f, choose_font E font_path size w = (Return f, w).
Proof.
  intros D. unfold choose_font, try_truetype, try_except, bind, check.
  rewrite D.
  destruct (truthy font_path); [destruct font_path as [p|]|].
  - destruct (pil_truetype E p size); cbn.
    + destruct (pil_truetype E common_font size); cbn;
        eexists; reflexivity.
    + eexists; reflexivity.
  - destruct (pil_truetype E common_font size); cbn; eexists; reflexivity.
  - destruct (pil_truetype E common_font size); cbn; eexists; reflexivity.
Qed.

(** The guarded drawing returns a boolean; [False] comes with a line on the
    console. *)
Lemma annotate_guarded_returns (E : env) (image_path text : string)
    (font_path : option string) (w : world) :
  exists b : bool,
    fst (annotate_guarded E image_path text font_path w) = Return b /\
    (b = false ->
     exists msg rest,
       w_trace (snd (annotate_guarded E image_path text font_path w))
       = Print msg :: rest).
Proof.
  unfold annotate_guarded, try_except.
  pose proof (tame_annotate_draw E image_path text font_path w) as T.
  destruct (annotate_draw E image_path text font_path w) as [[b|e] w'] eqn:R.
  - exists b. split; [reflexivity|]. intros ->.
    (* the drawing itself only ever returns [True] *)
    exfalso. revert R. unfold annotate_draw, bind.
    repeat match goal with
           | |- context [match ?c ?x with _ => _ end] =>
               destruct (c x) as [[?|?] ?]
           end; discriminate.
  - rewrite (T e eq_refl). exists false. split; [reflexivity|].
    intros _. cbn. eauto.
Qed.

(** capture_pi4.py: on every input and in every world the annotator returns
    a boolean, and [False] comes with a line on the console. *)
Theorem annotate_pi4_returns
    (E : env) (image_path : string) (text font_path : option string)
    (w : world) :
  exists b : bool,
    fst (CapturePi4._annotate_image_with_timestamp E image_path text
           font_path w) = Return b /\
    (b = false ->
     exists msg rest,
       w_trace (snd (CapturePi4._annotate_image_with_timestamp E image_path
                       text font_path w))
       = Print msg :: rest).
Proof.
  unfold CapturePi4._annotate_image_with_timestamp.
  destruct (PIL_AVAILABLE E); cbn [negb].
  - destruct text as [t|].
    + apply (annotate_guarded_returns E image_path t font_path w).
    + unfold bind at 1. cbn [now bind ret fst snd].
      apply (annotate_guarded_returns E image_path _ font_path (tick w)).
  - exists false. split; [reflexivity|]. intros _. cbn. eauto.
Qed.

(** cap_pi6.py, called with a text: the same. *)
Theorem annotate_pi6_returns_given_text
    (E : env) (image_path text : string) (font_path : option string)
    (w : world) :
  exists b : bool,
    fst (CapPi6._annotate_image_with_timestamp E image_path (Some text)
           font_path w) = Return b.
Proof.
  unfold CapPi6._annotate_image_with_timestamp.
  unfold bind at 1. cbn [print emit fst snd].
  destruct (PIL_AVAILABLE E); cbn [negb].
  - unfold bind at 1. cbn [ret].
    destruct (annotate_guarded_returns E image_path text font_path
                (log (Print "Starting Annotate and manipulate subroutine") w))
      as (b & R & _).
    now exists b.
  - now exists false.
Qed.

(** C3 (defect).  cap_pi6.py, called without a text (the default of the
    parameter) where Pillow is installed: the annotator reads [args.debug],
    a name that only [main] has, outside the [try:], and the [NameError]
    leaves the function.  capture_pi4.py returns [True] on the same input. *)
Theorem annotate_pi6_raises_without_text :
  PIL_AVAILABLE env_ok = true /\
  fst (CapPi6._annotate_image_with_timestamp env_ok "./images/a.jpg"
         None None w_three)
    = Raise (error NameError "name 'args' is not defined") /\
  fst (CapturePi4._annotate_image_with_timestamp env_ok "./images/a.jpg"
         None None w_three)
    = Return true.
Proof. repeat split; vm_compute; reflexivity. Qed.

(** The same in every world: without a text and with Pillow installed,
    cap_pi6.py's annotator raises. *)
Lemma annotate_pi6_needs_text (E : env) (image_path : string)
    (font_path : option string) (w : world) :
  PIL_AVAILABLE E = true ->
  fst (CapPi6._annotate_image_with_timestamp E image_path None font_path w)
  = Raise (error NameError "name 'args' is not defined").
Proof.
  intros P. unfold CapPi6._annotate_image_with_timestamp.
  rewrite P. reflexivity.
Qed.

(* ================================================================= *)
(** * The names of a series *)

Lemma is_digits_app (a b : string) :
  is_digits (a ++ b) = is_digits a && is_digits b.
Proof.
  induction a as [|c a IH]; simpl; [reflexivity|].
  now rewrite IH, andb_assoc.
Qed.

Lemma is_digits_zeros (k : nat) : is_digits (zeros k) = true.
Proof. induction k as [|k IH]; [reflexivity | exact IH]. Qed.

Lemma is_digits_uint (d : uint) :
  is_digits (NilEmpty.string_of_uint d) = true.
Proof. induction d; simpl; auto. Qed.

Lemma is_digits_fmt_d (w n : nat) : is_digits (fmt_d w n) = true.
Proof.
  unfold fmt_d, zfill, str.
  now rewrite is_digits_app, is_digits_zeros, is_digits_uint.
Qed.

(** The digits in front of the first underscore are determined. *)
Lemma digits_before_underscore (a b x y : string) :
  is_digits a = true -> is_digits b = true ->
  a ++ String "_" x = b ++ String "_" y -> a = b.
Proof.
  revert b. induction a as [|c a IH]; intros [|c' b] Ha Hb H;
    simpl in *.
  - reflexivity.
  - injection H as <- _. discriminate Hb.
  - injection H as -> _. discriminate Ha.
  - injection H as -> H.
    apply andb_prop in Ha, Hb. destruct Ha as [_ Ha], Hb as [_ Hb].
    now rewrite (IH b Ha Hb H).
Qed.

Lemma no_slash_digits (s : string) : is_digits s = true -> has_slash s = false.
Proof.
  induction s as [|c s IH]; simpl; [reflexivity|].
  intros H. apply andb_prop in H. destruct H as [Hc Hs].
  rewrite (IH Hs), orb_false_r. unfold is_slash.
  destruct (Ascii.eqb_spec c "/") as [->|]; [discriminate Hc | reflexivity].
Qed.

Lemma no_slash_substring (k : nat) (s : string) :
  has_slash s = false -> has_slash (substring 0 k s) = false.
Proof.
  revert k. induction s as [|c s IH]; intros [|k] H; simpl in *; try reflexivity.
  apply orb_false_elim in H. destruct H as [Hc Hs].
  now rewrite Hc, (IH k Hs).
Qed.

Lemma no_slash_strftime_compact (d : datetime) :
  has_slash (strftime_compact d) = false.
Proof.
  unfold strftime_compact.
  rewrite !has_slash_app, !(no_slash_digits _ (is_digits_fmt_d _ _)).
  reflexivity.
Qed.

(** The file name of a frame, for a stamp without a slash: no slash in it,
    and not empty. *)
Lemma frame_name_relative (i : nat) (ts : string) :
  has_slash ts = false ->
  has_slash (("img" ++ fmt_d 4 i) ++ "_" ++ ts ++ ".jpg") = false /\
  ("img" ++ fmt_d 4 i) ++ "_" ++ ts ++ ".jpg" <> EmptyString.
Proof.
  intros H. split; [|discriminate].
  rewrite !has_slash_app, H, (no_slash_digits _ (is_digits_fmt_d 4 i)).
  reflexivity.
Qed.

(** Two frames of one directory with the same path have the same number,
    whatever their stamps. *)
Lemma frame_name_inj (outdir : string) (i j : nat) (ts1 ts2 : string) :
  os_path_join outdir (("img" ++ fmt_d 4 i) ++ "_" ++ ts1 ++ ".jpg")
  = os_path_join outdir (("img" ++ fmt_d 4 j) ++ "_" ++ ts2 ++ ".jpg") ->
  i = j.
Proof.
  intros H. apply os_path_join_inj in H; [|reflexivity|reflexivity].
  rewrite !append_assoc in H. apply append_inv_head in H.
  apply digits_before_underscore in H; try apply is_digits_fmt_d.
  now apply fmt_d_inj in H.
Qed.

Lemma series_length (name : string -> datetime -> string) (i : nat)
    (s : list datetime) :
  List.length (series name i s) = List.length s.
Proof.
  unfold series. rewrite length_map, length_combine, length_seq. lia.
Qed.

Section Series.
Variable outdir : string.
Variable stamp : datetime -> string.

Local Notation "'name'" := (frame_path outdir stamp).

Lemma series_cons (i : nat) (d : datetime) (s : list datetime) :
  series name i (d :: s)
  = name ("img" ++ fmt_d 4 i) d :: series name (S i) s.
Proof. reflexivity. Qed.

Lemma series_from (i : nat) (s : list datetime) (p : string) :
  In p (series name i s) ->
  exists j d, i <= j /\ p = name ("img" ++ fmt_d 4 j) d.
Proof.
  revert i. induction s as [|d s IH]; intros i; [intros []|].
  rewrite series_cons. intros [<-|H].
  - exists i, d. split; [lia | reflexivity].
  - destruct (IH (S i) H) as (j & d' & Hj & ->).
    exists j, d'. split; [lia | reflexivity].
Qed.

(** The paths of a series are all different: the frame number is part of
    each. *)
Lemma series_NoDup (i : nat) (s : list datetime) : NoDup (series name i s).
Proof.
  revert i. induction s as [|d s IH]; intros i; [constructor|].
  rewrite series_cons. constructor; [|apply IH].
  intros H. apply series_from in H. destruct H as (j & d' & Hj & H).
  unfold frame_path in H. apply frame_name_inj in H. lia.
Qed.

End Series.

(* ================================================================= *)
(** * A directory that is ready for a series *)

Lemma is_entry_join (d outdir n : string) :
  outdir <> EmptyString -> has_slash n = false -> n <> EmptyString ->
  is_entry d (os_path_join outdir n)
  = (dir_prefix d =? dir_prefix outdir).
Proof.
  intros Hne Hs Hn.
  rewrite os_path_join_relative by now apply no_slash_relative.
  destruct (String.eqb_spec outdir ""); [contradiction|].
  unfold is_entry, entry_name.
  destruct (String.eqb_spec (dir_prefix d) (dir_prefix outdir)) as [->|Hd].
  - rewrite strip_prefix_app, Hs. cbn [orb].
    now destruct (String.eqb_spec n "").
  - destruct (strip_prefix (dir_prefix d) (dir_prefix outdir ++ n))
      as [m|] eqn:P; [|reflexivity].
    destruct (has_slash m) eqn:Sm; [reflexivity|]. cbn [orb].
    apply strip_prefix_sound in P. symmetry in P.
    apply split_at_last_slash in P;
      try apply endswith_dir_prefix; try assumption.
    destruct P as [P _]. congruence.
Qed.

Lemma has_slash_join (outdir n : string) :
  outdir <> EmptyString -> has_slash n = false ->
  has_slash (os_path_join outdir n) = true.
Proof.
  intros Hne Hs. rewrite os_path_join_relative by now apply no_slash_relative.
  destruct (String.eqb_spec outdir ""); [contradiction|].
  rewrite has_slash_app, (endswith_has_slash _ (endswith_dir_prefix outdir)).
  reflexivity.
Qed.

Lemma can_create_join (w : world) (outdir n : string) :
  outdir <> EmptyString -> has_slash n = false -> n <> EmptyString ->
  can_create w (os_path_join outdir n) =
  match find_file w (os_path_join outdir n) with
  | Some _ => Return tt
  | None =>
      match find_dir w outdir with
      | None =>
          if blocked w (os_path_join outdir n)
          then Raise (error NotADirectoryError "Not a directory")
          else Raise (error FileNotFoundError "No such file or directory")
      | Some x =>
          if d_writable x then Return tt
          else Raise (error PermissionError "Permission denied")
      end
  end.
Proof.
  intros Hne Hs Hn. unfold can_create, find_dir.
  rewrite (has_slash_join outdir n Hne Hs).
  rewrite (find_ext _ (fun x => dir_prefix (d_path x) =? dir_prefix outdir));
    [reflexivity|].
  intros x. now apply is_entry_join.
Qed.

(** In a directory that can be written to, an entry can be written. *)
Lemma can_create_join_writable (w : world) (outdir n : string) (x : dir) :
  outdir <> EmptyString -> has_slash n = false -> n <> EmptyString ->
  find_dir w outdir = Some x -> d_writable x = true ->
  can_create w (os_path_join outdir n) = Return tt.
Proof.
  intros Hne Hs Hn Hx Hw.
  rewrite (can_create_join w outdir n Hne Hs Hn), Hx, Hw.
  now destruct (find_file w _).
Qed.

Lemma ready_stable (outdir : string) (w w' : world) :
  quiet_step w w' -> ready w outdir -> ready w' outdir.
Proof.
  intros (D & H & _) (Hne & Hh & x & Hx & Hr & Hw).
  split; [exact Hne|]. split; [auto|].
  exists x. unfold find_dir in *. now rewrite D.
Qed.

(** In a healthy world every listed entry has a [stat]. *)
Lemma names_in_source (d : string) (fs : list file) (n : string) :
  In n (names_in d fs) ->
  exists f, In f fs /\ entry_name d (f_path f) = Some n.
Proof.
  induction fs as [|f fs IH]; simpl; [easy|].
  destruct (entry_name d (f_path f)) as [m|] eqn:Em.
  - intros [<-|H].
    + exists f. split; [now left | exact Em].
    + destruct (IH H) as (g & Hg & Eg). exists g. split; [now right | exact Eg].
  - intros H. destruct (IH H) as (g & Hg & Eg).
    exists g. split; [now right | exact Eg].
Qed.

Lemma listed_has_stat (w : world) (outdir n : string) :
  outdir <> EmptyString -> healthy w = true ->
  In n (names_in outdir (w_files w)) -> has_stat w outdir n = true.
Proof.
  intros Hne Hh Hin.
  pose proof (names_in_no_slash _ _ _ Hin) as Hs.
  destruct (names_in_source _ _ _ Hin) as (f & Hf & En).
  unfold entry_name in En.
  destruct (strip_prefix (dir_prefix outdir) (f_path f)) as [m|] eqn:P;
    [|discriminate].
  destruct (has_slash m || (m =? "")); [discriminate|].
  injection En as ->. apply strip_prefix_sound in P.
  unfold has_stat, stat_of, find_file.
  rewrite os_path_join_relative by now apply no_slash_relative.
  destruct (String.eqb_spec outdir ""); [contradiction|].
  destruct (find (fun g => f_path g =? dir_prefix outdir ++ n) (w_files w))
    as [g|] eqn:F.
  - apply find_some in F. destruct F as [Hg _].
    unfold healthy in Hh. rewrite forallb_forall in Hh.
    specialize (Hh g Hg). now destruct (f_stat g).
  - apply (find_none _ _ F) in Hf. rewrite P, String.eqb_refl in Hf.
    discriminate.
Qed.

Lemma sorted_entries_ready (w : world) (outdir : string) :
  ready w outdir -> exists l, fst (sorted_entries outdir w) = Return l.
Proof.
  intros (Hne & Hh & x & Hx & Hr & _).
  rewrite sorted_entries_run, scan_media_run. unfold os_listdir.
  destruct (String.eqb_spec outdir ""); [contradiction|].
  rewrite Hx, Hr. cbn [fst].
  assert (St : forallb (has_stat w outdir)
                 (filter is_media (names_in outdir (w_files w))) = true).
  { apply forallb_forall. intros fn Hin. apply filter_In in Hin.
    now apply listed_has_stat. }
  rewrite St. eexists; reflexivity.
Qed.

(* ================================================================= *)
(** * Computations that return *)

Lemma sleep_ns_nonneg (i : pyfloat) : (0 <= fst i)%Z -> (0 <= sleep_ns i)%Z.
Proof.
  intros Hi. unfold sleep_ns. cbv zeta.
  destruct (Z.leb_spec 0 (fst i * 10 ^ 9)); [|lia].
  apply Z.div_pos; lia.
Qed.

(** A pause that can be taken is not refused. *)
Lemma sleepable_no_error (E : env) (i : pyfloat) (w : world) :
  sleepable E i -> sleep_error E i w = None.
Proof.
  intros (Hi & Hn & Hm). pose proof (sleep_ns_nonneg i Hi) as H0.
  specialize (Hm (w_tick w)). unfold sleep_error. cbv zeta.
  destruct (Z.ltb_spec (sleep_ns i) (- 2 ^ 63)); [lia|].
  destruct (Z.leb_spec (2 ^ 63) (sleep_ns i)); [lia|]. cbn [orb].
  destruct (Z.ltb_spec (sleep_ns i) 0); [lia|].
  destruct (Z.leb_spec (2 ^ 63) (env_monotonic E (w_tick w) + sleep_ns i));
    [lia | reflexivity].
Qed.

Lemma five_seconds_sleepable (E : env) :
  (forall k, env_monotonic E k = env_monotonic env_ok k) ->
  sleepable E five_seconds.
Proof.
  intros H. split; [cbv; discriminate|]. split; [reflexivity|].
  intros k. rewrite H. change (sleep_ns five_seconds) with 5000000000%Z.
  cbn [env_monotonic env_ok]. lia.
Qed.

Section ReturnsOn.
Variable P : world -> Prop.
Hypothesis P_stable : forall w w', quiet_step w w' -> P w -> P w'.

Lemma returns_on_ret {A : Type} (a : A) : returns_on P (ret a).
Proof. intros w _. now exists a. Qed.

Lemma returns_on_bind {A B : Type} (c : M A) (k : A -> M B) :
  quiet c -> returns_on P c -> (forall a, returns_on P (k a)) ->
  returns_on P (bind c k).
Proof.
  intros Qc Rc Rk w Pw. destruct (Rc w Pw) as [a Ha].
  specialize (Qc w). unfold bind.
  destruct (c w) as [[a'|e] w']; cbn [fst snd] in *; [|discriminate].
  apply Rk. now apply (P_stable w).
Qed.

Lemma returns_on_print (s : string) : returns_on P (print s).
Proof. intros w _. now exists tt. Qed.

Lemma returns_on_print2 (a b : string) : returns_on P (print2 a b).
Proof. intros w _. now exists tt. Qed.

Lemma returns_on_now (E : env) : returns_on P (now E).
Proof. intros w _. eexists; reflexivity. Qed.

Lemma returns_on_sleep (E : env) (i : pyfloat) :
  sleepable E i ->
  (forall k, env_interrupt E k = false) -> returns_on P (sleep E i).
Proof.
  intros Hi H w _. unfold sleep.
  rewrite (sleepable_no_error E i w Hi), H. now exists tt.
Qed.

End ReturnsOn.

Lemma returns_on_build_index (E : env) (head : string -> list string)
    (fixed : list string) (outdir title : string) :
  returns_on (fun w => ready w outdir)
             (build_index E head fixed outdir title).
Proof.
  intros w R. rewrite build_index_run.
  destruct (sorted_entries_ready w outdir R) as [l ->]. cbv zeta.
  destruct (can_create w _); eexists; reflexivity.
Qed.

Lemma quiet_annotate_pi4 (E : env) (p : string) (text font : option string) :
  quiet (CapturePi4._annotate_image_with_timestamp E p text font).
Proof.
  unfold CapturePi4._annotate_image_with_timestamp.
  destruct (negb (PIL_AVAILABLE E)).
  - apply quiet_bind; [apply quiet_print | intros; apply quiet_ret].
  - apply quiet_bind; [|intros; apply quiet_annotate_guarded].
    destruct text; [apply quiet_ret|].
    apply quiet_bind; [apply quiet_now | intros; apply quiet_ret].
Qed.

Lemma quiet_annotate_pi6 (E : env) (p : string) (text font : option string) :
  quiet (CapPi6._annotate_image_with_timestamp E p text font).
Proof.
  unfold CapPi6._annotate_image_with_timestamp.
  apply quiet_bind; [apply quiet_print|]. intros _.
  destruct (negb (PIL_AVAILABLE E)).
  - apply quiet_bind; [apply quiet_print | intros; apply quiet_ret].
  - apply quiet_bind; [|intros; apply quiet_annotate_guarded].
    destruct text; [apply quiet_ret|].
    apply quiet_bind; [apply quiet_now|]. intros d.
    apply quiet_bind; [apply quiet_raise|]. intros b.
    apply quiet_bind; [|intros; apply quiet_ret].
    destruct b; [apply quiet_print | apply quiet_ret].
Qed.

(* ================================================================= *)
(** * One frame of a series *)

Lemma capture_file_run (E : env) (outdir n : string) (w : world) :
  ready w outdir -> has_slash n = false -> n <> EmptyString ->
  capture_file E (os_path_join outdir n) w =
  (Return tt,
   tick (log (Capture (os_path_join outdir n))
          (set_files
             (put_file (os_path_join outdir n)
                       (env_mtime E (w_tick w), env_size E (w_tick w))
                       (w_files w)) w))).
Proof.
  intros (Hne & _ & x & Hx & _ & Hw) Hs Hn. unfold capture_file.
  now rewrite (can_create_join_writable w outdir n x Hne Hs Hn Hx Hw).
Qed.

Lemma ready_after_capture (E : env) (outdir p : string) (st : Z * N)
    (w : world) :
  ready w outdir ->
  ready (tick (log (Capture p) (set_files (put_file p st (w_files w)) w)))
        outdir.
Proof.
  intros (Hne & Hh & x & Hx & Hr & Hw). split; [exact Hne|]. split.
  - unfold healthy. cbn [w_files tick log set_files].
    now apply healthy_put_file.
  - exists x. now split.
Qed.

(** A frame: read the clock, capture to the path made from the reading,
    then something that captures nothing and returns.  It returns, the
    world stays ready, and there is one capture more: the frame's. *)
Lemma frame_step (E : env) (outdir : string) (stamp : datetime -> string)
    (i : nat) (rest : datetime -> M unit) (w : world) :
  ready w outdir ->
  (forall d, has_slash (stamp d) = false) ->
  (forall d, quiet (rest d)) ->
  (forall d, returns_on (fun w => ready w outdir) (rest d)) ->
  exists (d : datetime) (w' : world),
    (d <- now E ;;
     capture_file E (frame_path outdir stamp ("img" ++ fmt_d 4 i) d) ;;
     rest d) w = (Return tt, w') /\
    ready w' outdir /\
    captures (w_trace w')
    = (captures (w_trace w)
       ++ [frame_path outdir stamp ("img" ++ fmt_d 4 i) d])%list /\
    (forall q, has_file w q = true -> has_file w' q = true) /\
    has_file w' (frame_path outdir stamp ("img" ++ fmt_d 4 i) d) = true.
Proof.
  intros R Hst Qr Rr.
  set (d := env_now E (w_tick w)).
  set (p := frame_path outdir stamp ("img" ++ fmt_d 4 i) d).
  destruct (frame_name_relative i (stamp d) (Hst d)) as [Hs Hn].
  assert (R1 : ready (tick w) outdir)
    by exact (ready_stable outdir _ _ (quiet_step_tick w) R).
  set (w2 := tick (log (Capture p)
                     (set_files
                        (put_file p (env_mtime E (w_tick (tick w)),
                                     env_size E (w_tick (tick w)))
                                  (w_files (tick w))) (tick w)))).
  assert (R2 : ready w2 outdir) by now apply ready_after_capture.
  destruct (Rr d w2 R2) as [[] Hret].
  pose proof (Qr d w2) as (D3 & H3 & F3 & new & T3 & C3).
  exists d, (snd (rest d w2)).
  assert (Run : (d <- now E ;;
                 capture_file E
                   (frame_path outdir stamp ("img" ++ fmt_d 4 i) d) ;;
                 rest d) w = (Return tt, snd (rest d w2))).
  { unfold bind at 1. cbn [now]. fold d. unfold bind.
    unfold frame_path at 1.
    rewrite (capture_file_run E outdir _ (tick w) R1 Hs Hn).
    fold (frame_path outdir stamp ("img" ++ fmt_d 4 i) d). fold p. fold w2.
    destruct (rest d w2) as [r w3]. cbn [fst snd] in *. now subst r. }
  split; [exact Run|].
  split; [exact (ready_stable outdir _ _ (Qr d w2) R2)|].
  split.
  { rewrite T3, captures_app, C3, app_nil_r. reflexivity. }
  split.
  - intros q Hq. apply F3.
    exact (has_file_put_file p q
             (env_mtime E (w_tick (tick w)), env_size E (w_tick (tick w)))
             (tick w) Hq).
  - apply F3. unfold w2, has_file, find_file.
    cbn [w_files tick log set_files]. now rewrite find_put_file_same.
Qed.

(* ================================================================= *)
(** * The loop of a timed series *)

Section Loop.
Variable outdir : string.
Variable stamp : datetime -> string.
Variable n : Z.
Variable step : nat -> M unit.
Variable loop : nat -> nat -> world -> option (outcome unit * world).

Hypothesis loop_eq : forall fuel i w,
  loop fuel i w =
  if (Z.of_nat i <? n)%Z then
    match fuel with
    | O => None
    | S fuel' =>
        match step i w with
        | (Return _, w') => loop fuel' (S i) w'
        | (Raise e, w') => Some (Raise e, w')
        end
    end
  else Some (Return tt, w).

Hypothesis step_ok : forall i w,
  ready w outdir ->
  exists (d : datetime) (w' : world),
    step i w = (Return tt, w') /\
    ready w' outdir /\
    captures (w_trace w')
    = (captures (w_trace w)
       ++ [frame_path outdir stamp ("img" ++ fmt_d 4 i) d])%list /\
    (forall q, has_file w q = true -> has_file w' q = true) /\
    has_file w' (frame_path outdir stamp ("img" ++ fmt_d 4 i) d) = true.

(** With [k] frames to go and at least [k] turns allowed, the loop returns
    after capturing the [k] frames. *)
Lemma loop_runs (k i : nat) (w : world) :
  ready w outdir -> i + k = Z.to_nat n ->
  exists (stamps : list datetime) (w' : world),
    List.length stamps = k /\
    (forall fuel, k <= fuel -> loop fuel i w = Some (Return tt, w')) /\
    ready w' outdir /\
    captures (w_trace w')
    = (captures (w_trace w) ++ series (frame_path outdir stamp) i stamps)%list
    /\
    (forall q, has_file w q = true -> has_file w' q = true) /\
    Forall (fun p => has_file w' p = true)
           (series (frame_path outdir stamp) i stamps).
Proof.
  revert i w. induction k as [|k IH]; intros i w R Hk.
  - exists [], w. split; [reflexivity|]. split.
    { intros fuel _. rewrite loop_eq.
      replace (Z.of_nat i <? n)%Z with false; [reflexivity|].
      symmetry. apply Z.ltb_ge. lia. }
    split; [exact R|]. split; [now rewrite app_nil_r|].
    split; [auto | constructor].
  - destruct (step_ok i w R) as (d & w1 & S1 & R1 & C1 & F1 & H1).
    destruct (IH (S i) w1 R1 ltac:(lia))
      as (stamps & w' & L & Run & R' & C' & F' & H').
    exists (d :: stamps), w'. split; [simpl; now rewrite L|]. split.
    { intros [|fuel] Hf; [lia|]. rewrite loop_eq.
      replace (Z.of_nat i <? n)%Z with true;
        [|symmetry; apply Z.ltb_lt; lia].
      rewrite S1. apply Run. lia. }
    split; [exact R'|]. split.
    { rewrite C', C1, series_cons, <- app_assoc. reflexivity. }
    split; [auto|].
    rewrite series_cons. constructor; [now apply F' | exact H'].
Qed.

End Loop.

(** [ensure_outdir] leaves a usable directory as it is, and ready. *)
Lemma ensure_outdir_run (outdir : string) (w : world) :
  usable w outdir -> healthy w = true ->
  exists w1,
    ensure_outdir outdir w = (Return tt, w1) /\
    ready w1 outdir /\
    w_trace w1 = w_trace w /\ w_files w1 = w_files w.
Proof.
  intros (Hne & _ & x & Hx & Hr & Hw) Hh. unfold ensure_outdir.
  destruct (String.eqb_spec outdir ""); [contradiction|].
  rewrite Hx. exists w. repeat split; try assumption. now exists x.
Qed.

(** The sample directory [./images], when it is there. *)
Lemma images_usable (w : world) :
  find_dir w "./images" = Some (mkDir "./images" true true) ->
  file_at w "./images" = false ->
  usable w "./images".
Proof.
  intros Hd Hf. split; [discriminate|]. split; [exact Hf|].
  exists (mkDir "./images" true true). now repeat split.
Qed.

Lemma ready_is_stable (outdir : string) :
  forall w w', quiet_step w w' -> ready w outdir -> ready w' outdir.
Proof. intros w w'. apply ready_stable. Qed.

(** ** capture_pi4.py *)

Lemma pi4_step_ok (E : env) (outdir : string) (interval : pyfloat)
    (build_index : bool) (index_title : string) (i : nat) (w : world) :
  sleepable E interval ->
  (forall k, env_interrupt E k = false) ->
  ready w outdir ->
  exists (d : datetime) (w' : world),
    CapturePi4.timelapse_step E outdir interval build_index index_title i w
      = (Return tt, w') /\
    ready w' outdir /\
    captures (w_trace w')
    = (captures (w_trace w)
       ++ [frame_path outdir (fun d => drop_last 3 (strftime_compact d))
             ("img" ++ fmt_d 4 i) d])%list /\
    (forall q, has_file w q = true -> has_file w' q = true) /\
    has_file w' (frame_path outdir
                   (fun d => drop_last 3 (strftime_compact d))
                   ("img" ++ fmt_d 4 i) d) = true.
Proof.
  intros Hi NoInt R.
  apply (frame_step E outdir (fun d => drop_last 3 (strftime_compact d)) i
           (fun d =>
              let fname :=
                CapturePi4.timestamped_filename outdir ("img" ++ fmt_d 4 i)
                  "jpg" d in
              d0 <- now E ;;
              let ts_text := strftime_human d0 in
              annotated <- CapturePi4._annotate_image_with_timestamp E fname
                             (Some ts_text) None ;;
              (if annotated then
                 print ("[" ++ str (i + 1) ++ "] Annotated with timestamp: "
                        ++ ts_text)
               else ret tt) ;;
              print ("[" ++ str (i + 1) ++ "] Saved: " ++ fname) ;;
              (if build_index then
                 _ <- CapturePi4.build_index_html E outdir index_title ;;
                 ret tt
               else ret tt) ;;
              sleep E interval) w R).
  - intros d. apply no_slash_substring, no_slash_strftime_compact.
  - intros d. cbv zeta.
    apply quiet_bind; [apply quiet_now|]. intros d0.
    apply quiet_bind; [apply quiet_annotate_pi4|]. intros b.
    apply quiet_bind; [destruct b; [apply quiet_print | apply quiet_ret]|].
    intros _. apply quiet_bind; [apply quiet_print|]. intros _.
    apply quiet_bind; [|intros; apply quiet_sleep].
    destruct build_index; [|apply quiet_ret].
    apply quiet_bind; [apply quiet_build_index | intros; apply quiet_ret].
  - intros d. cbv zeta. pose proof (ready_is_stable outdir) as St.
    apply returns_on_bind;
      [exact St | apply quiet_now | apply returns_on_now |].
    intros d0. apply returns_on_bind;
      [exact St | apply quiet_annotate_pi4 | |].
    { intros w0 _.
      destruct (annotate_pi4_returns E
                  (CapturePi4.timestamped_filename outdir
                     ("img" ++ fmt_d 4 i) "jpg" d)
                  (Some (strftime_human d0)) None w0) as (b & Hb & _).
      now exists b. }
    intros b. apply returns_on_bind; [exact St | | |].
    { destruct b; [apply quiet_print | apply quiet_ret]. }
    { destruct b; [apply returns_on_print | apply returns_on_ret]. }
    intros _. apply returns_on_bind;
      [exact St | apply quiet_print | apply returns_on_print |].
    intros _. apply returns_on_bind; [exact St | | |].
    { destruct build_index; [|apply quiet_ret].
      apply quiet_bind; [apply quiet_build_index | intros; apply quiet_ret]. }
    { destruct build_index; [|apply returns_on_ret].
      apply returns_on_bind;
        [exact St | apply quiet_build_index | apply returns_on_build_index |].
      intros; apply returns_on_ret. }
    intros _. now apply returns_on_sleep.
Qed.

(** ** cap_pi6.py *)

Lemma pi6_step_ok (E : env) (outdir : string) (interval : pyfloat)
    (i : nat) (w : world) :
  sleepable E interval ->
  (forall k, env_interrupt E k = false) ->
  ready w outdir ->
  exists (d : datetime) (w' : world),
    CapPi6.timelapse_step E outdir interval i w = (Return tt, w') /\
    ready w' outdir /\
    captures (w_trace w')
    = (captures (w_trace w)
       ++ [frame_path outdir strftime_compact ("img" ++ fmt_d 4 i) d])%list /\
    (forall q, has_file w q = true -> has_file w' q = true) /\
    has_file w' (frame_path outdir strftime_compact
                   ("img" ++ fmt_d 4 i) d) = true.
Proof.
  intros Hi NoInt R.
  apply (frame_step E outdir strftime_compact i
           (fun d =>
              let fname :=
                CapPi6.timestamped_filename outdir ("img" ++ fmt_d 4 i)
                  "jpg" d in
              d0 <- now E ;;
              let ts_text := strftime_human d0 in
              annotated <- CapPi6._annotate_image_with_timestamp E fname
                             (Some ts_text) None ;;
              (if annotated then
                 print ("[" ++ str (i + 1) ++ "] Annotated with timestamp: "
                        ++ ts_text)
               else ret tt) ;;
              print ("[" ++ str (i + 1) ++ "] Saved: " ++ fname) ;;
              sleep E interval) w R).
  - intros d. apply no_slash_strftime_compact.
  - intros d. cbv zeta.
    apply quiet_bind; [apply quiet_now|]. intros d0.
    apply quiet_bind; [apply quiet_annotate_pi6|]. intros b.
    apply quiet_bind; [destruct b; [apply quiet_print | apply quiet_ret]|].
    intros _. apply quiet_bind; [apply quiet_print|]. intros _.
    apply quiet_sleep.
  - intros d. cbv zeta. pose proof (ready_is_stable outdir) as St.
    apply returns_on_bind;
      [exact St | apply quiet_now | apply returns_on_now |].
    intros d0. apply returns_on_bind;
      [exact St | apply quiet_annotate_pi6 | |].
    { intros w0 _.
      apply (annotate_pi6_returns_given_text E
               (CapPi6.timestamped_filename outdir ("img" ++ fmt_d 4 i)
                  "jpg" d)
               (strftime_human d0) None w0). }
    intros b. apply returns_on_bind; [exact St | | |].
    { destruct b; [apply quiet_print | apply quiet_ret]. }
    { destruct b; [apply returns_on_print | apply returns_on_ret]. }
    intros _. apply returns_on_bind;
      [exact St | apply quiet_print | apply returns_on_print |].
    intros _. now apply returns_on_sleep.
Qed.



(* ================================================================= *)
(** * Steps that leave the disk alone *)

Lemma mirror_step_refl (w : world) : mirror_step w w.
Proof. split; [apply same_fs_refl | reflexivity]. Qed.

Lemma mirror_step_trans (w1 w2 w3 : world) :
  mirror_step w1 w2 -> mirror_step w2 w3 -> mirror_step w1 w3.
Proof.
  intros [S1 C1] [S2 C2].
  split; [exact (same_fs_trans _ _ _ S1 S2) | congruence].
Qed.

Lemma mirrors_ret {A : Type} (a : A) : mirrors (ret a).
Proof. intros w. apply mirror_step_refl. Qed.

Lemma mirrors_raise {A : Type} (e : exn) : mirrors (@raise A e).
Proof. intros w. apply mirror_step_refl. Qed.

Lemma mirrors_bind {A B : Type} (c : M A) (k : A -> M B) :
  mirrors c -> (forall a, mirrors (k a)) -> mirrors (bind c k).
Proof.
  intros Mc Mk w. unfold bind. specialize (Mc w).
  destruct (c w) as [[a|e] w']; cbn [snd] in *; [|exact Mc].
  exact (mirror_step_trans _ _ _ Mc (Mk a w')).
Qed.

Lemma mirrors_try_except {A : Type} (c : M A) (h : exn_class)
    (k : exn -> M A) :
  mirrors c -> (forall e, mirrors (k e)) -> mirrors (try_except c h k).
Proof.
  intros Mc Mk w. unfold try_except. specialize (Mc w).
  destruct (c w) as [[a|e] w']; cbn [snd] in *; [exact Mc|].
  destruct (subclass (e_class e) h); [|exact Mc].
  exact (mirror_step_trans _ _ _ Mc (Mk e w')).
Qed.

Lemma mirrors_print (s : string) : mirrors (print s).
Proof. intros w. now split. Qed.

Lemma mirrors_print2 (a b : string) : mirrors (print2 a b).
Proof. intros w. now split. Qed.

Lemma mirrors_subprocess_run (E : env) (cmd : list string) :
  mirrors (subprocess_run E cmd).
Proof.
  intros w. unfold subprocess_run.
  destruct (env_run E (w_tick w) cmd) as [[msg err]|]; now split.
Qed.

Lemma mirrors_scp_upload (E : env) (p : string) (c : scp_config) :
  mirrors (_scp_upload E p c).
Proof.
  unfold _scp_upload.
  destruct (negb (env_which E "scp")).
  { apply mirrors_bind; [apply mirrors_print | intros; apply mirrors_ret]. }
  apply mirrors_bind.
  { unfold _ensure_remote_dir. destruct (negb (env_which E "ssh")).
    - apply mirrors_bind; [apply mirrors_print | intros; apply mirrors_ret].
    - apply mirrors_try_except.
      + apply mirrors_bind; [apply mirrors_subprocess_run|].
        intros; apply mirrors_ret.
      + intros e. apply mirrors_bind; [apply mirrors_print2|].
        intros; apply mirrors_ret. }
  intros ok. destruct (negb ok).
  { apply mirrors_bind; [apply mirrors_print | intros; apply mirrors_ret]. }
  apply mirrors_try_except.
  - apply mirrors_bind; [apply mirrors_subprocess_run|]. intros _.
    apply mirrors_bind; [apply mirrors_print | intros; apply mirrors_ret].
  - intros e. apply mirrors_bind.
    { destruct (e_stderr e); [|apply mirrors_ret]. unfold decode_utf8.
      destruct (utf8_valid s); [apply mirrors_ret | apply mirrors_raise]. }
    intros stderr. apply mirrors_bind; [apply mirrors_print2|].
    intros; apply mirrors_ret.
Qed.

(** [_scp_upload] returns a boolean, or raises the [UnicodeDecodeError] of
    what a failing [scp] wrote to its standard error. *)
Lemma scp_upload_outcome (E : env) (p : string) (c : scp_config)
    (w : world) :
  (exists b : bool, fst (_scp_upload E p c w) = Return b) \/
  (exists k cmd msg err,
     env_run E k cmd = Some (msg, err) /\ utf8_valid err = false /\
     fst (_scp_upload E p c w)
     = Raise (error UnicodeDecodeError
                "'utf-8' codec can't decode the bytes")).
Proof.
  destruct (ensure_remote_dir_spec E c w) as (b & w1 & new1 & R & _).
  remember (fst (_scp_upload E p c w)) as r eqn:Q. revert Q.
  unfold _scp_upload. destruct (env_which E "scp"); cbn [negb].
  - unfold bind at 1. rewrite R. destruct b; cbn [negb].
    + unfold try_except, bind, subprocess_run, decode_utf8.
      destruct (env_run E (w_tick w1) _) as [[msg err]|] eqn:Run; msimpl.
      * destruct (utf8_valid err) eqn:U; msimpl; intros ->.
        -- left. eexists; reflexivity.
        -- right. do 4 eexists. split; [exact Run|]. now split.
      * intros ->. left. eexists; reflexivity.
    + intros ->. left. eexists; reflexivity.
  - intros ->. left. eexists; reflexivity.
Qed.

(** [_scp_upload] returns a boolean when what the programs write to their
    standard error can be decoded. *)
Lemma scp_upload_returns (E : env) (p : string) (c : scp_config)
    (w : world) :
  decodes E -> exists b : bool, fst (_scp_upload E p c w) = Return b.
Proof.
  intros D. destruct (scp_upload_outcome E p c w)
    as [H|(k & cmd & msg & err & Run & U & _)]; [exact H|].
  rewrite (D k cmd msg err Run) in U. discriminate U.
Qed.

Lemma scp_upload_run (E : env) (p : string) (c : scp_config) (w : world) :
  decodes E ->
  exists (b : bool) (w' : world),
    _scp_upload E p c w = (Return b, w') /\ mirror_step w w'.
Proof.
  intros D. destruct (scp_upload_returns E p c w D) as [b Hb].
  pose proof (mirrors_scp_upload E p c w) as Hm.
  destruct (_scp_upload E p c w) as [r w']. cbn [fst snd] in *. subst r.
  now exists b, w'.
Qed.

Lemma publish_index_run (E : env) (idx : option string)
    (cfg : option scp_config) (w : world) :
  (configured cfg = true -> decodes E) ->
  exists w', publish_index E idx cfg w = (Return tt, w') /\ mirror_step w w'.
Proof.
  intros D. unfold publish_index.
  destruct (truthy idx && configured cfg) eqn:G.
  - destruct idx as [p|]; [|discriminate G].
    destruct cfg as [c|]; [|now rewrite andb_false_r in G].
    cbn [call_scp_upload]. unfold bind.
    destruct (scp_upload_run E p c w (D eq_refl)) as (b & w' & -> & Hm).
    now exists w'.
  - exists w. split; [reflexivity | apply mirror_step_refl].
Qed.

(** The republish loop with a remote target: it runs to the end and leaves
    [fn] bound to the path of the last entry, if there is an entry. *)
Lemma republish_run (E : env) (outdir : string) (c : scp_config)
    (entries : list string) (fn : option string) (w : world) :
  decodes E ->
  exists w',
    CapPi6.republish E outdir (Some c) entries fn w
    = (Return (match entries with
               | [] => fn
               | _ => Some (outdir ++ "/" ++ last entries EmptyString)
               end), w') /\
    mirror_step w w'.
Proof.
  intros D. revert fn w. induction entries as [|e l IH]; intros fn w.
  - exists w. split; [reflexivity | apply mirror_step_refl].
  - cbn [CapPi6.republish call_scp_upload]. unfold bind.
    destruct (scp_upload_run E (outdir ++ "/" ++ e) c w D)
      as (b & w1 & -> & M1).
    destruct (IH (Some (outdir ++ "/" ++ e)) w1) as (w' & -> & M').
    exists w'. split; [|exact (mirror_step_trans _ _ _ M1 M')].
    destruct l; reflexivity.
Qed.

(** The first two statements of Finalizing: they return when the scan and
    the sort do, and leave the sorted entries and the copies as they were. *)
Lemma build_and_publish_run (E : env) (head : string -> list string)
    (fixed : list string) (outdir title : string)
    (cfg : option scp_config) (w : world) (l : list string) :
  (configured cfg = true -> decodes E) ->
  fst (sorted_entries outdir w) = Return l ->
  exists w',
    build_and_publish E (build_index E head fixed) outdir title cfg w
    = (Return tt, w') /\
    fst (sorted_entries outdir w') = Return l /\
    copied (w_trace w') = copied (w_trace w).
Proof.
  intros D S. unfold build_and_publish, bind.
  pose proof (build_index_keeps_entries E head fixed outdir title w) as K.
  rewrite S in K. revert K. rewrite build_index_run, S. cbv zeta.
  destruct (can_create w (os_path_join outdir "index.html")) as [[]|e];
    cbn [snd]; intros K.
  - destruct (publish_index_run E (Some (os_path_join outdir "index.html"))
                cfg (log (Print ("Built index: "
                                 ++ os_path_join outdir "index.html"))
                         (written E (os_path_join outdir "index.html")
                            (String.concat newline
                               (page_lines E w head fixed outdir title l))
                            w)) D)
      as (w' & -> & [Sf Cp]).
    exists w'. split; [reflexivity|]. split.
    + now rewrite (fs_only_sorted_entries outdir _ _ Sf).
    + exact Cp.
  - destruct (publish_index_run E None cfg
                (log (Print ("Failed to write index.html: " ++ e_msg e)) w) D)
      as (w' & -> & [Sf Cp]).
    exists w'. split; [reflexivity|]. split.
    + now rewrite (fs_only_sorted_entries outdir _ _ Sf).
    + exact Cp.
Qed.

(* ================================================================= *)
(** * Finalizing in cap_pi6.py *)

(** How Finalizing goes on once the entries are sorted. *)
Lemma finalizing_run (E : env) (outdir : string) (cfg : option scp_config)
    (w : world) (l : list string) :
  (configured cfg = true -> decodes E) ->
  fst (sorted_entries outdir w) = Return l ->
  exists w1,
    copied (w_trace w1) = copied (w_trace w) /\
    CapPi6.finalizing E outdir cfg w =
    (fn <- CapPi6.republish E outdir cfg l None ;;
     match fn with
     | None =>
         raise (error UnboundLocalError
                  "local variable 'fn' referenced before assignment")
     | Some fn =>
         shutil_copy2 E fn "thumbnail.jpg" ;;
         _ <- call_scp_upload E "thumbnail.jpg" cfg ;;
         ret tt
     end) w1.
Proof.
  intros D S. unfold CapPi6.finalizing.
  destruct (build_and_publish_run E CapPi6.html_head CapPi6.timelapse_card
              outdir "Owl Box Timelapse Image Index" cfg w l D S)
    as (w1 & B & S1 & C1).
  change (build_index E CapPi6.html_head CapPi6.timelapse_card)
    with (CapPi6.build_index_html E) in B.
  exists w1. split; [exact C1|].
  unfold bind at 1. rewrite B.
  unfold bind at 1. rewrite (run_reads _ w1 (reads_sorted_entries outdir)), S1.
  reflexivity.
Qed.

(** Without a remote target Finalizing never gets to its end. *)
Lemma finalizing_without_remote (E : env) (outdir : string) (w : world) :
  exists e, fst (CapPi6.finalizing E outdir None w) = Raise e.
Proof.
  destruct (fst (sorted_entries outdir w)) as [l|e] eqn:S.
  - destruct (finalizing_run E outdir None w l ltac:(discriminate) S)
      as (w1 & _ & ->).
    destruct l as [|fn l]; eexists; reflexivity.
  - exists e. unfold CapPi6.finalizing, CapPi6.build_index_html,
      build_and_publish, bind.
    now rewrite build_index_run, S.
Qed.

(** C8 (defect).  In cap_pi6.py only the publish of the index is guarded by
    [if ... and scp_config]; the republish loop and the thumbnail step call
    [_scp_upload(..., **scp_config)] whatever [scp_config] is.  So without
    a remote target Finalizing raises in every world, after every capture
    phase, and the process ends with a non-zero status: with a [TypeError]
    as soon as there is a media file, as after the capture of one image
    into a new directory. *)
Theorem finalizing_without_remote_raises :
  (forall (E : env) (capturing : M unit) (outdir : string) (w : world),
     exists e,
       fst (CapPi6.session E capturing outdir None w) = Raise e /\
       (exit_code (fst (CapPi6.session E capturing outdir None w)) =? 0)%Z
       = false) /\
  (let capturing :=
     ensure_outdir "./images" ;;
     d <- now env_ok ;;
     capture_file env_ok
       (CapPi6.timestamped_filename "./images" "image" "jpg" d) in
   fst (capturing w_nothing) = Return tt /\
   captures (w_trace (snd (capturing w_nothing)))
     = ["./images/image_20240101_123400.jpg"] /\
   fst (CapPi6.session env_ok capturing "./images" None w_nothing)
     = Raise (error TypeError
                "_scp_upload() argument after ** must be a mapping, not NoneType")
   /\
   exit_code (fst (CapPi6.session env_ok capturing "./images" None w_nothing))
     = 1%Z).
Proof.
  split.
  - intros E capturing outdir w. unfold CapPi6.session, try_finally.
    destruct (capturing w) as [r w'].
    destruct (finalizing_without_remote E outdir w') as [e He].
    destruct (CapPi6.finalizing E outdir None w') as [r' w''].
    cbn [fst] in He. subst r'. exists e. split; [reflexivity|].
    cbn [fst exit_code]. now destruct (e_class e).
  - cbv zeta. repeat split; vm_compute; reflexivity.
Qed.

(** The last entry of a list sorted newest first is an oldest one. *)
Lemma sorted_last_oldest (w : world) (outdir : string) (l : list string) :
  StronglySorted (newer_or_same w outdir) l ->
  forall x, In x l ->
    (mtime_key w outdir (last l EmptyString) <= mtime_key w outdir x)%Z.
Proof.
  induction l as [|a l IH]; intros S x Hx; [destruct Hx|].
  apply StronglySorted_inv in S. destruct S as [S F].
  destruct l as [|b l].
  - destruct Hx as [<-|[]]. cbn. lia.
  - change (last (a :: b :: l) EmptyString) with (last (b :: l) EmptyString).
    destruct Hx as [<-|Hx]; [|now apply IH].
    rewrite Forall_forall in F. apply F.
    destruct (exists_last (l := b :: l)) as (l' & z & Hz); [discriminate|].
    rewrite Hz, last_last. apply in_or_app. right. now left.
Qed.

(** With a remote target and at least one entry, what is copied to
    [thumbnail.jpg] is the last entry of the list sorted newest first: a
    file that no entry is older than. *)
Lemma thumbnail_source_is_oldest (E : env) (outdir : string)
    (c : scp_config) (w : world) (l : list string) :
  decodes E ->
  fst (sorted_entries outdir w) = Return l -> l <> [] ->
  (exists w2,
     copied (w_trace w2) = copied (w_trace w) /\
     CapPi6.finalizing E outdir (Some c) w =
     (shutil_copy2 E (outdir ++ "/" ++ last l EmptyString) "thumbnail.jpg" ;;
      _ <- call_scp_upload E "thumbnail.jpg" (Some c) ;;
      ret tt) w2) /\
  forall x, In x l ->
    (mtime_key w outdir (last l EmptyString) <= mtime_key w outdir x)%Z.
Proof.
  intros D S Hl. split.
  - destruct (finalizing_run E outdir (Some c) w l (fun _ => D) S)
      as (w1 & C1 & ->).
    destruct (republish_run E outdir c l None w1 D) as (w2 & R & [_ C2]).
    exists w2. split; [congruence|].
    unfold bind at 1. rewrite R. now destruct l.
  - apply sorted_last_oldest. now apply sorted_entries_sorted.
Qed.

(** C9 (defect).  The comment in cap_pi6.py announces a thumbnail of the
    last image, and the step copies [fn], the variable the republish loop
    leaves behind: the last entry of a list sorted newest first.  With
    [a.jpg] and, captured after it, [b.jpg] on disk, Finalizing returns and
    [thumbnail.jpg] is a copy of [a.jpg], the oldest file, not of the most
    recent one. *)
Theorem thumbnail_is_copy_of_oldest :
  fst (sorted_entries "./images" w_two) = Return ["b.jpg"; "a.jpg"] /\
  mtime_key w_two "./images" "b.jpg" = 200%Z /\
  mtime_key w_two "./images" "a.jpg" = 100%Z /\
  fst (CapPi6.finalizing env_ok "./images" (Some remote) w_two) = Return tt /\
  copied (w_trace (snd (CapPi6.finalizing env_ok "./images" (Some remote)
                          w_two)))
    = [("./images/a.jpg", "thumbnail.jpg")] /\
  uploaded (w_trace (snd (CapPi6.finalizing env_ok "./images" (Some remote)
                            w_two)))
    = ["thumbnail.jpg"; "./images/a.jpg"; "./images/b.jpg";
       "./images/index.html"].
Proof. repeat split; vm_compute; reflexivity. Qed.



(* ================================================================= *)
(** * More on names *)

Lemma substring_prefix (a b : string) :
  substring 0 (String.length a) (a ++ b) = a.
Proof.
  induction a as [|c a IH]; simpl; [now destruct b | now rewrite IH].
Qed.

(** [(a + b)[:-n]] is [a] when [b] has [n] characters. *)
Lemma drop_last_app (n : nat) (a b : string) :
  String.length b = n -> drop_last n (a ++ b) = a.
Proof.
  intros <-. unfold drop_last. rewrite length_append.
  replace (String.length a + String.length b - String.length b)
    with (String.length a) by lia.
  apply substring_prefix.
Qed.

Lemma fmt_d_2_digits (n : nat) :
  n < 100 -> fmt_d 2 n = fmt_d 1 (n / 10) ++ fmt_d 1 (n mod 10).
Proof.
  intros H.
  assert (A : forallb (fun k => fmt_d 2 k =? fmt_d 1 (k / 10) ++ fmt_d 1 (k mod 10))
                      (seq 0 100) = true) by (vm_compute; reflexivity).
  rewrite forallb_forall in A. apply String.eqb_eq, A, in_seq. lia.
Qed.

Lemma length_fmt_d_1 (n : nat) : n < 10 -> String.length (fmt_d 1 n) = 1.
Proof.
  intros H.
  assert (A : forallb (fun k => Nat.eqb (String.length (fmt_d 1 k)) 1)
                      (seq 0 10) = true) by (vm_compute; reflexivity).
  rewrite forallb_forall in A. apply Nat.eqb_eq, A, in_seq. lia.
Qed.

(** What capture_pi4.py keeps of the stamp: the date, the hour, and the
    tens of the minutes. *)
Lemma pi4_stamp (d : datetime) :
  valid_datetime d ->
  drop_last 3 (strftime_compact d)
  = fmt_d 4 (year d) ++ fmt_d 2 (month d) ++ fmt_d 2 (day d) ++ "_" ++
    fmt_d 2 (hour d) ++ fmt_d 1 (minute d / 10).
Proof.
  intros (Hy & Hm & Hd & HH & HM & HS & _).
  transitivity
    (drop_last 3
       ((fmt_d 4 (year d) ++ fmt_d 2 (month d) ++ fmt_d 2 (day d) ++ "_" ++
         fmt_d 2 (hour d) ++ fmt_d 1 (minute d / 10))
        ++ (fmt_d 1 (minute d mod 10) ++ fmt_d 2 (second d)))).
  - f_equal. unfold strftime_compact.
    rewrite (fmt_d_2_digits (minute d)) by lia.
    now rewrite !append_assoc.
  - apply drop_last_app.
    rewrite length_append, length_fmt_d_1, length_fmt_d_2; [reflexivity|lia|].
    apply Nat.mod_upper_bound. discriminate.
Qed.

Lemma startswith_slash_app (a b c : string) :
  startswith_slash (a ++ String "_" b) = startswith_slash (a ++ String "_" c).
Proof. now destruct a. Qed.

(** [os.path.join] with the same directory, on two names that are both
    absolute or both relative. *)
Lemma os_path_join_inj_same (d a b : string) :
  startswith_slash a = startswith_slash b ->
  os_path_join d a = os_path_join d b -> a = b.
Proof.
  intros S. destruct (startswith_slash a) eqn:A.
  - unfold os_path_join. now rewrite A, <- S.
  - now apply os_path_join_inj.
Qed.

(** capture_pi4.py: with the directory, the prefix and the extension fixed,
    two clock readings give the same file name exactly when they fall into
    the same ten minutes. *)
Theorem timestamped_filename_pi4_window
    (outdir prefix ext : string) (t1 t2 : datetime) :
  valid_datetime t1 -> valid_datetime t2 ->
  (CapturePi4.timestamped_filename outdir prefix ext t1
   = CapturePi4.timestamped_filename outdir prefix ext t2
   <-> ten_minutes t1 = ten_minutes t2).
Proof.
  intros V1 V2. unfold CapturePi4.timestamped_filename. cbv zeta.
  rewrite (pi4_stamp t1 V1), (pi4_stamp t2 V2).
  destruct V1 as (Hy1 & Hm1 & Hd1 & HH1 & HM1 & _).
  destruct V2 as (Hy2 & Hm2 & Hd2 & HH2 & HM2 & _).
  unfold ten_minutes.
  generalize (minute t1 / 10), (minute t2 / 10). intros q1 q2. split.
  - intros H. apply os_path_join_inj_same in H;
      [|apply startswith_slash_app].
    apply append_inv_head in H. injection H as H.
    apply append_inj_r in H; [|reflexivity]. destruct H as [H _].
    apply append_inj_l in H; [|rewrite !length_fmt_d_4 by lia; reflexivity].
    destruct H as [Ey H].
    apply append_inj_l in H; [|rewrite !length_fmt_d_2 by lia; reflexivity].
    destruct H as [Em H].
    apply append_inj_l in H; [|rewrite !length_fmt_d_2 by lia; reflexivity].
    destruct H as [Ed H].
    injection H as H.
    apply append_inj_l in H; [|rewrite !length_fmt_d_2 by lia; reflexivity].
    destruct H as [EH EM].
    apply fmt_d_inj in Ey, Em, Ed, EH, EM. congruence.
  - intros [= -> -> -> -> ->]. reflexivity.
Qed.

Lemma timestamped_filename_pi4_window_witness :
  CapturePi4.timestamped_filename "./images" "image" "jpg"
    (mkDatetime 2024 1 1 12 30 0 0)
  = CapturePi4.timestamped_filename "./images" "image" "jpg"
      (mkDatetime 2024 1 1 12 39 59 0)
  /\
  ten_minutes (mkDatetime 2024 1 1 12 30 0 0)
  = ten_minutes (mkDatetime 2024 1 1 12 39 59 0).
Proof.
  split; [|vm_compute; reflexivity].
  apply timestamped_filename_pi4_window;
    [solve_valid_datetime | solve_valid_datetime | vm_compute; reflexivity].
Defined.

(* ================================================================= *)
(** * Media names *)

Lemma from_last_dot_none (s : string) :
  has_char "." s = false -> from_last_dot s = None.
Proof.
  induction s as [|c s IH]; [reflexivity|].
  cbn [has_char from_last_dot].
  intros H. apply orb_false_elim in H. destruct H as [Hc Hs].
  rewrite (IH Hs). rewrite Ascii.eqb_sym in Hc. now rewrite Hc.
Qed.

Lemma from_last_dot_app (s t e : string) :
  from_last_dot t = Some e -> from_last_dot (s ++ t) = Some e.
Proof.
  intros H. induction s as [|c s IH]; simpl; [exact H | now rewrite IH].
Qed.

Lemma lstrip_dots_none (s : string) :
  has_char "." s = false -> lstrip_dots s = s.
Proof.
  destruct s as [|c s]; [reflexivity|]. cbn [has_char lstrip_dots].
  intros H. apply orb_false_elim in H. destruct H as [Hc _].
  rewrite Ascii.eqb_sym in Hc. now rewrite Hc.
Qed.

Lemma all_dots_app (a b : string) :
  all_dots (a ++ b) = all_dots a && all_dots b.
Proof.
  induction a as [|c a IH]; simpl; [reflexivity|].
  now rewrite IH, andb_assoc.
Qed.

(** The extension of [stem.ext], for an [ext] without a dot. *)
Lemma splitext_ext_split (stem ext : string) :
  has_char "." ext = false ->
  splitext_ext (stem ++ "." ++ ext)
  = if all_dots stem then EmptyString else "." ++ ext.
Proof.
  intros H. unfold splitext_ext.
  rewrite (from_last_dot_app stem ("." ++ ext) ("." ++ ext)).
  - rewrite length_append.
    replace (String.length stem + String.length ("." ++ ext)
             - String.length ("." ++ ext)) with (String.length stem) by lia.
    now rewrite substring_prefix.
  - simpl. now rewrite (from_last_dot_none ext H).
Qed.

Lemma is_media_split (stem ext : string) :
  has_char "." ext = false ->
  is_media (stem ++ "." ++ ext)
  = negb (all_dots stem) && existsb (String.eqb (lower ext)) image_exts.
Proof.
  intros H. unfold is_media. rewrite (splitext_ext_split stem ext H).
  destruct (all_dots stem); [reflexivity|].
  cbn [negb andb]. change (lstrip_dots ("." ++ ext)) with (lstrip_dots ext).
  now rewrite (lstrip_dots_none ext H).
Qed.

Lemma is_media_no_dot (f : string) :
  has_char "." f = false -> is_media f = false.
Proof.
  intros H. unfold is_media, splitext_ext.
  now rewrite (from_last_dot_none f H).
Qed.

(** Which names the scan takes for media: those of the form [stem.ext],
    [ext] without a dot, where [stem] is not made of dots only and [ext],
    in lower case, is one of the six extensions; a name without a dot is
    none. *)
Theorem is_media_by_extension (stem ext : string) :
  has_char "." ext = false ->
  is_media (stem ++ "." ++ ext)
  = negb (all_dots stem) && existsb (String.eqb (lower ext)) image_exts /\
  is_media ext = false.
Proof.
  intros H. split; [now apply is_media_split | now apply is_media_no_dot].
Qed.

Lemma is_media_by_extension_witness :
  has_char "." "JPG" = false /\
  is_media "IMG_0001.JPG" = true /\
  is_media ".jpg" = false /\
  is_media "JPG" = false.
Proof.
  split; [reflexivity|].
  destruct (is_media_by_extension "IMG_0001" "JPG" eq_refl) as [A B].
  destruct (is_media_by_extension "" "jpg" eq_refl) as [C _].
  split; [exact A|]. split; [exact C | exact B].
Defined.

(* ================================================================= *)
(** * Frames are media entries of the output directory *)

Lemma entry_name_join (outdir n : string) :
  outdir <> EmptyString -> has_slash n = false -> n <> EmptyString ->
  entry_name outdir (os_path_join outdir n) = Some n.
Proof.
  intros Hne Hs Hn.
  rewrite os_path_join_relative by now apply no_slash_relative.
  destruct (String.eqb_spec outdir ""); [contradiction|].
  unfold entry_name. rewrite strip_prefix_app, Hs. cbn [orb].
  now destruct (String.eqb_spec n "").
Qed.

Lemma all_dots_stamped (prefix ts : string) :
  all_dots (prefix ++ "_" ++ ts) = false.
Proof. rewrite all_dots_app. apply andb_false_r. Qed.

Lemma frame_is_media (prefix ts : string) :
  is_media (prefix ++ "_" ++ ts ++ ".jpg") = true.
Proof.
  replace (prefix ++ "_" ++ ts ++ ".jpg")
    with ((prefix ++ "_" ++ ts) ++ "." ++ "jpg")
    by (now rewrite !append_assoc).
  rewrite is_media_split by reflexivity.
  now rewrite all_dots_stamped.
Qed.

(** What [timestamped_filename] returns for the extension [jpg] and a
    prefix without a slash is the path of an entry of [outdir], under a
    name of its own that the scan of the Index Builder takes for media. *)
Theorem frames_are_media_entries
    (outdir prefix : string) (d : datetime) :
  outdir <> EmptyString -> has_slash prefix = false ->
  (let name := prefix ++ "_" ++ strftime_compact d ++ ".jpg" in
   entry_name outdir (CapPi6.timestamped_filename outdir prefix "jpg" d)
     = Some name /\
   is_media name = true) /\
  (let name := prefix ++ "_" ++ drop_last 3 (strftime_compact d) ++ ".jpg" in
   entry_name outdir (CapturePi4.timestamped_filename outdir prefix "jpg" d)
     = Some name /\
   is_media name = true).
Proof.
  intros Hne Hp. cbv zeta.
  assert (G : forall ts, has_slash ts = false ->
            entry_name outdir (os_path_join outdir (prefix ++ "_" ++ ts ++ ".jpg"))
            = Some (prefix ++ "_" ++ ts ++ ".jpg")).
  { intros ts Hts. apply entry_name_join; [exact Hne| |].
    - rewrite !has_slash_app, Hp, Hts. reflexivity.
    - destruct prefix; discriminate. }
  split; (split; [|apply frame_is_media]).
  - apply G, no_slash_strftime_compact.
  - apply G, no_slash_substring, no_slash_strftime_compact.
Qed.

Lemma frames_are_media_entries_witness :
  entry_name "./images"
    (CapPi6.timestamped_filename "./images" "image" "jpg"
       (mkDatetime 2024 1 1 12 34 56 0))
    = Some "image_20240101_123456.jpg" /\
  entry_name "./images"
    (CapturePi4.timestamped_filename "./images" "img0007" "jpg"
       (mkDatetime 2024 1 1 12 34 56 0))
    = Some "img0007_20240101_123.jpg".
Proof.
  destruct (frames_are_media_entries "./images" "image"
              (mkDatetime 2024 1 1 12 34 56 0)) as [[A _] _];
    [discriminate | reflexivity |].
  destruct (frames_are_media_entries "./images" "img0007"
              (mkDatetime 2024 1 1 12 34 56 0)) as [_ [B _]];
    [discriminate | reflexivity |].
  split; [exact A | exact B].
Defined.

(* ================================================================= *)
(** * Base names *)

Lemma basename_no_slash (n : string) :
  has_slash n = false -> basename n = n.
Proof.
  destruct n as [|c n]; [reflexivity|]. simpl.
  intros H. apply orb_false_elim in H. destruct H as [Hc Hn].
  now rewrite Hn, Hc.
Qed.

Lemma basename_app (a n : string) :
  endswith_slash a = true -> has_slash n = false -> basename (a ++ n) = n.
Proof.
  intros Ha Hn. induction a as [|c a IH]; [discriminate|].
  destruct a as [|c' a'].
  - simpl in Ha. simpl. now rewrite Hn, Ha.
  - change ((String c (String c' a')) ++ n)
      with (String c (String c' a' ++ n)).
    cbn [basename]. rewrite has_slash_app.
    rewrite (endswith_has_slash (String c' a') Ha). cbn [orb].
    now apply IH.
Qed.

Lemma has_slash_basename (p : string) : has_slash (basename p) = false.
Proof.
  induction p as [|c p IH]; [reflexivity|]. cbn [basename].
  destruct (has_slash p) eqn:Hp; [exact IH|].
  destruct (is_slash c) eqn:Hc; [exact Hp|].
  simpl. now rewrite Hc, Hp.
Qed.

(** [os.path.basename] gives back the name [os.path.join] put after the
    directory, and never a slash. *)
Lemma basename_of_join (d n p : string) :
  has_slash n = false ->
  basename (os_path_join d n) = n /\ has_slash (basename p) = false.
Proof.
  intros Hn. split; [|apply has_slash_basename].
  rewrite os_path_join_relative by now apply no_slash_relative.
  destruct (d =? ""); [now apply basename_no_slash|].
  apply basename_app; [apply endswith_dir_prefix | exact Hn].
Qed.


(* ================================================================= *)
(** * What one upload runs *)

Lemma runs_app (new old : list event) :
  runs (new ++ old) = (runs new ++ runs old)%list.
Proof.
  induction new as [|ev new IH]; [reflexivity|].
  destruct ev; simpl; now rewrite IH.
Qed.

Lemma ssh_command_eq (c : scp_config) :
  List.app
    (List.app
       (List.app ["ssh"; "-p"; str_Z (ssh_port c)] (key_args (ssh_key c)))
       [remote_user c ++ "@" ++ remote_host c])
    ["mkdir -p '" ++ remote_path c ++ "'"]
  = ssh_command c.
Proof. unfold ssh_command, ssh_target. now rewrite <- (app_assoc _ [_] [_]). Qed.

Lemma scp_upload_events
    (E : env) (local_path : string) (c : scp_config) (w : world) :
  exists (r : outcome bool) (w' : world) (new : list event),
    _scp_upload E local_path c w = (r, w') /\
    same_fs w w' /\
    w_trace w' = (new ++ w_trace w)%list /\
    (runs new = [] \/
     runs new = [ssh_command c] \/
     runs new = [scp_command local_path c; ssh_command c]) /\
    (r = Return true ->
     runs new = [scp_command local_path c; ssh_command c]) /\
    (forall e, r = Raise e ->
       e_class e = UnicodeDecodeError /\
       runs new = [scp_command local_path c; ssh_command c]) /\
    (decodes E -> exists b : bool, r = Return b).
Proof.
  unfold _scp_upload, _ensure_remote_dir.
  destruct (env_which E "scp"); cbn [negb].
  2:{ eexists (Return false), _, [_]. cbn. repeat split; auto; try discriminate.
      now exists false. }
  destruct (env_which E "ssh"); cbn [negb].
  2:{ eexists (Return false), _, [_; _]. cbn.
      repeat split; auto; try discriminate. now exists false. }
  cbv zeta. rewrite ssh_command_eq.
  fold (scp_target local_path c). fold (scp_command local_path c).
  unfold try_except, bind, subprocess_run.
  destruct (env_run E (w_tick w) _) as [[msg1 err1]|]; msimpl.
  { eexists (Return false), _, [_; _; _]. cbn [negb]. msimpl.
    split; [reflexivity|]. split; [now split|]. split; [reflexivity|].
    split; [right; left; reflexivity|].
    split; [discriminate|]. split; [discriminate | now exists false]. }
  cbn [negb]. msimpl.
  destruct (env_run E _ _) as [[msg2 err2]|] eqn:Run; msimpl.
  - unfold decode_utf8. destruct (utf8_valid err2) eqn:U; msimpl.
    + eexists (Return false), _, [_; _; _]. split; [reflexivity|].
      split; [now split|]. split; [reflexivity|].
      split; [right; right; reflexivity|].
      split; [discriminate|]. split; [discriminate | now exists false].
    + eexists (Raise _), _, [_; _]. split; [reflexivity|].
      split; [now split|]. split; [reflexivity|].
      split; [right; right; reflexivity|].
      split; [discriminate|]. split.
      * intros e [= <-]. now split.
      * intros D. rewrite (D _ _ _ _ Run) in U. discriminate U.
  - eexists (Return true), _, [_; _; _]. split; [reflexivity|].
    split; [now split|]. split; [reflexivity|].
    split; [right; right; reflexivity|].
    split; [reflexivity|]. split; [discriminate | now exists true].
Qed.


Lemma rstrip_slash_no_trailing (s : string) :
  endswith_slash (rstrip_slash s) = false.
Proof.
  induction s as [|c s IH]; [reflexivity|]. cbn [rstrip_slash].
  destruct (rstrip_slash s) as [|a r] eqn:R.
  - destruct (is_slash c) eqn:Hc; [reflexivity|]. cbn. exact Hc.
  - exact IH.
Qed.

(** Where an upload lands.  A file of the output directory, uploaded by
    [_scp_upload], goes to the remote directory under its own name: the
    target is [user@host:dir/name], with the trailing slashes of the
    configured directory removed, so that one slash separates the two; and
    whatever the local path, the remote name holds no slash, so that the file
    never lands in a subdirectory. *)
Theorem upload_target_of_entry (outdir name p : string) (c : scp_config) :
  has_slash name = false ->
  scp_target (os_path_join outdir name) c
  = remote_user c ++ "@" ++ remote_host c ++ ":" ++
    rstrip_slash (remote_path c) ++ "/" ++ name /\
  endswith_slash (rstrip_slash (remote_path c)) = false /\
  has_slash (basename p) = false.
Proof.
  intros Hn. destruct (basename_of_join outdir name p Hn) as [B S].
  unfold scp_target. rewrite B.
  split; [reflexivity|]. split; [apply rstrip_slash_no_trailing | exact S].
Qed.

Lemma upload_target_of_entry_witness :
  scp_target (os_path_join "./images" "a.jpg") remote
  = remote_user remote ++ "@" ++ remote_host remote ++ ":" ++
    rstrip_slash (remote_path remote) ++ "/" ++ "a.jpg" /\
  endswith_slash (rstrip_slash (remote_path remote)) = false /\
  has_slash (basename "/tmp/x/thumbnail.jpg") = false.
Proof.
  exact (upload_target_of_entry "./images" "a.jpg" "/tmp/x/thumbnail.jpg"
           remote eq_refl).
Defined.

(* ================================================================= *)
(** * Escaping *)

Lemma has_char_app (c : ascii) (a b : string) :
  has_char c (a ++ b) = has_char c a || has_char c b.
Proof.
  induction a as [|x a IH]; [reflexivity|].
  cbn [append has_char]. now rewrite IH, orb_assoc.
Qed.

(** [html.escape] leaves none of the characters that end a tag, an
    attribute value or a text in its result: no [<], no [>], no quote of
    either kind.  So a file name cannot break out of the [href], [src] and
    [alt] attributes of its tile. *)
Theorem html_escape_is_safe (s : string) :
  has_char "<" (html_escape s) = false /\
  has_char ">" (html_escape s) = false /\
  has_char "'" (html_escape s) = false /\
  has_char dquote (html_escape s) = false.
Proof.
  induction s as [|c s (IH1 & IH2 & IH3 & IH4)]; [now repeat split|].
  cbn [html_escape]. rewrite !has_char_app, IH1, IH2, IH3, IH4.
  destruct (Ascii.eqb_spec c "&") as [->|N0]; [now repeat split|].
  destruct (Ascii.eqb_spec c "<") as [->|N1]; [now repeat split|].
  destruct (Ascii.eqb_spec c ">") as [->|N2]; [now repeat split|].
  destruct (Ascii.eqb_spec c dquote) as [->|N3]; [now repeat split|].
  destruct (Ascii.eqb_spec c "'") as [->|N4]; [now repeat split|].
  cbn [has_char]. rewrite !orb_false_r.
  repeat split; apply Ascii.eqb_neq; congruence.
Qed.

(* ================================================================= *)
(** * Index Builder: rebuilding, and what a build touches *)

Lemma build_index_html_of_eq (s : script) (E : env) (outdir title : string) :
  build_index_html_of s E outdir title
  = build_index E
      (match s with Pi4 => CapturePi4.html_head | Pi6 => CapPi6.html_head end)
      (match s with Pi4 => [] | Pi6 => CapPi6.timelapse_card end)
      outdir title.
Proof. now destruct s. Qed.

Lemma sorted_entries_media (outdir : string) (w : world) (l : list string) :
  fst (sorted_entries outdir w) = Return l ->
  forall fn, In fn l -> has_slash fn = false /\ is_media fn = true.
Proof.
  rewrite sorted_entries_run. cbn [fst].
  destruct (fst (scan_media outdir w)) as [entries|e] eqn:Sc; [|discriminate].
  destruct (forallb (has_stat w outdir) entries); [|discriminate].
  intros [= <-] fn Hin. apply (scan_media_entries outdir w entries Sc).
  now apply (Permutation_in _ (sort_names_perm w outdir entries)).
Qed.

Lemma flat_map_ext_in {A B : Type} (f g : A -> list B) (l : list A) :
  (forall a, In a l -> f a = g a) -> flat_map f l = flat_map g l.
Proof.
  induction l as [|a l IH]; [reflexivity|]. intros H. cbn [flat_map].
  rewrite (H a (or_introl eq_refl)), IH; [reflexivity|].
  intros b Hb. apply H. now right.
Qed.

(** The tiles do not change when the index file is written. *)
Lemma page_lines_after_write (E : env) (head : string -> list string)
    (fixed : list string) (outdir title content : string) (w : world)
    (l : list string) :
  fst (sorted_entries outdir w) = Return l ->
  page_lines E (written E (os_path_join outdir "index.html") content w)
             head fixed outdir title l
  = page_lines E w head fixed outdir title l.
Proof.
  intros S. unfold page_lines. do 3 f_equal.
  apply flat_map_ext_in. intros fn Hin.
  destruct (sorted_entries_media outdir w l S fn Hin) as [Hs Hm].
  unfold tile. now rewrite stat_of_after_write.
Qed.

Lemma build_index_twice (E : env) (head : string -> list string)
    (fixed : list string) (outdir title : string) (w : world) (idx : string) :
  fst (build_index E head fixed outdir title w) = Return (Some idx) ->
  exists page : string,
    build_index E head fixed outdir title w
    = (Return (Some idx),
       log (Print ("Built index: " ++ idx)) (written E idx page w)) /\
    build_index E head fixed outdir title
      (log (Print ("Built index: " ++ idx)) (written E idx page w))
    = (Return (Some idx),
       log (Print ("Built index: " ++ idx))
           (written E idx page
              (log (Print ("Built index: " ++ idx)) (written E idx page w)))).
Proof.
  rewrite build_index_run.
  destruct (fst (sorted_entries outdir w)) as [l|e] eqn:S; [|discriminate].
  cbv zeta.
  destruct (can_create w (os_path_join outdir "index.html")) as [[]|e] eqn:C;
    [|discriminate].
  cbn [fst]. intros [= <-]. eexists. split; [reflexivity|].
  set (page := String.concat newline
                 (page_lines E w head fixed outdir title l)).
  set (idx := os_path_join outdir "index.html") in *.
  set (w1 := log (Print ("Built index: " ++ idx)) (written E idx page w)).
  rewrite build_index_run.
  assert (S1 : fst (sorted_entries outdir w1) = Return l).
  { unfold w1.
    rewrite (fs_only_sorted_entries outdir _ _ (same_fs_log _ _)).
    unfold idx. now rewrite sorted_entries_after_write. }
  rewrite S1. cbv zeta. fold idx.
  assert (C1 : can_create w1 idx = Return tt).
  { unfold can_create, find_file, w1, written.
    cbn [w_files log tick set_files]. now rewrite find_put_file_same. }
  rewrite C1.
  change (page_lines E w1 head fixed outdir title l)
    with (page_lines E (written E idx page w) head fixed outdir title l).
  pose proof (page_lines_after_write E head fixed outdir title page w l S)
    as PL.
  fold idx in PL. rewrite PL. reflexivity.
Qed.

(** Building the index a second time, with nothing done in between, writes
    the same page again: the page does not depend on the index file it
    replaces, whose own time and size change with each build. *)
Theorem index_rebuild_is_identical
    (s : script) (E : env) (outdir title : string) (w : world) (idx : string) :
  fst (build_index_html_of s E outdir title w) = Return (Some idx) ->
  exists (page : string) (w1 : world),
    build_index_html_of s E outdir title w = (Return (Some idx), w1) /\
    w_trace w1
    = Print ("Built index: " ++ idx) :: WriteText idx page :: w_trace w /\
    fst (build_index_html_of s E outdir title w1) = Return (Some idx) /\
    w_trace (snd (build_index_html_of s E outdir title w1))
    = Print ("Built index: " ++ idx) :: WriteText idx page :: w_trace w1.
Proof.
  rewrite build_index_html_of_eq. intros H.
  destruct (build_index_twice E _ _ outdir title w idx H) as (page & B1 & B2).
  exists page, (log (Print ("Built index: " ++ idx)) (written E idx page w)).
  split; [exact B1|]. split; [reflexivity|]. rewrite B2. now split.
Qed.

Lemma index_rebuild_is_identical_witness :
  exists (page : string) (w1 : world),
    build_index_html_of Pi6 env_ok "./images" "Owls" w_three
    = (Return (Some "./images/index.html"), w1) /\
    w_trace w1
    = Print ("Built index: " ++ "./images/index.html")
        :: WriteText "./images/index.html" page :: w_trace w_three /\
    fst (build_index_html_of Pi6 env_ok "./images" "Owls" w1)
    = Return (Some "./images/index.html") /\
    w_trace (snd (build_index_html_of Pi6 env_ok "./images" "Owls" w1))
    = Print ("Built index: " ++ "./images/index.html")
        :: WriteText "./images/index.html" page :: w_trace w1.
Proof.
  apply (index_rebuild_is_identical Pi6 env_ok "./images" "Owls" w_three).
  vm_compute. reflexivity.
Defined.



(* ================================================================= *)
(** * Annotator: what a call does to the image and to the disk *)

Lemma reads_lift {A : Type} (o : answer A) : reads (lift o).
Proof. now destruct o. Qed.

Lemma reads_check (o : option string) : reads (check o).
Proof. now destruct o. Qed.

Lemma reads_image_open (E : env) (p : string) : reads (image_open E p).
Proof.
  apply reads_bind; [apply reads_stat | intros; apply reads_lift].
Qed.

Lemma reads_try_truetype (E : env) (p : string) (size : Z) :
  reads (try_truetype E p size).
Proof.
  apply reads_try_except.
  - apply reads_bind; [apply reads_check | intros; apply reads_ret].
  - intros; apply reads_ret.
Qed.

Lemma reads_choose_font (E : env) (font_path : option string) (size : Z) :
  reads (choose_font E font_path size).
Proof.
  unfold choose_font. apply reads_bind.
  { destruct (truthy font_path); [|apply reads_ret].
    destruct font_path; [apply reads_try_truetype | apply reads_ret]. }
  intros f1. apply reads_bind.
  { destruct f1; [apply reads_ret | apply reads_try_truetype]. }
  intros f2. destruct f2; [apply reads_ret|].
  apply reads_bind; [apply reads_check | intros; apply reads_ret].
Qed.

Lemma reads_measure (E : env) (text : string) (f : font) :
  reads (try_except
           (bb <- lift (pil_textbbox E text f) ;;
            let '(x0, y0, x1, y1) := bb in
            ret (x1 - x0, y1 - y0)%Z)
           Exception
           (fun _ => lift (pil_textsize E text f))).
Proof.
  apply reads_try_except.
  - apply reads_bind; [apply reads_lift|].
    intros [[[x0 y0] x1] y1]. apply reads_ret.
  - intros; apply reads_lift.
Qed.

Lemma image_open_ok (E : env) (p : string) (w : world) (size : Z * Z) :
  fst (image_open E p w) = Return size -> pil_open E p = Ok size.
Proof.
  unfold image_open, bind. rewrite (run_reads _ w (reads_stat p)).
  destruct (fst (stat p w)); [|discriminate].
  destruct (pil_open E p); cbn; [now intros [= ->] | discriminate].
Qed.

Lemma label_geometry (width height tw th : Z) :
  let margin := Z.max 8 (width / 200) in
  let x := (width - tw - margin)%Z in
  let y := (height - th - margin)%Z in
  let rect_pad := Z.max 4 (margin / 2) in
  label_inside width height (x - rect_pad) (y - rect_pad)
               (x + tw + rect_pad) (y + th + rect_pad) x y.
Proof.
  cbv zeta. set (m := Z.max 8 (width / 200)).
  assert (M8 : (8 <= m)%Z) by apply Z.le_max_l.
  assert (H4 : (4 <= m / 2)%Z) by (apply Z.div_le_lower_bound; lia).
  assert (H2 : (2 * (m / 2) <= m)%Z) by (apply Z.mul_div_le; lia).
  rewrite (Z.max_r 4 (m / 2)) by exact H4.
  unfold label_inside. lia.
Qed.

(** The body of the [try]: it raises, with nothing saved, or it saves the
    image with a box and the text drawn inside the frame. *)
Lemma annotate_draw_cases (E : env) (p text : string) (fp : option string)
    (w : world) :
  (exists e w', annotate_draw E p text fp w = (Raise e, w') /\
                unsaved E p w w') \/
  (exists (width height x0 y0 x1 y1 x y : Z) (f : font),
      pil_open E p = Ok (width, height) /\
      annotate_draw E p text fp w
      = (Return true,
         saved E p [Rectangle x0 y0 x1 y1; Text x y text f] w) /\
      label_inside width height x0 y0 x1 y1 x y).
Proof.
  destruct (annotate_draw E p text fp w) as [r w'] eqn:D.
  unfold annotate_draw in D. unfold bind at 1 in D.
  rewrite (run_reads _ w (reads_image_open E p)) in D.
  destruct (fst (image_open E p w)) as [[width height]|e] eqn:IO.
  2:{ left. exists e, w. split; [exact (eq_sym D) | now left]. }
  apply image_open_ok in IO. cbn [fst snd] in D. unfold bind at 1 in D.
  rewrite (run_reads _ w (reads_choose_font E fp _)) in D.
  destruct (fst (choose_font E fp _ w)) as [f|e].
  2:{ left. exists e, w. split; [exact (eq_sym D) | now left]. }
  unfold bind at 1 in D.
  rewrite (run_reads _ w (reads_measure E text f)) in D.
  destruct (fst (try_except _ Exception _ w)) as [[tw th]|e].
  2:{ left. exists e, w. split; [exact (eq_sym D) | now left]. }
  cbn [fst snd] in D. unfold bind at 1 in D.
  destruct (pil_draw E (Rectangle _ _ _ _)) as [msg|];
    cbn [check raise ret] in D.
  { left. eexists _, w. split; [exact (eq_sym D) | now left]. }
  unfold bind at 1 in D.
  destruct (pil_draw E (Text _ _ _ _)) as [msg|]; cbn [check raise ret] in D.
  { left. eexists _, w. split; [exact (eq_sym D) | now left]. }
  unfold image_save, bind in D.
  destruct (can_create w p) as [[]|e].
  2:{ left. eexists _, w. split; [exact (eq_sym D) | now left]. }
  destruct (pil_save E p) as [msg|].
  { left. eexists _, _. split; [exact (eq_sym D)|].
    unfold unsaved, has_file, spoiled.
    destruct (find_file w p); [right; right; now split | right; now left]. }
  right. do 8 eexists. exists f. split; [exact IO|].
  split; [exact (eq_sym D)|]. apply label_geometry.
Qed.

Lemma annotate_guarded_cases (E : env) (p text : string) (fp : option string)
    (w : world) :
  (exists msg w0, annotate_guarded E p text fp w
                  = (Return false, log (Print msg) w0) /\
                  unsaved E p w w0) \/
  (exists (width height x0 y0 x1 y1 x y : Z) (f : font),
      pil_open E p = Ok (width, height) /\
      annotate_guarded E p text fp w
      = (Return true,
         saved E p [Rectangle x0 y0 x1 y1; Text x y text f] w) /\
      label_inside width height x0 y0 x1 y1 x y).
Proof.
  unfold annotate_guarded, try_except.
  pose proof (tame_annotate_draw E p text fp w) as T.
  destruct (annotate_draw_cases E p text fp w)
    as [(e & w0 & D & U)
       | (width & height & x0 & y0 & x1 & y1 & x & y & f & IO & D & G)].
  - rewrite D in *. specialize (T e eq_refl). rewrite T. left.
    eexists _, w0. split; [reflexivity | exact U].
  - rewrite D. right. exists width, height, x0, y0, x1, y1, x, y, f.
    split; [exact IO|]. split; [reflexivity | exact G].
Qed.

Lemma only_rewrites_refl (p : string) (w : world) : only_rewrites p w w.
Proof. split; [reflexivity|]. split; [reflexivity|]. now exists []. Qed.

Lemma copied_app (new old : list event) :
  copied (new ++ old) = (copied new ++ copied old)%list.
Proof.
  induction new as [|ev new IH]; [reflexivity|].
  destruct ev; simpl; now rewrite IH.
Qed.

Lemma only_rewrites_trans (p : string) (w1 w2 w3 : world) :
  only_rewrites p w1 w2 -> only_rewrites p w2 w3 -> only_rewrites p w1 w3.
Proof.
  intros (D1 & F1 & n1 & T1 & R1 & C1 & K1) (D2 & F2 & n2 & T2 & R2 & C2 & K2).
  split; [congruence|]. split.
  { intros q Hq. now rewrite F2, F1. }
  exists (n2 ++ n1)%list. rewrite T2, T1, app_assoc.
  split; [reflexivity|].
  rewrite runs_app, captures_app, copied_app, R1, R2, C1, C2, K1, K2.
  now repeat split.
Qed.

Lemma only_rewrites_print (p msg : string) (w : world) :
  only_rewrites p w (log (Print msg) w).
Proof.
  split; [reflexivity|]. split; [reflexivity|]. now exists [Print msg].
Qed.

Lemma only_rewrites_tick (p : string) (w : world) : only_rewrites p w (tick w).
Proof. split; [reflexivity|]. split; [reflexivity|]. now exists []. Qed.

Lemma only_rewrites_saved (E : env) (p : string) (ops : list draw_op)
    (w : world) :
  only_rewrites p w (saved E p ops w) /\ has_file (saved E p ops w) p = true.
Proof.
  split.
  - split; [reflexivity|]. split.
    + intros q Hq. unfold find_file, saved. cbn [w_files tick log set_files].
      now apply find_put_file_other.
    + now exists [SaveImage p ops].
  - unfold has_file, find_file, saved. cbn [w_files tick log set_files].
    now rewrite find_put_file_same.
Qed.

Lemma only_rewrites_unsaved (E : env) (p : string) (w w' : world) :
  unsaved E p w w' ->
  only_rewrites p w w' /\ (has_file w p = true -> has_file w' p = true).
Proof.
  intros [->|[->|[_ ->]]].
  - split; [apply only_rewrites_refl | auto].
  - split; [apply only_rewrites_tick | auto].
  - split.
    + split; [reflexivity|]. split.
      * intros q Hq. unfold find_file, spoiled. cbn [w_files tick set_files].
        now apply find_put_file_other.
      * now exists [].
    + intros _. unfold has_file, find_file, spoiled.
      cbn [w_files tick set_files]. now rewrite find_put_file_same.
Qed.

Lemma keeps_image_trans (p : string) (w1 w2 w3 : world) :
  keeps_image p w1 w2 -> keeps_image p w2 w3 -> keeps_image p w1 w3.
Proof.
  intros [O1 H1] [O2 H2].
  split; [exact (only_rewrites_trans p _ _ _ O1 O2) | auto].
Qed.

Lemma keeps_image_print (p msg : string) (w : world) :
  keeps_image p w (log (Print msg) w).
Proof. split; [apply only_rewrites_print | auto]. Qed.

Lemma keeps_image_tick (p : string) (w : world) : keeps_image p w (tick w).
Proof. split; [apply only_rewrites_tick | auto]. Qed.

Lemma annotate_guarded_effect (E : env) (p text : string)
    (fp : option string) (w : world) :
  exists (r : outcome bool) (w' : world),
    annotate_guarded E p text fp w = (r, w') /\
    keeps_image p w w' /\
    (r = Return true -> has_file w' p = true).
Proof.
  destruct (annotate_guarded_cases E p text fp w)
    as [(msg & w0 & D & U)
       | (width & height & x0 & y0 & x1 & y1 & x & y & f & _ & D & _)];
    rewrite D; eexists _, _; (split; [reflexivity|]).
  - split; [|discriminate].
    exact (keeps_image_trans p _ _ _ (only_rewrites_unsaved E p w w0 U)
             (keeps_image_print p msg w0)).
  - destruct (only_rewrites_saved E p
                [Rectangle x0 y0 x1 y1; Text x y text f] w) as [O H].
    split; [split; [exact O | now intros _] | now intros _].
Qed.

Lemma annotate_of_effect
    (s : script) (E : env) (p : string) (text fp : option string)
    (w : world) :
  exists (r : outcome bool) (w' : world),
    annotate_of s E p text fp w = (r, w') /\
    (only_rewrites p w w' /\ (has_file w p = true -> has_file w' p = true))
    /\
    (r = Return true -> has_file w' p = true).
Proof.
  fold (keeps_image p w).
  destruct s; cbn [annotate_of].
  - unfold CapturePi4._annotate_image_with_timestamp.
    destruct (PIL_AVAILABLE E); cbn [negb].
    2:{ eexists _, _. split; [reflexivity|].
        split; [apply keeps_image_print | discriminate]. }
    destruct text as [t|].
    + cbn [bind ret]. apply annotate_guarded_effect.
    + unfold now. cbn [bind ret].
      destruct (annotate_guarded_effect E p
                  (strftime_human (env_now E (w_tick w))) fp (tick w))
        as (r & w' & D & O & F).
      exists r, w'. split; [exact D|]. split; [|exact F].
      exact (keeps_image_trans p _ _ _ (keeps_image_tick p w) O).
  - unfold CapPi6._annotate_image_with_timestamp. unfold bind at 1.
    cbn [print emit].
    destruct (PIL_AVAILABLE E); cbn [negb].
    2:{ eexists _, _. split; [reflexivity|]. split; [|discriminate].
        exact (keeps_image_trans p _ _ _ (keeps_image_print p _ w)
                 (keeps_image_print p _ _)). }
    destruct text as [t|].
    + cbn [bind ret].
      destruct (annotate_guarded_effect E p t fp
                  (log (Print "Starting Annotate and manipulate subroutine") w))
        as (r & w' & D & O & F).
      exists r, w'. split; [exact D|]. split; [|exact F].
      exact (keeps_image_trans p _ _ _ (keeps_image_print p _ w) O).
    + unfold now, CapPi6.args_debug. cbn [bind ret raise].
      eexists _, _. split; [reflexivity|]. split; [|discriminate].
      exact (keeps_image_trans p _ _ _ (keeps_image_print p _ w)
               (keeps_image_tick p _)).
Qed.

(** One call of the annotator, in either script and whatever Pillow
    answers: the directories stay, every file but the image stays as it was,
    no program is run, no picture taken and no file copied; an image that
    was on disk is still on disk, as a file that a failed save may have
    rewritten; and when the call returns [True] the image is on disk. *)
Theorem annotator_rewrites_only_the_image
    (s : script) (E : env) (p : string) (text fp : option string)
    (w : world) :
  exists (r : outcome bool) (w' : world),
    annotate_of s E p text fp w = (r, w') /\
    (only_rewrites p w w' /\ (has_file w p = true -> has_file w' p = true))
    /\
    (r = Return true -> has_file w' p = true).
Proof. exact (annotate_of_effect s E p text fp w). Qed.

(** When the annotator returns [True], what it saved is the image with one
    box and one text drawn on it, the text being the caller's when one was
    given; the box ends at least four pixels before the right and the lower
    edge of the image, at the same distance from both, and the text starts
    at least four pixels inside the box. *)
Theorem annotation_label_inside_frame
    (s : script) (E : env) (p : string) (text fp : option string)
    (w : world) :
  fst (annotate_of s E p text fp w) = Return true ->
  exists (width height x0 y0 x1 y1 x y : Z) (t : string) (f : font)
         (rest : list event),
    pil_open E p = Ok (width, height) /\
    w_trace (snd (annotate_of s E p text fp w))
    = SaveImage p [Rectangle x0 y0 x1 y1; Text x y t f] :: rest /\
    label_inside width height x0 y0 x1 y1 x y /\
    (forall t', text = Some t' -> t = t').
Proof.
  assert (G : forall t w0,
             fst (annotate_guarded E p t fp w0) = Return true ->
             exists (width height x0 y0 x1 y1 x y : Z) (f : font),
               pil_open E p = Ok (width, height) /\
               w_trace (snd (annotate_guarded E p t fp w0))
               = SaveImage p [Rectangle x0 y0 x1 y1; Text x y t f]
                   :: w_trace w0 /\
               label_inside width height x0 y0 x1 y1 x y).
  { intros t w0.
    destruct (annotate_guarded_cases E p t fp w0)
      as [(msg & w1 & D & _)
         | (width & height & x0 & y0 & x1 & y1 & x & y & f & IO & D & L)];
      rewrite D; cbn [fst snd]; [discriminate|].
    intros _. exists width, height, x0, y0, x1, y1, x, y, f.
    split; [exact IO|]. split; [reflexivity | exact L]. }
  destruct s; cbn [annotate_of].
  - unfold CapturePi4._annotate_image_with_timestamp.
    destruct (PIL_AVAILABLE E); cbn [negb]; [|discriminate].
    destruct text as [t|].
    + cbn [bind ret]. intros H.
      destruct (G t w H) as (width & height & x0 & y0 & x1 & y1 & x & y & f
                             & IO & T & L).
      exists width, height, x0, y0, x1, y1, x, y, t, f, (w_trace w).
      split; [exact IO|]. split; [exact T|]. split; [exact L|].
      now intros t' [= ->].
    + unfold now. cbn [bind ret]. intros H.
      destruct (G _ _ H) as (width & height & x0 & y0 & x1 & y1 & x & y & f
                             & IO & T & L).
      exists width, height, x0, y0, x1, y1, x, y,
             (strftime_human (env_now E (w_tick w))), f, (w_trace w).
      split; [exact IO|]. split; [exact T|]. split; [exact L|]. discriminate.
  - unfold CapPi6._annotate_image_with_timestamp. unfold bind at 1.
    cbn [print emit].
    destruct (PIL_AVAILABLE E); cbn [negb]; [|discriminate].
    destruct text as [t|].
    + cbn [bind ret]. intros H.
      destruct (G _ _ H) as (width & height & x0 & y0 & x1 & y1 & x & y & f
                             & IO & T & L).
      exists width, height, x0, y0, x1, y1, x, y, t, f.
      eexists. split; [exact IO|]. split; [exact T|]. split; [exact L|].
      now intros t' [= ->].
    + unfold now, CapPi6.args_debug. cbn [bind ret raise fst]. discriminate.
Qed.

Lemma annotation_label_inside_frame_witness :
  exists (width height x0 y0 x1 y1 x y : Z) (t : string) (f : font)
         (rest : list event),
    pil_open env_ok "./images/a.jpg" = Ok (width, height) /\
    w_trace (snd (annotate_of Pi4 env_ok "./images/a.jpg"
                    (Some "2024-01-01 12:34:56") None w_two))
    = SaveImage "./images/a.jpg" [Rectangle x0 y0 x1 y1; Text x y t f]
        :: rest /\
    label_inside width height x0 y0 x1 y1 x y /\
    (forall t', Some "2024-01-01 12:34:56" = Some t' -> t = t').
Proof.
  apply (annotation_label_inside_frame Pi4 env_ok "./images/a.jpg"
           (Some "2024-01-01 12:34:56") None w_two).
  vm_compute. reflexivity.
Defined.

(* ================================================================= *)
(** * A timed series starts no program *)

Lemma calm_step_refl (w : world) : calm_step w w.
Proof. now exists []. Qed.

Lemma calm_step_trans (w1 w2 w3 : world) :
  calm_step w1 w2 -> calm_step w2 w3 -> calm_step w1 w3.
Proof.
  intros (n1 & T1 & R1 & K1) (n2 & T2 & R2 & K2).
  exists (n2 ++ n1)%list. rewrite T2, T1, app_assoc.
  split; [reflexivity|]. now rewrite runs_app, copied_app, R1, R2, K1, K2.
Qed.

Lemma calm_step_tick (w : world) : calm_step w (tick w).
Proof. now exists []. Qed.

Lemma calm_step_only_rewrites (p : string) (w w' : world) :
  only_rewrites p w w' -> calm_step w w'.
Proof. intros (_ & _ & new & T & R & _ & K). now exists new. Qed.

Lemma calm_ret {A : Type} (a : A) : calm (ret a).
Proof. intros w. apply calm_step_refl. Qed.

Lemma calm_reads {A : Type} (c : M A) : reads c -> calm c.
Proof. intros R w. rewrite R. apply calm_step_refl. Qed.

Lemma calm_bind {A B : Type} (c : M A) (k : A -> M B) :
  calm c -> (forall a, calm (k a)) -> calm (bind c k).
Proof.
  intros Cc Ck w. unfold bind. specialize (Cc w).
  destruct (c w) as [[a|e] w']; cbn [snd] in *; [|exact Cc].
  exact (calm_step_trans _ _ _ Cc (Ck a w')).
Qed.

Lemma calm_print (s : string) : calm (print s).
Proof. intros w. now exists [Print s]. Qed.

Lemma calm_now (E : env) : calm (now E).
Proof. intros w. apply calm_step_tick. Qed.

Lemma calm_sleep (E : env) (i : pyfloat) : calm (sleep E i).
Proof.
  intros w. unfold sleep.
  destruct (sleep_error E i w); cbn [snd]; [apply calm_step_refl|].
  destruct (env_interrupt E (w_tick w)); cbn [snd].
  - apply calm_step_tick.
  - now exists [Sleep i].
Qed.

Lemma calm_capture_file (E : env) (p : string) : calm (capture_file E p).
Proof.
  intros w. unfold capture_file. destruct (can_create w p); cbn [snd].
  - now exists [Capture p].
  - apply calm_step_refl.
Qed.

Lemma calm_annotate_of (s : script) (E : env) (p : string)
    (text fp : option string) :
  calm (annotate_of s E p text fp).
Proof.
  intros w. destruct (annotate_of_effect s E p text fp w)
    as (r & w' & -> & [O _] & _).
  exact (calm_step_only_rewrites p _ _ O).
Qed.

Lemma calm_build_index (E : env) (head : string -> list string)
    (fixed : list string) (outdir title : string) :
  calm (build_index E head fixed outdir title).
Proof.
  intros w. rewrite build_index_run.
  destruct (fst (sorted_entries outdir w)); [|apply calm_step_refl].
  cbv zeta. destruct (can_create w _); cbn [snd].
  - now eexists [_; _].
  - now eexists [_].
Qed.

Lemma calm_pi4_step (E : env) (outdir : string) (interval : pyfloat)
    (build_index : bool) (index_title : string) (i : nat) :
  calm (CapturePi4.timelapse_step E outdir interval build_index index_title i).
Proof.
  unfold CapturePi4.timelapse_step.
  apply calm_bind; [apply calm_now|]. intros d.
  apply calm_bind; [apply calm_capture_file|]. intros _.
  apply calm_bind; [apply calm_now|]. intros d'.
  apply calm_bind.
  { exact (calm_annotate_of Pi4 E
             (CapturePi4.timestamped_filename outdir ("img" ++ fmt_d 4 i) "jpg" d)
             (Some (strftime_human d')) None). }
  intros b.
  apply calm_bind; [destruct b; [apply calm_print | apply calm_ret]|].
  intros _. apply calm_bind; [apply calm_print|]. intros _.
  apply calm_bind; [|intros _; apply calm_sleep].
  destruct build_index; [|apply calm_ret].
  apply calm_bind; [apply calm_build_index | intros; apply calm_ret].
Qed.

Lemma calm_pi6_step (E : env) (outdir : string) (interval : pyfloat)
    (i : nat) :
  calm (CapPi6.timelapse_step E outdir interval i).
Proof.
  unfold CapPi6.timelapse_step.
  apply calm_bind; [apply calm_now|]. intros d.
  apply calm_bind; [apply calm_capture_file|]. intros _.
  apply calm_bind; [apply calm_now|]. intros d'.
  apply calm_bind.
  { exact (calm_annotate_of Pi6 E
             (CapPi6.timestamped_filename outdir ("img" ++ fmt_d 4 i) "jpg" d)
             (Some (strftime_human d')) None). }
  intros b.
  apply calm_bind; [destruct b; [apply calm_print | apply calm_ret]|].
  intros _. apply calm_bind; [apply calm_print|]. intros _.
  apply calm_sleep.
Qed.

Lemma calm_pi4_loop (E : env) (outdir : string) (interval : pyfloat)
    (count : option Z) (build_index : bool) (index_title : string)
    (fuel i : nat) (w : world) (r : outcome unit) (w' : world) :
  CapturePi4.timelapse_loop E fuel outdir interval count build_index
    index_title i w = Some (r, w') ->
  calm_step w w'.
Proof.
  revert i w. induction fuel as [|fuel IH]; intros i w; cbn [CapturePi4.timelapse_loop].
  - destruct (match count with None => true | Some n => (Z.of_nat i <? n)%Z end);
      [discriminate|]. intros [= <- <-]. apply calm_step_refl.
  - destruct (match count with None => true | Some n => (Z.of_nat i <? n)%Z end).
    2:{ intros [= <- <-]. apply calm_step_refl. }
    pose proof (calm_pi4_step E outdir interval build_index index_title i w)
      as C.
    destruct (CapturePi4.timelapse_step E outdir interval build_index
                index_title i w) as [[[]|e] w1]; cbn [snd] in C.
    + intros H. exact (calm_step_trans _ _ _ C (IH _ _ H)).
    + now intros [= <- <-].
Qed.

Lemma calm_pi6_loop (E : env) (outdir : string) (interval : pyfloat)
    (count : option Z) (fuel i : nat) (w : world) (r : outcome unit)
    (w' : world) :
  CapPi6.timelapse_loop E fuel outdir interval count i w = Some (r, w') ->
  calm_step w w'.
Proof.
  revert i w. induction fuel as [|fuel IH]; intros i w; cbn [CapPi6.timelapse_loop].
  - destruct (match count with None => true | Some n => (Z.of_nat i <? n)%Z end);
      [discriminate|]. intros [= <- <-]. apply calm_step_refl.
  - destruct (match count with None => true | Some n => (Z.of_nat i <? n)%Z end).
    2:{ intros [= <- <-]. apply calm_step_refl. }
    pose proof (calm_pi6_step E outdir interval i w) as C.
    destruct (CapPi6.timelapse_step E outdir interval i w)
      as [[[]|e] w1]; cbn [snd] in C.
    + intros H. exact (calm_step_trans _ _ _ C (IH _ _ H)).
    + now intros [= <- <-].
Qed.

Lemma calm_ensure_outdir (outdir : string) : calm (ensure_outdir outdir).
Proof.
  intros w. unfold ensure_outdir. destruct (outdir =? ""); cbn [snd].
  - apply calm_step_refl.
  - destruct (find_dir w outdir); cbn [snd]; [now exists []|].
    destruct (file_at w outdir); cbn [snd]; [now exists []|].
    destruct (blocked w (dir_prefix outdir)); cbn [snd]; now exists [].
Qed.

(** What a loop result becomes in [timelapse_capture]. *)
Lemma calm_after_loop (w w1 : world)
    (res : option (outcome unit * world)) :
  calm_step w w1 ->
  (forall r w', res = Some (r, w') -> calm_step w1 w') ->
  match
    match res with
    | None => None
    | Some (Raise e, w'') =>
        if subclass (e_class e) KeyboardInterrupt then
          Some (print "Timelapse interrupted by user." w'')
        else Some (Raise e, w'')
    | Some (Return _, w'') => Some (Return tt, w'')
    end
  with
  | Some (_, w') => calm_step w w'
  | None => True
  end.
Proof.
  intros C1 H. destruct res as [[[[]|e] w'']|]; [| |exact I].
  - exact (calm_step_trans _ _ _ C1 (H _ _ eq_refl)).
  - destruct (subclass (e_class e) KeyboardInterrupt).
    + cbn. apply (calm_step_trans _ _ _ C1).
      apply (calm_step_trans _ w''); [exact (H _ _ eq_refl)|].
      apply (calm_print _ w'').
    + exact (calm_step_trans _ _ _ C1 (H _ _ eq_refl)).
Qed.

Lemma timelapse_capture_of_calm
    (s : script) (E : env) (fuel : nat) (outdir : string)
    (interval : pyfloat) (count : option Z) (cfg : option scp_config)
    (build_index : bool) (index_title : string) (w : world) :
  match timelapse_capture_of s E fuel outdir interval count cfg build_index
          index_title w with
  | Some (_, w') =>
      exists new, w_trace w' = (new ++ w_trace w)%list /\
                  runs new = [] /\ copied new = []
  | None => True
  end.
Proof.
  pose proof (calm_ensure_outdir outdir w) as C0.
  destruct s; cbn [timelapse_capture_of].
  - unfold CapturePi4.timelapse_capture.
    destruct (ensure_outdir outdir w) as [[[]|e] w1]; cbn [snd] in C0;
      [|exact C0].
    apply (calm_after_loop w w1 _ C0). intros r w'. apply calm_pi4_loop.
  - unfold CapPi6.timelapse_capture.
    destruct (ensure_outdir outdir w) as [[[]|e] w1]; cbn [snd] in C0;
      [|exact C0].
    apply (calm_after_loop w w1 _ C0). intros r w'. apply calm_pi6_loop.
Qed.

(** A timed series never starts a program and never copies a file, in
    either script, for any count (or none), with or without a remote
    configured and whatever happens on the way: when [timelapse_capture]
    comes back, by returning or by raising, no [ssh], no [scp] and no other
    command has been run since it was called.  The frames of a series reach
    the remote host only through what [main] does afterwards. *)
Theorem timelapse_runs_no_program
    (s : script) (E : env) (fuel : nat) (outdir : string)
    (interval : pyfloat) (count : option Z) (cfg : option scp_config)
    (build_index : bool) (index_title : string) (w : world) :
  match timelapse_capture_of s E fuel outdir interval count cfg build_index
          index_title w with
  | Some (_, w') =>
      exists new, w_trace w' = (new ++ w_trace w)%list /\
                  runs new = [] /\ copied new = []
  | None => True
  end.
Proof.
  exact (timelapse_capture_of_calm s E fuel outdir interval count cfg
           build_index index_title w).
Qed.

(* ================================================================= *)
(** * A series and the index that follows it *)

Lemma names_in_complete (d : string) (fs : list file) (f : file) (n : string) :
  In f fs -> entry_name d (f_path f) = Some n -> In n (names_in d fs).
Proof.
  induction fs as [|g fs IH]; [intros []|]. cbn [names_in].
  intros [->|Hin] En.
  - rewrite En. now left.
  - destruct (entry_name d (f_path g)); [right|]; now apply IH.
Qed.

(** In a directory that is ready, a media file on disk is among the entries
    the scan and the sort return. *)
Lemma file_is_listed (w : world) (outdir : string) (l : list string)
    (p n : string) :
  ready w outdir ->
  fst (sorted_entries outdir w) = Return l ->
  has_file w p = true -> entry_name outdir p = Some n -> is_media n = true ->
  In n l.
Proof.
  intros (Hne & Hh & x & Hx & Hr & _).
  rewrite sorted_entries_run, scan_media_run. unfold os_listdir.
  destruct (String.eqb_spec outdir ""); [contradiction|].
  rewrite Hx, Hr. cbn [fst].
  destruct (forallb _ _); [|discriminate]. intros [= <-] Hf En Hm.
  apply (Permutation_in _ (Permutation_sym (sort_names_perm w outdir _))).
  apply filter_In. split; [|exact Hm].
  unfold has_file, find_file in Hf.
  destruct (find _ (w_files w)) as [f|] eqn:F; [|discriminate].
  apply find_some in F. destruct F as [Hin Hp].
  apply String.eqb_eq in Hp. subst p.
  now apply (names_in_complete outdir (w_files w) f).
Qed.

(** A series of [n] frames in either script: it returns, leaves the
    directory ready, and every frame is captured and on disk. *)
Lemma series_run (s : script) (E : env) (outdir : string)
    (interval : pyfloat) (n : Z) (cfg : option scp_config)
    (build_index : bool) (index_title : string) (w : world) :
  usable w outdir -> healthy w = true ->
  sleepable E interval ->
  (forall k, env_interrupt E k = false) ->
  exists (stamps : list datetime) (w' : world),
    List.length stamps = Z.to_nat n /\
    (forall fuel, Z.to_nat n <= fuel ->
       timelapse_capture_of s E fuel outdir interval (Some n) cfg build_index
         index_title w = Some (Return tt, w')) /\
    ready w' outdir /\
    captures (w_trace w')
    = (captures (w_trace w)
       ++ series (frame_path outdir (stamp_of s)) 0 stamps)%list /\
    Forall (fun p => has_file w' p = true)
           (series (frame_path outdir (stamp_of s)) 0 stamps).
Proof.
  intros U Hh Hi NoInt.
  destruct (ensure_outdir_run outdir w U Hh) as (w1 & En & R1 & T1 & _).
  destruct s; cbn [timelapse_capture_of].
  - destruct (loop_runs outdir (stamp_of Pi4) n
                (CapturePi4.timelapse_step E outdir interval build_index
                   index_title)
                (fun fuel i w =>
                   CapturePi4.timelapse_loop E fuel outdir interval (Some n)
                     build_index index_title i w))
      with (k := Z.to_nat n) (i := 0) (w := w1)
      as (stamps & w' & L & Run & R' & C & _ & F).
    + intros fuel i w0. now destruct fuel.
    + intros i w0. now apply pi4_step_ok.
    + exact R1.
    + reflexivity.
    + exists stamps, w'. split; [exact L|]. split.
      { intros fuel Hf. unfold CapturePi4.timelapse_capture.
        now rewrite En, (Run fuel Hf). }
      split; [exact R'|]. split; [now rewrite C, T1 | exact F].
  - destruct (loop_runs outdir (stamp_of Pi6) n
                (CapPi6.timelapse_step E outdir interval)
                (fun fuel i w =>
                   CapPi6.timelapse_loop E fuel outdir interval (Some n) i w))
      with (k := Z.to_nat n) (i := 0) (w := w1)
      as (stamps & w' & L & Run & R' & C & _ & F).
    + intros fuel i w0. now destruct fuel.
    + intros i w0. now apply pi6_step_ok.
    + exact R1.
    + reflexivity.
    + exists stamps, w'. split; [exact L|]. split.
      { intros fuel Hf. unfold CapPi6.timelapse_capture.
        now rewrite En, (Run fuel Hf). }
      split; [exact R'|]. split; [now rewrite C, T1 | exact F].
Qed.

Lemma no_slash_stamp_of (s : script) (d : datetime) :
  has_slash (stamp_of s d) = false.
Proof.
  destruct s; cbn [stamp_of].
  - unfold drop_last. apply no_slash_substring, no_slash_strftime_compact.
  - apply no_slash_strftime_compact.
Qed.



(* ================================================================= *)
(** * A series without a count *)

Lemma pi4_loop_endless (E : env) (outdir : string) (interval : pyfloat)
    (build_index : bool) (index_title : string) (fuel i : nat) (w : world) :
  sleepable E interval ->
  (forall k, env_interrupt E k = false) -> ready w outdir ->
  CapturePi4.timelapse_loop E fuel outdir interval None build_index
    index_title i w = None.
Proof.
  intros Hi NoInt. revert i w. induction fuel as [|fuel IH]; intros i w R;
    [reflexivity|].
  cbn [CapturePi4.timelapse_loop].
  destruct (pi4_step_ok E outdir interval build_index index_title i w Hi NoInt R)
    as (d & w' & -> & R' & _).
  now apply IH.
Qed.

Lemma pi6_loop_endless (E : env) (outdir : string) (interval : pyfloat)
    (fuel i : nat) (w : world) :
  sleepable E interval ->
  (forall k, env_interrupt E k = false) -> ready w outdir ->
  CapPi6.timelapse_loop E fuel outdir interval None i w = None.
Proof.
  intros Hi NoInt. revert i w. induction fuel as [|fuel IH]; intros i w R;
    [reflexivity|].
  cbn [CapPi6.timelapse_loop].
  destruct (pi6_step_ok E outdir interval i w Hi NoInt R)
    as (d & w' & -> & R' & _).
  now apply IH.
Qed.



(* ================================================================= *)
(** * Finalizing in cap_pi6.py when the remote host works *)

Lemma scp_source_scp (pre : list string) (p target : string) :
  scp_source (Run (("scp" :: pre) ++ [p; target])%list) = Some p.
Proof.
  unfold scp_source. rewrite rev_app_distr. reflexivity.
Qed.

Lemma scp_source_ssh (pre : list string) :
  scp_source (Run ("ssh" :: pre)) = None.
Proof.
  unfold scp_source. now destruct (List.rev ("ssh" :: pre)) as [|a [|b l]].
Qed.

Lemma scp_source_upload (port : string) (key : list string)
    (p target : string) :
  scp_source (Run ((["scp"; "-P"; port] ++ key) ++ [p; target])%list) = Some p.
Proof. exact (scp_source_scp ("-P" :: port :: key) p target). Qed.

Lemma scp_source_mkdir (port : string) (key : list string)
    (target cmd : string) :
  scp_source (Run (((["ssh"; "-p"; port] ++ key) ++ [target]) ++ [cmd])%list)
  = None.
Proof. exact (scp_source_ssh _). Qed.

Section WorkingRemote.
Variable E : env.
Hypothesis programs_installed : forall prog, env_which E prog = true.
Hypothesis programs_succeed : forall k cmd, env_run E k cmd = None.

(** With [ssh] and [scp] installed and succeeding, an upload returns
    [True] after one transfer of the file. *)
Lemma scp_upload_ok (p : string) (c : scp_config) (w : world) :
  exists w',
    _scp_upload E p c w = (Return true, w') /\
    same_fs w w' /\
    uploaded (w_trace w') = p :: uploaded (w_trace w) /\
    copied (w_trace w') = copied (w_trace w).
Proof.
  unfold _scp_upload, _ensure_remote_dir. rewrite !programs_installed.
  cbn [negb]. unfold try_except, bind, subprocess_run.
  rewrite programs_succeed. msimpl. rewrite programs_succeed. msimpl.
  eexists. split; [reflexivity|]. split; [now split|]. split; [|reflexivity].
  cbn [w_trace log tick uploaded].
  change (scp_source (Print _)) with (@None string). cbv iota.
  now rewrite scp_source_upload, scp_source_mkdir.
Qed.

Lemma republish_ok (outdir : string) (c : scp_config)
    (entries : list string) (fn : option string) (w : world) :
  exists w',
    CapPi6.republish E outdir (Some c) entries fn w
    = (Return (match entries with
               | [] => fn
               | _ => Some (outdir ++ "/" ++ last entries EmptyString)
               end), w') /\
    same_fs w w' /\
    uploaded (w_trace w')
    = List.app (List.rev (map (fun entry => outdir ++ "/" ++ entry) entries))
               (uploaded (w_trace w)) /\
    copied (w_trace w') = copied (w_trace w).
Proof.
  revert fn w. induction entries as [|e l IH]; intros fn w.
  - exists w. split; [reflexivity|]. split; [apply same_fs_refl|]. now split.
  - cbn [CapPi6.republish call_scp_upload]. unfold bind.
    destruct (scp_upload_ok (outdir ++ "/" ++ e) c w)
      as (w1 & -> & F1 & U1 & C1).
    destruct (IH (Some (outdir ++ "/" ++ e)) w1) as (w' & -> & F' & U' & C').
    exists w'. split; [now destruct l|].
    split; [exact (same_fs_trans _ _ _ F1 F')|]. split; [|congruence].
    rewrite U', U1. cbn [map List.rev]. now rewrite <- app_assoc.
Qed.

End WorkingRemote.

Lemma os_path_join_index_nonempty (outdir : string) :
  outdir <> EmptyString ->
  truthy (Some (os_path_join outdir "index.html")) = true.
Proof.
  intros Hne. unfold truthy, os_path_join. cbn [startswith_slash is_slash].
  change (Ascii.eqb "i" "/") with false. cbv iota.
  destruct ((outdir =? "") || endswith_slash outdir);
    destruct outdir; try contradiction; reflexivity.
Qed.

Lemma finalizing_uploads
    (E : env) (outdir : string) (c : scp_config) (w : world)
    (entries : list string) :
  (forall prog, env_which E prog = true) ->
  (forall k cmd, env_run E k cmd = None) ->
  (forall k src dst, env_copy E k src dst = None) ->
  ready w outdir ->
  fst (sorted_entries outdir w) = Return entries ->
  entries <> [] ->
  exists w',
    CapPi6.finalizing E outdir (Some c) w = (Return tt, w') /\
    uploaded (w_trace w')
    = "thumbnail.jpg"
      :: List.app
           (List.rev (map (fun entry => outdir ++ "/" ++ entry) entries))
           (os_path_join outdir "index.html" :: uploaded (w_trace w)) /\
    copied (w_trace w')
    = (outdir ++ "/" ++ last entries EmptyString, "thumbnail.jpg")
        :: copied (w_trace w).
Proof.
  intros Hw Hr Hc R S Hne.
  pose proof R as (Ho & _ & x & Hx & _ & Hxw).
  unfold CapPi6.finalizing, build_and_publish. unfold bind at 1.
  unfold bind at 1. unfold CapPi6.build_index_html.
  pose proof (build_index_keeps_entries E CapPi6.html_head
                CapPi6.timelapse_card outdir
                "Owl Box Timelapse Image Index" w) as K.
  rewrite S in K. revert K. rewrite build_index_run, S. cbv zeta.
  rewrite (can_create_index_writable w outdir x Ho Hx Hxw). cbn [snd].
  intros K.
  set (w0 := log _ (written E _ _ w)) in *.
  unfold publish_index. rewrite (os_path_join_index_nonempty outdir Ho).
  cbn [configured andb call_scp_upload]. unfold bind at 1.
  destruct (scp_upload_ok E Hw Hr (os_path_join outdir "index.html") c w0)
    as (w1 & -> & F1 & U1 & C1).
  cbn [ret]. unfold bind at 1.
  rewrite (run_reads _ w1 (reads_sorted_entries outdir)).
  rewrite (fs_only_sorted_entries outdir _ _ F1), K.
  unfold bind at 1.
  destruct (republish_ok E Hw Hr outdir c entries None w1)
    as (w2 & -> & F2 & U2 & C2).
  destruct entries as [|e0 rest]; [contradiction|].
  unfold bind at 1. unfold shutil_copy2. rewrite Hc.
  unfold bind. cbn [call_scp_upload].
  destruct (scp_upload_ok E Hw Hr "thumbnail.jpg" c
              (tick (log (Copy (outdir ++ "/" ++ last (e0 :: rest) "")
                               "thumbnail.jpg") w2)))
    as (w3 & -> & F3 & U3 & C3).
  exists w3. split; [reflexivity|]. split.
  - rewrite U3. cbn [w_trace tick log uploaded].
    change (scp_source (Copy _ _)) with (@None string). cbv iota.
    rewrite U2, U1. reflexivity.
  - rewrite C3. cbn [w_trace tick log copied]. now rewrite C2, C1.
Qed.



(* ================================================================= *)
(** * capture_pi4.py: what reaches the remote host *)

Lemma uploaded_app (new old : list event) :
  uploaded (new ++ old) = (uploaded new ++ uploaded old)%list.
Proof.
  induction new as [|ev new IH]; [reflexivity|].
  change (uploaded ((ev :: new) ++ old))
    with (match scp_source ev with
          | Some src => src :: uploaded (new ++ old)
          | None => uploaded (new ++ old)
          end).
  change (uploaded (ev :: new))
    with (match scp_source ev with
          | Some src => src :: uploaded new
          | None => uploaded new
          end).
  rewrite IH. now destruct (scp_source ev).
Qed.

(** Only programs that were run count as uploads. *)
Lemma uploaded_of_runs (tr : list event) :
  uploaded tr = uploaded (map Run (runs tr)).
Proof.
  induction tr as [|ev tr IH]; [reflexivity|].
  destruct ev; cbn [runs map uploaded]; try exact IH.
  now rewrite IH.
Qed.

Lemma calm_step_uploaded (w w' : world) :
  calm_step w w' -> uploaded (w_trace w') = uploaded (w_trace w).
Proof.
  intros (new & -> & R & _).
  now rewrite uploaded_app, (uploaded_of_runs new), R.
Qed.

Lemma calm_step_runs (w w' : world) :
  calm_step w w' -> runs (w_trace w') = runs (w_trace w).
Proof. intros (new & -> & R & _). now rewrite runs_app, R. Qed.

Lemma uploaded_scp_command (p : string) (c : scp_config) :
  scp_source (Run (scp_command p c)) = Some p /\
  scp_source (Run (ssh_command c)) = None.
Proof.
  split.
  - exact (scp_source_scp _ p (scp_target p c)).
  - exact (scp_source_ssh _).
Qed.

(** One call of [_scp_upload] hands at most one file to [scp]: its own. *)
Lemma scp_upload_at_most_one (E : env) (p : string) (c : scp_config)
    (w : world) :
  exists (r : outcome bool) (w' : world),
    _scp_upload E p c w = (r, w') /\
    same_fs w w' /\
    (uploaded (w_trace w') = uploaded (w_trace w) \/
     uploaded (w_trace w') = p :: uploaded (w_trace w)).
Proof.
  destruct (scp_upload_events E p c w) as (r & w' & new & Run & F & T & D & _).
  exists r, w'. split; [exact Run|]. split; [exact F|].
  rewrite T, uploaded_app, (uploaded_of_runs new).
  destruct (uploaded_scp_command p c) as [S1 S2].
  destruct D as [-> | [-> | ->]]; cbn [map uploaded].
  - now left.
  - rewrite S2. now left.
  - rewrite S1, S2. now right.
Qed.

Lemma index_path_truthy (outdir : string) :
  truthy (Some (os_path_join outdir "index.html")) = true.
Proof.
  unfold truthy, os_path_join. cbn [startswith_slash is_slash].
  change (Ascii.eqb "i" "/") with false. cbv iota.
  destruct ((outdir =? "") || endswith_slash outdir);
    destruct outdir; reflexivity.
Qed.

(** What the refusing remote of [env_no_remote] writes can be decoded. *)
Lemma env_no_remote_decodes : decodes env_no_remote.
Proof.
  intros k [|prog cmd] msg err; cbn [env_run env_no_remote]; [discriminate|].
  destruct (prog =? "ssh"); [|discriminate]. now intros [= <- <-].
Qed.

Lemma quiet_pi4_finalizing (E : env) (outdir : string)
    (cfg : option scp_config) :
  quiet (CapturePi4.finalizing E outdir cfg).
Proof.
  unfold CapturePi4.finalizing, build_and_publish.
  apply quiet_bind; [apply quiet_build_index|].
  intros idx. apply quiet_publish_index.
Qed.

Lemma calm_publish_index_none (E : env) (idx : option string) :
  calm (publish_index E idx None).
Proof.
  unfold publish_index. cbn [configured]. rewrite andb_false_r.
  apply calm_ret.
Qed.

(** The [finally:] block of capture_pi4.py: what it hands to [scp] is the
    index page or nothing. *)
Lemma pi4_finalizing_uploads (E : env) (outdir : string)
    (cfg : option scp_config) (w : world) :
  let w' := snd (CapturePi4.finalizing E outdir cfg w) in
  uploaded (w_trace w') = uploaded (w_trace w) \/
  uploaded (w_trace w')
  = os_path_join outdir "index.html" :: uploaded (w_trace w).
Proof.
  cbv zeta. unfold CapturePi4.finalizing, build_and_publish, bind.
  pose proof (calm_build_index E CapturePi4.html_head [] outdir
                "Owl Box Timelapse Image Index" w) as C.
  apply calm_step_uploaded in C. revert C.
  unfold CapturePi4.build_index_html.
  destruct (build_index E CapturePi4.html_head [] outdir
              "Owl Box Timelapse Image Index" w) as [[idx|e] w0] eqn:B;
    cbn [snd]; intros C; [|now left].
  destruct cfg as [c|].
  2:{ pose proof (calm_publish_index_none E idx w0) as C'.
      apply calm_step_uploaded in C'. left. now rewrite C'. }
  destruct idx as [p|]; [|left; now rewrite publish_index_none].
  assert (P : p = os_path_join outdir "index.html").
  { revert B. rewrite build_index_run.
    destruct (fst (sorted_entries outdir w)); [|discriminate]. cbv zeta.
    destruct (can_create w _); [now intros [= <- _] | discriminate]. }
  subst p. unfold publish_index. rewrite index_path_truthy.
  cbn [configured andb call_scp_upload]. unfold bind.
  destruct (scp_upload_at_most_one E (os_path_join outdir "index.html") c w0)
    as ([b|e] & w1 & -> & _ & [U|U]); cbn [snd ret]; rewrite U, C; auto.
Qed.



(** A whole run of capture_pi4.py in time-lapse mode, the series and then
    the [finally:] block of [main]: whatever the count, the remote and the
    answers of the outside, the only file it ever hands to [scp] is the
    index page, at most once.  No frame of a series is uploaded by this
    script. *)
Theorem pi4_series_uploads_only_the_index
    (E : env) (fuel : nat) (outdir : string) (interval : pyfloat)
    (count : option Z) (cfg : option scp_config) (build_index : bool)
    (index_title : string) (w : world) :
  match CapturePi4.timelapse_capture E fuel outdir interval count cfg
          build_index index_title w with
  | Some (_, w1) =>
      let w2 := snd (CapturePi4.finalizing E outdir cfg w1) in
      uploaded (w_trace w2) = uploaded (w_trace w) \/
      uploaded (w_trace w2)
      = os_path_join outdir "index.html" :: uploaded (w_trace w)
  | None => True
  end.
Proof.
  pose proof (timelapse_capture_of_calm Pi4 E fuel outdir interval count cfg
                build_index index_title w) as C.
  cbn [timelapse_capture_of] in C.
  destruct (CapturePi4.timelapse_capture E fuel outdir interval count cfg
              build_index index_title w) as [[r w1]|]; [|exact I].
  assert (U : uploaded (w_trace w1) = uploaded (w_trace w))
    by (apply calm_step_uploaded; exact C).
  pose proof (pi4_finalizing_uploads E outdir cfg w1) as F.
  cbv zeta in *. now rewrite U in F.
Qed.

(* ================================================================= *)
(** * One picture: the clock, the capture, and what follows *)

Lemma shot_name_relative (prefix ts : string) :
  has_slash prefix = false -> has_slash ts = false ->
  has_slash (prefix ++ "_" ++ ts ++ ".jpg") = false /\
  prefix ++ "_" ++ ts ++ ".jpg" <> EmptyString.
Proof.
  intros Hp Ht. split.
  - rewrite !has_slash_app, Hp, Ht. reflexivity.
  - destruct prefix; discriminate.
Qed.

(** Reading the clock and capturing to the path made from the reading, in
    a directory that is ready: the capture succeeds, and whatever follows
    starts in a world that is ready, with one capture more and the frame on
    disk. *)
Lemma shot_prefix {A : Type} (E : env) (outdir : string)
    (stamp : datetime -> string) (prefix : string)
    (rest : datetime -> M A) (w : world) :
  ready w outdir -> has_slash prefix = false ->
  (forall d, has_slash (stamp d) = false) ->
  exists (d : datetime) (w2 : world),
    (d <- now E ;;
     capture_file E (frame_path outdir stamp prefix d) ;;
     rest d) w = rest d w2 /\
    ready w2 outdir /\
    captures (w_trace w2)
    = (captures (w_trace w) ++ [frame_path outdir stamp prefix d])%list /\
    (forall q, has_file w q = true -> has_file w2 q = true) /\
    has_file w2 (frame_path outdir stamp prefix d) = true /\
    w_trace w2 = Capture (frame_path outdir stamp prefix d) :: w_trace w.
Proof.
  intros R Hp Hst.
  set (d := env_now E (w_tick w)).
  set (p := frame_path outdir stamp prefix d).
  destruct (shot_name_relative prefix (stamp d) Hp (Hst d)) as [Hs Hn].
  assert (R1 : ready (tick w) outdir)
    by exact (ready_stable outdir _ _ (quiet_step_tick w) R).
  set (w2 := tick (log (Capture p)
                     (set_files
                        (put_file p (env_mtime E (w_tick (tick w)),
                                     env_size E (w_tick (tick w)))
                                  (w_files (tick w))) (tick w)))).
  exists d, w2. split.
  { unfold bind at 1. cbn [now]. fold d. unfold bind.
    unfold frame_path at 1.
    rewrite (capture_file_run E outdir _ (tick w) R1 Hs Hn).
    reflexivity. }
  split; [now apply ready_after_capture|].
  split; [reflexivity|]. split.
  - intros q Hq.
    pose proof (has_file_put_file p q
                  (env_mtime E (w_tick (tick w)), env_size E (w_tick (tick w)))
                  (tick w) Hq) as H.
    exact H.
  - split; [|reflexivity]. unfold w2, has_file, find_file.
    cbn [w_files tick log set_files]. now rewrite find_put_file_same.
Qed.

Lemma calm_print2 (a b : string) : calm (print2 a b).
Proof. intros w. now eexists [_]. Qed.

Lemma calm_pi4_single_capture (E : env) (outdir : string)
    (build_index : bool) (index_title : string) :
  calm (CapturePi4.single_capture E outdir None build_index index_title).
Proof.
  unfold CapturePi4.single_capture.
  apply calm_bind; [apply calm_ensure_outdir|]. intros _.
  apply calm_bind; [apply calm_now|]. intros d.
  apply calm_bind; [apply calm_capture_file|]. intros _.
  apply calm_bind; [apply calm_now|]. intros d'.
  apply calm_bind.
  { exact (calm_annotate_of Pi4 E
             (CapturePi4.timestamped_filename outdir "image" "jpg" d)
             (Some (strftime_human d')) None). }
  intros b.
  apply calm_bind; [destruct b; [apply calm_print2 | apply calm_ret]|].
  intros _. apply calm_bind; [apply calm_print2|]. intros _.
  cbn [configured].
  apply calm_bind; [apply calm_ret|]. intros _.
  destruct build_index; [|apply calm_ret].
  unfold build_and_publish.
  apply calm_bind; [apply calm_build_index|]. intros idx.
  apply calm_publish_index_none.
Qed.



(* ================================================================= *)
(** * Ctrl-C during a series *)

Section InterruptedOn.
Variable P : world -> Prop.
Hypothesis P_stable : forall w w', quiet_step w w' -> P w -> P w'.

Lemma interrupted_bind {A B : Type} (c : M A) (k : A -> M B) :
  quiet c -> returns_on P c -> (forall a, interrupted_on P (k a)) ->
  interrupted_on P (bind c k).
Proof.
  intros Qc Rc Ik w Pw. destruct (Rc w Pw) as [a Ha].
  specialize (Qc w). unfold bind.
  destruct (c w) as [[a'|e] w']; cbn [fst snd] in *; [|discriminate].
  apply Ik. now apply (P_stable w).
Qed.

Lemma interrupted_sleep (E : env) (i : pyfloat) :
  sleepable E i ->
  (forall k, env_interrupt E k = true) -> interrupted_on P (sleep E i).
Proof.
  intros Hi H w _. unfold sleep.
  rewrite (sleepable_no_error E i w Hi), H. eexists; reflexivity.
Qed.

End InterruptedOn.

Lemma pi4_rest_interrupted (E : env) (outdir : string) (interval : pyfloat)
    (build_index : bool) (index_title : string) (i : nat) (fname : string) :
  sleepable E interval ->
  (forall k, env_interrupt E k = true) ->
  interrupted_on (fun w => ready w outdir)
    (d0 <- now E ;;
     let ts_text := strftime_human d0 in
     annotated <- CapturePi4._annotate_image_with_timestamp E fname
                    (Some ts_text) None ;;
     (if annotated then
        print ("[" ++ str (i + 1) ++ "] Annotated with timestamp: " ++ ts_text)
      else ret tt) ;;
     print ("[" ++ str (i + 1) ++ "] Saved: " ++ fname) ;;
     (if build_index then
        _ <- CapturePi4.build_index_html E outdir index_title ;; ret tt
      else ret tt) ;;
     sleep E interval).
Proof.
  intros Hi Int. pose proof (ready_is_stable outdir) as St.
  apply interrupted_bind;
    [exact St | apply quiet_now | apply returns_on_now |].
  intros d0. cbv zeta. apply interrupted_bind;
    [exact St | apply quiet_annotate_pi4 | |].
  { intros w0 _.
    destruct (annotate_pi4_returns E fname (Some (strftime_human d0)) None w0)
      as (b & Hb & _).
    now exists b. }
  intros b. apply interrupted_bind; [exact St | | |].
  { destruct b; [apply quiet_print | apply quiet_ret]. }
  { destruct b; [apply returns_on_print | apply returns_on_ret]. }
  intros _. apply interrupted_bind;
    [exact St | apply quiet_print | apply returns_on_print |].
  intros _. apply interrupted_bind; [exact St | | |].
  { destruct build_index; [|apply quiet_ret].
    apply quiet_bind; [apply quiet_build_index | intros; apply quiet_ret]. }
  { destruct build_index; [|apply returns_on_ret].
    apply returns_on_bind;
      [exact St | apply quiet_build_index | apply returns_on_build_index |].
    intros; apply returns_on_ret. }
  intros _. now apply interrupted_sleep.
Qed.

Lemma quiet_pi4_rest (E : env) (outdir : string) (interval : pyfloat)
    (build_index : bool) (index_title : string) (i : nat) (fname : string) :
  quiet
    (d0 <- now E ;;
     let ts_text := strftime_human d0 in
     annotated <- CapturePi4._annotate_image_with_timestamp E fname
                    (Some ts_text) None ;;
     (if annotated then
        print ("[" ++ str (i + 1) ++ "] Annotated with timestamp: " ++ ts_text)
      else ret tt) ;;
     print ("[" ++ str (i + 1) ++ "] Saved: " ++ fname) ;;
     (if build_index then
        _ <- CapturePi4.build_index_html E outdir index_title ;; ret tt
      else ret tt) ;;
     sleep E interval).
Proof.
  apply quiet_bind; [apply quiet_now|]. intros d0. cbv zeta.
  apply quiet_bind; [apply quiet_annotate_pi4|]. intros b.
  apply quiet_bind; [destruct b; [apply quiet_print | apply quiet_ret]|].
  intros _. apply quiet_bind; [apply quiet_print|]. intros _.
  apply quiet_bind; [|intros; apply quiet_sleep].
  destruct build_index; [|apply quiet_ret].
  apply quiet_bind; [apply quiet_build_index | intros; apply quiet_ret].
Qed.

Lemma pi6_rest_interrupted (E : env) (outdir : string) (interval : pyfloat)
    (i : nat) (fname : string) :
  sleepable E interval ->
  (forall k, env_interrupt E k = true) ->
  interrupted_on (fun w => ready w outdir)
    (d0 <- now E ;;
     let ts_text := strftime_human d0 in
     annotated <- CapPi6._annotate_image_with_timestamp E fname
                    (Some ts_text) None ;;
     (if annotated then
        print ("[" ++ str (i + 1) ++ "] Annotated with timestamp: " ++ ts_text)
      else ret tt) ;;
     print ("[" ++ str (i + 1) ++ "] Saved: " ++ fname) ;;
     sleep E interval).
Proof.
  intros Hi Int. pose proof (ready_is_stable outdir) as St.
  apply interrupted_bind;
    [exact St | apply quiet_now | apply returns_on_now |].
  intros d0. cbv zeta. apply interrupted_bind;
    [exact St | apply quiet_annotate_pi6 | |].
  { intros w0 _.
    exact (annotate_pi6_returns_given_text E fname (strftime_human d0)
             None w0). }
  intros b. apply interrupted_bind; [exact St | | |].
  { destruct b; [apply quiet_print | apply quiet_ret]. }
  { destruct b; [apply returns_on_print | apply returns_on_ret]. }
  intros _. apply interrupted_bind;
    [exact St | apply quiet_print | apply returns_on_print |].
  intros _. now apply interrupted_sleep.
Qed.

Lemma quiet_pi6_rest (E : env) (interval : pyfloat) (i : nat)
    (fname : string) :
  quiet
    (d0 <- now E ;;
     let ts_text := strftime_human d0 in
     annotated <- CapPi6._annotate_image_with_timestamp E fname
                    (Some ts_text) None ;;
     (if annotated then
        print ("[" ++ str (i + 1) ++ "] Annotated with timestamp: " ++ ts_text)
      else ret tt) ;;
     print ("[" ++ str (i + 1) ++ "] Saved: " ++ fname) ;;
     sleep E interval).
Proof.
  apply quiet_bind; [apply quiet_now|]. intros d0. cbv zeta.
  apply quiet_bind; [apply quiet_annotate_pi6|]. intros b.
  apply quiet_bind; [destruct b; [apply quiet_print | apply quiet_ret]|].
  intros _. apply quiet_bind; [apply quiet_print|]. intros _.
  apply quiet_sleep.
Qed.

Lemma pi4_step_interrupted (E : env) (outdir : string) (interval : pyfloat)
    (build_index : bool) (index_title : string) (i : nat) (w : world) :
  sleepable E interval ->
  (forall k, env_interrupt E k = true) -> ready w outdir ->
  exists (d : datetime) (w' : world),
    CapturePi4.timelapse_step E outdir interval build_index index_title i w
    = (Raise (error KeyboardInterrupt EmptyString), w') /\
    captures (w_trace w')
    = (captures (w_trace w)
       ++ [frame_path outdir (stamp_of Pi4) ("img" ++ fmt_d 4 i) d])%list /\
    has_file w' (frame_path outdir (stamp_of Pi4) ("img" ++ fmt_d 4 i) d)
    = true.
Proof.
  intros Hi Int R.
  set (rest := fun d : datetime =>
         let fname :=
           CapturePi4.timestamped_filename outdir ("img" ++ fmt_d 4 i) "jpg" d
         in
         d0 <- now E ;;
         let ts_text := strftime_human d0 in
         annotated <- CapturePi4._annotate_image_with_timestamp E fname
                        (Some ts_text) None ;;
         (if annotated then
            print ("[" ++ str (i + 1) ++ "] Annotated with timestamp: "
                   ++ ts_text)
          else ret tt) ;;
         print ("[" ++ str (i + 1) ++ "] Saved: " ++ fname) ;;
         (if build_index then
            _ <- CapturePi4.build_index_html E outdir index_title ;; ret tt
          else ret tt) ;;
         sleep E interval).
  assert (Hp : has_slash ("img" ++ fmt_d 4 i) = false).
  { rewrite has_slash_app, (no_slash_digits _ (is_digits_fmt_d 4 i)).
    reflexivity. }
  destruct (shot_prefix E outdir (stamp_of Pi4) ("img" ++ fmt_d 4 i) rest w R
              Hp (no_slash_stamp_of Pi4)) as (d & w2 & Run & R2 & C2 & _ & H2 & _).
  destruct (pi4_rest_interrupted E outdir interval build_index index_title i
              (CapturePi4.timestamped_filename outdir ("img" ++ fmt_d 4 i)
                 "jpg" d) Hi Int w2 R2) as [w3 Hw3].
  pose proof (quiet_pi4_rest E outdir interval build_index index_title i
                (CapturePi4.timestamped_filename outdir ("img" ++ fmt_d 4 i)
                   "jpg" d) w2) as Q.
  rewrite Hw3 in Q. cbn [snd] in Q. destruct Q as (_ & _ & F3 & new & T3 & C3).
  exists d, w3. split.
  { transitivity (rest d w2); [exact Run | exact Hw3]. }
  split; [|now apply F3].
  rewrite T3, captures_app, C3, app_nil_r. exact C2.
Qed.

Lemma pi6_step_interrupted (E : env) (outdir : string) (interval : pyfloat)
    (i : nat) (w : world) :
  sleepable E interval ->
  (forall k, env_interrupt E k = true) -> ready w outdir ->
  exists (d : datetime) (w' : world),
    CapPi6.timelapse_step E outdir interval i w
    = (Raise (error KeyboardInterrupt EmptyString), w') /\
    captures (w_trace w')
    = (captures (w_trace w)
       ++ [frame_path outdir (stamp_of Pi6) ("img" ++ fmt_d 4 i) d])%list /\
    has_file w' (frame_path outdir (stamp_of Pi6) ("img" ++ fmt_d 4 i) d)
    = true.
Proof.
  intros Hi Int R.
  set (rest := fun d : datetime =>
         let fname :=
           CapPi6.timestamped_filename outdir ("img" ++ fmt_d 4 i) "jpg" d in
         d0 <- now E ;;
         let ts_text := strftime_human d0 in
         annotated <- CapPi6._annotate_image_with_timestamp E fname
                        (Some ts_text) None ;;
         (if annotated then
            print ("[" ++ str (i + 1) ++ "] Annotated with timestamp: "
                   ++ ts_text)
          else ret tt) ;;
         print ("[" ++ str (i + 1) ++ "] Saved: " ++ fname) ;;
         sleep E interval).
  assert (Hp : has_slash ("img" ++ fmt_d 4 i) = false).
  { rewrite has_slash_app, (no_slash_digits _ (is_digits_fmt_d 4 i)).
    reflexivity. }
  destruct (shot_prefix E outdir (stamp_of Pi6) ("img" ++ fmt_d 4 i) rest w R
              Hp (no_slash_stamp_of Pi6)) as (d & w2 & Run & R2 & C2 & _ & H2 & _).
  destruct (pi6_rest_interrupted E outdir interval i
              (CapPi6.timestamped_filename outdir ("img" ++ fmt_d 4 i)
                 "jpg" d) Hi Int w2 R2) as [w3 Hw3].
  pose proof (quiet_pi6_rest E interval i
                (CapPi6.timestamped_filename outdir ("img" ++ fmt_d 4 i)
                   "jpg" d) w2) as Q.
  rewrite Hw3 in Q. cbn [snd] in Q. destruct Q as (_ & _ & F3 & new & T3 & C3).
  exists d, w3. split.
  { transitivity (rest d w2); [exact Run | exact Hw3]. }
  split; [|now apply F3].
  rewrite T3, captures_app, C3, app_nil_r. exact C2.
Qed.



(* ================================================================= *)
(** * cap_pi6.py: [image_rotate] and [single_capture] *)




(* ================================================================= *)
(** * [main]: the remote target *)

Lemma truthy_given (o : option string) :
  truthy o = true -> o = Some (given o) /\ given o <> EmptyString.
Proof.
  destruct o as [s|]; [|discriminate]. cbn [truthy given].
  intros H. split; [reflexivity|]. intros ->. discriminate H.
Qed.

(** The validation of the remote options in [main] (the same statements in
    capture_pi4.py and cap_pi6.py).  Without [--scp] there is no remote
    target, whatever the other options.  With [--scp], a target is made
    exactly when host, user and path are all given and non-empty, and then
    it holds these three values, the key and the port as given; otherwise
    [parser.error] is called, and its message names the missing options. *)
Theorem scp_config_is_validated (a : args) :
  match scp_config_of a with
  | inr None => args_scp a = false
  | inr (Some c) =>
      args_scp a = true /\
      args_remote_host a = Some (remote_host c) /\
      remote_host c <> EmptyString /\
      args_remote_user a = Some (remote_user c) /\
      remote_user c <> EmptyString /\
      args_remote_path a = Some (remote_path c) /\
      remote_path c <> EmptyString /\
      ssh_key c = args_ssh_key a /\ ssh_port c = args_ssh_port a
  | inl msg =>
      args_scp a = true /\
      truthy (args_remote_host a) && truthy (args_remote_user a)
        && truthy (args_remote_path a) = false /\
      msg = "SCP enabled but missing required options: "
            ++ String.concat ", " (missing a) /\
      (In "--remote-host" (missing a)
       <-> truthy (args_remote_host a) = false) /\
      (In "--remote-user" (missing a)
       <-> truthy (args_remote_user a) = false) /\
      (In "--remote-path" (missing a)
       <-> truthy (args_remote_path a) = false)
  end.
Proof.
  unfold scp_config_of, missing.
  destruct (args_scp a); [|reflexivity].
  destruct (truthy (args_remote_host a)) eqn:H;
    destruct (truthy (args_remote_user a)) eqn:U;
    destruct (truthy (args_remote_path a)) eqn:P; cbn [List.app].
  1:{ destruct (truthy_given _ H) as [H1 H2].
      destruct (truthy_given _ U) as [U1 U2].
      destruct (truthy_given _ P) as [P1 P2].
      cbn. now repeat split. }
  all: split; [reflexivity|]; split; [reflexivity|]; split; [reflexivity|];
    cbn [In]; repeat split; intros; try discriminate; try reflexivity;
    repeat match goal with
           | K : _ \/ _ |- _ => destruct K
           | K : False |- _ => destruct K
           | K : _ = _ |- _ => discriminate K
           end; auto.
Qed.

(* ================================================================= *)
(** * capture_pi.py *)

Lemma no_slash_stamp_pi (d : datetime) :
  has_slash (drop_last 3 (strftime_compact_f d)) = false.
Proof.
  unfold drop_last. apply no_slash_substring. unfold strftime_compact_f.
  rewrite !has_slash_app, no_slash_strftime_compact,
    (no_slash_digits _ (is_digits_fmt_d 6 _)).
  reflexivity.
Qed.

Lemma pi_step_ok (E : env) (outdir : string) (interval : pyfloat)
    (i : nat) (w : world) :
  sleepable E interval ->
  (forall k, env_interrupt E k = false) ->
  ready w outdir ->
  exists (d : datetime) (w' : world),
    CapturePi.timelapse_step E outdir interval i w = (Return tt, w') /\
    ready w' outdir /\
    captures (w_trace w')
    = (captures (w_trace w)
       ++ [frame_path outdir (fun d => drop_last 3 (strftime_compact_f d))
             ("img" ++ fmt_d 4 i) d])%list /\
    (forall q, has_file w q = true -> has_file w' q = true) /\
    has_file w' (frame_path outdir
                   (fun d => drop_last 3 (strftime_compact_f d))
                   ("img" ++ fmt_d 4 i) d) = true.
Proof.
  intros Hi NoInt R.
  assert (Hp : has_slash ("img" ++ fmt_d 4 i) = false).
  { rewrite has_slash_app, (no_slash_digits _ (is_digits_fmt_d 4 i)).
    reflexivity. }
  set (rest := fun d : datetime =>
         print ("[" ++ str (i + 1) ++ "] Saved: " ++
                CapturePi.timestamped_filename outdir ("img" ++ fmt_d 4 i)
                  "jpg" d) ;;
         sleep E interval).
  destruct (shot_prefix E outdir
              (fun d => drop_last 3 (strftime_compact_f d))
              ("img" ++ fmt_d 4 i) rest w R Hp no_slash_stamp_pi)
    as (d & w2 & Run & R2 & C2 & F2 & H2 & T2).
  assert (Q : quiet (rest d)).
  { apply quiet_bind; [apply quiet_print | intros; apply quiet_sleep]. }
  assert (Rest : rest d w2 = (Return tt, snd (rest d w2))).
  { unfold rest, bind, print, emit, sleep.
    rewrite (sleepable_no_error E interval _ Hi), NoInt. reflexivity. }
  pose proof (Q w2) as (D3 & _ & F3 & new & T3 & C3).
  exists d, (snd (rest d w2)). split.
  { transitivity (rest d w2); [exact Run | exact Rest]. }
  split; [exact (ready_stable outdir _ _ (Q w2) R2)|].
  split; [rewrite T3, captures_app, C3, app_nil_r; exact C2|].
  split; [intros q Hq; apply F3, F2, Hq | apply F3, H2].
Qed.





(* ================================================================= *)
(** * cap_pi6.py: a series and the upload at the end *)


